(** * Quick Open (src/search/QuickOpen.js): a shallow embedding

    The module is UI glue around a modal search bar.  The embedding keeps
    the code's own structure:

    - JavaScript strings are [string]s of code units (only code units
      below 256 are representable), indices are [Z];
    - numbers are the values of IEEE 754 binary64, held as rationals and
      extended with NaN and the infinities ([jsnum]): what a conversion
      or a subtraction yields is rounded to the nearest double, ties to
      the even significand ([toDouble]); the two zeros are one value (the
      code subtracts 1 from a number and tests the result with [||],
      which cannot tell them apart);
    - the module-level variables ([currentPlugin], [fileList],
      [fileListPromise], [_curDialog]), the dialogs, the promises and the
      host objects the code talks to (editor, modal bar, console) live in
      one explicit state that every function threads through.

    Functions of other modules (StringMatch, ProjectManager,
    PriorityBasedRegistration, ...) are parameters of a section. *)

From Stdlib Require Import ZArith QArith Qcanon Ascii String List Bool Lia.
From stdpp Require Import base option gmap strings list.

Local Open Scope string_scope.
Local Open Scope Z_scope.

(** ** JavaScript string primitives *)

Module JSString.

(** [s.length] *)
Definition len (s : string) : Z := Z.of_nat (String.length s).

Fixpoint lastIndexOf_from (pat s : string) (i acc : Z) : Z :=
  let acc' := if String.prefix pat s then i else acc in
  match s with
  | EmptyString => acc'
  | String _ s' => lastIndexOf_from pat s' (i + 1) acc'
  end.

(** [s.lastIndexOf(pat)]: the greatest index at which [pat] occurs, or -1. *)
Definition lastIndexOf (s pat : string) : Z := lastIndexOf_from pat s 0 (-1).

Fixpoint indexOf_from (pat s : string) (i : Z) : Z :=
  if String.prefix pat s then i
  else match s with
       | EmptyString => -1
       | String _ s' => indexOf_from pat s' (i + 1)
       end.

(** [s.indexOf(pat)]: the least index at which [pat] occurs, or -1. *)
Definition indexOf (s pat : string) : Z := indexOf_from pat s 0.

(** A relative index as [slice] resolves it: negative counts from the end,
    the result is clamped to [0, length]. *)
Definition clamp (n k : Z) : Z :=
  if k <? 0 then Z.max (n + k) 0 else Z.min k n.

(** [s.slice(start, end)] *)
Definition slice (s : string) (start end_ : Z) : string :=
  let from := clamp (len s) start in
  let to := clamp (len s) end_ in
  String.substring (Z.to_nat from) (Z.to_nat (Z.max (to - from) 0)) s.

(** [c] occurs in [s] *)
Fixpoint has (c : ascii) (s : string) : bool :=
  match s with
  | EmptyString => false
  | String a s' => Ascii.eqb a c || has c s'
  end.

Definition char (c : ascii) : string := String c EmptyString.

(** Every code unit of [s] satisfies [p]. *)
Fixpoint allb (p : ascii -> bool) (s : string) : bool :=
  match s with
  | EmptyString => true
  | String a s' => p a && allb p s'
  end.

(** The longest prefix whose code units satisfy [p], and what follows it. *)
Fixpoint takeWhile (p : ascii -> bool) (s : string) : string :=
  match s with
  | EmptyString => s
  | String c s' => if p c then String c (takeWhile p s') else EmptyString
  end.

Fixpoint dropWhile (p : ascii -> bool) (s : string) : string :=
  match s with
  | EmptyString => s
  | String c s' => if p c then dropWhile p s' else s
  end.

(** [s] reversed, in front of [acc]. *)
Fixpoint rev (s acc : string) : string :=
  match s with
  | EmptyString => acc
  | String c s' => rev s' (String c acc)
  end.

Definition isEmpty (s : string) : bool :=
  match s with
  | EmptyString => true
  | String _ _ => false
  end.

End JSString.

Import JSString.

(** ** _filenameFromPath (lines 279-290) *)

Definition _filenameFromPath (path : string) (includeExtension : bool) : string :=
  let end_ :=
    if includeExtension then len path
    else
      let e := lastIndexOf path "." in
      if e =? -1 then len path else e in
  slice path (lastIndexOf path "/" + 1) end_.

(** [s.substring(start)] for an integer [start]: a negative start counts
    as 0, the end of the text is the limit. *)
Definition substringFrom (s : string) (start : Z) : string :=
  let from := Z.min (Z.max start 0) (len s) in
  String.substring (Z.to_nat from) (String.length s - Z.to_nat from) s.

(** fileNameFilter, the range filter of _filenameResultsFormatter
    (lines 593-600). *)
Definition fileNameFilter (includesLastSegment : bool) (rangeText : string) : string :=
  if includesLastSegment then
    let rightmostSlash := lastIndexOf rangeText "/" in
    substringFrom rangeText (rightmostSlash + 1)
  else "".

(** ** JavaScript numbers *)

Module JSNumber.

(** Finite values are rationals kept in lowest terms by [Qred]. *)
Inductive jsnum :=
| JNaN
| JInf (negative : bool)
| JFin (q : Q).

Definition of_Z (z : Z) : jsnum := JFin (inject_Z z).

(** The integer nearest to [p / q] for [q > 0]; of two that are equally
    near, the even one. *)
Definition roundHalfEven (p q : Z) : Z :=
  let f := p / q in
  match 2 * (p mod q) ?= q with
  | Lt => f
  | Gt => f + 1
  | Eq => if Z.even f then f else f + 1
  end.

(** The [e] with [2^e <= p / q < 2^(e+1)]. *)
Definition ilog2 (p q : positive) : Z :=
  let e := Z.log2 (Zpos p) - Z.log2 (Zpos q) in
  if (if 0 <=? e then Zpos q * 2 ^ e <=? Zpos p else Zpos q <=? Zpos p * 2 ^ (- e))
  then e else e - 1.

Definition signed (negative : bool) (z : Z) : Z := if negative then - z else z.

(** [p / q] rounded to a significand of 53 bits, or of fewer bits below
    2^-1022 (the unit in the last place is [2^u], at least 2^-1074); what
    reaches 2^1024 is an infinity. *)
Definition roundFinite (negative : bool) (p q : positive) : jsnum :=
  let u := Z.max (ilog2 p q - 52) (-1074) in
  if 0 <=? u then
    let m := roundHalfEven (Zpos p) (Zpos q * 2 ^ u) in
    if 2 ^ 1024 <=? m * 2 ^ u then JInf negative
    else JFin (inject_Z (signed negative (m * 2 ^ u)))
  else
    let m := roundHalfEven (Zpos p * 2 ^ (- u)) (Zpos q) in
    JFin (Qred (signed negative m # Z.to_pos (2 ^ (- u)))).

(** The Number value for a real number (ECMA-262, 6.1.6.1): the double
    nearest to it, ties to the even significand. *)
Definition toDouble (x : Q) : jsnum :=
  match Qnum x with
  | Z0 => JFin 0
  | Zpos p => roundFinite false p (Qden x)
  | Zneg p => roundFinite true p (Qden x)
  end.

(** [a - b] *)
Definition jsub (a b : jsnum) : jsnum :=
  match a, b with
  | JNaN, _ | _, JNaN => JNaN
  | JFin x, JFin y => toDouble (x - y)
  | JInf s, JFin _ => JInf s
  | JFin _, JInf s => JInf (negb s)
  | JInf s, JInf t => if Bool.eqb s t then JNaN else JInf s
  end.

Definition jneg (a : jsnum) : jsnum :=
  match a with
  | JNaN => JNaN
  | JInf s => JInf (negb s)
  | JFin x => JFin (Qred (- x))
  end.

(** ToBoolean on a number: NaN and 0 are falsy. *)
Definition truthy (a : jsnum) : bool :=
  match a with
  | JNaN => false
  | JInf _ => true
  | JFin x => negb (Qeq_bool x 0)
  end.

(** [a || 0] *)
Definition or0 (a : jsnum) : jsnum := if truthy a then a else of_Z 0.

(** [a <= b]; any comparison with NaN is false. *)
Definition jle (a b : jsnum) : bool :=
  match a, b with
  | JNaN, _ | _, JNaN => false
  | JFin x, JFin y => Qle_bool x y
  | JInf true, _ => true
  | _, JInf false => true
  | JInf false, _ => false
  | _, JInf true => false
  end.

(** [a >= b] *)
Definition jge (a b : jsnum) : bool := jle b a.

Definition code (c : ascii) : Z := Z.of_N (N_of_ascii c).

(** StrWhiteSpaceChar below 256: TAB, LF, VT, FF, CR, SP, NBSP. *)
Definition isWhiteSpace (c : ascii) : bool :=
  let n := code c in
  ((9 <=? n) && (n <=? 13)) || (n =? 32) || (n =? 160).

Definition decDigit (c : ascii) : option Z :=
  let n := code c in
  if (48 <=? n) && (n <=? 57) then Some (n - 48) else None.

Definition hexDigit (c : ascii) : option Z :=
  let n := code c in
  if (48 <=? n) && (n <=? 57) then Some (n - 48)
  else if (97 <=? n) && (n <=? 102) then Some (n - 87)
  else if (65 <=? n) && (n <=? 70) then Some (n - 55)
  else None.

Definition octDigit (c : ascii) : option Z :=
  let n := code c in
  if (48 <=? n) && (n <=? 55) then Some (n - 48) else None.

Definition binDigit (c : ascii) : option Z :=
  let n := code c in
  if (48 <=? n) && (n <=? 49) then Some (n - 48) else None.

(** Reads the longest prefix of digits: its value in base [b] on top of
    [acc], the number of digits read, and what follows. *)
Fixpoint readDigits (dv : ascii -> option Z) (b : Z) (s : string)
         (acc : Z) (cnt : nat) : Z * nat * string :=
  match s with
  | EmptyString => (acc, cnt, s)
  | String c s' =>
      match dv c with
      | Some d => readDigits dv b s' (acc * b + d) (S cnt)
      | None => (acc, cnt, s)
      end
  end.

Definition trim (s : string) : string :=
  rev (dropWhile isWhiteSpace (rev (dropWhile isWhiteSpace s) "")) "".

Definition isChar (n : Z) (c : ascii) : bool := code c =? n.

(** NonDecimalIntegerLiteral: 0x.., 0o.., 0b.. (no sign allowed).
    [None] when the text does not start like one. *)
Definition nonDecimal (s : string) : option jsnum :=
  match s with
  | String z (String x rest) =>
      if isChar 48 z then
        let lit dv b :=
          match readDigits dv b rest 0 O with
          | (v, S _, EmptyString) => Some (toDouble (inject_Z v))
          | _ => Some JNaN
          end in
        if isChar 120 x || isChar 88 x then lit hexDigit 16
        else if isChar 111 x || isChar 79 x then lit octDigit 8
        else if isChar 98 x || isChar 66 x then lit binDigit 2
        else None
      else None
  | _ => None
  end.

Definition pow10 (k : nat) : Q := inject_Z (10 ^ Z.of_nat k).

(** ExponentPart (optional) up to the end of the text, applied to [m];
    the mathematical value of the literal is rounded once, at the end. *)
Definition exponent (m : Q) (s : string) : jsnum :=
  match s with
  | EmptyString => toDouble m
  | String e r =>
      if isChar 101 e || isChar 69 e then
        let '(neg, r') :=
          match r with
          | String sg r1 =>
              if isChar 45 sg then (true, r1)
              else if isChar 43 sg then (false, r1)
              else (false, r)
          | EmptyString => (false, r)
          end in
        match readDigits decDigit 10 r' 0 O with
        | (k, S _, EmptyString) =>
            toDouble (if neg : bool then m / pow10 (Z.to_nat k)
                      else m * pow10 (Z.to_nat k))
        | _ => JNaN
        end
      else JNaN
  end.

(** StrUnsignedDecimalLiteral *)
Definition unsignedDecimal (s : string) : jsnum :=
  if String.eqb s "Infinity" then JInf false
  else
    let '(ip, n1, r1) := readDigits decDigit 10 s 0 O in
    match r1 with
    | String dot r2 =>
        if isChar 46 dot then
          let '(fp, n2, r3) := readDigits decDigit 10 r2 0 O in
          match n1, n2 with
          | O, O => JNaN
          | _, _ => exponent (inject_Z ip + inject_Z fp / pow10 n2) r3
          end
        else
          match n1 with
          | O => JNaN
          | S _ => exponent (inject_Z ip) r1
          end
    | EmptyString =>
        match n1 with
        | O => JNaN
        | S _ => exponent (inject_Z ip) r1
        end
    end.

(** StrDecimalLiteral: an optional sign, then an unsigned literal. *)
Definition signedDecimal (s : string) : jsnum :=
  match s with
  | String sg r =>
      if isChar 45 sg then jneg (unsignedDecimal r)
      else if isChar 43 sg then unsignedDecimal r
      else unsignedDecimal s
  | EmptyString => JNaN
  end.

(** ToNumber applied to a string (StringToNumber): white space is
    trimmed, the empty text is 0, anything outside the grammar is NaN. *)
Definition StringToNumber (s : string) : jsnum :=
  let t := trim s in
  match t with
  | EmptyString => of_Z 0
  | _ =>
      match nonDecimal t with
      | Some n => n
      | None => signedDecimal t
      end
  end.

(** ToNumber on a value that is a string or [undefined]. *)
Definition ToNumber (v : option string) : jsnum :=
  match v with
  | Some s => StringToNumber s
  | None => JNaN
  end.

(** The global [isNaN(v)]. *)
Definition isNaN (v : option string) : bool :=
  match ToNumber v with
  | JNaN => true
  | _ => false
  end.

(** ToBoolean on a value that is a string or [undefined]. *)
Definition truthyStr (v : option string) : bool :=
  match v with
  | Some EmptyString | None => false
  | Some _ => true
  end.

(** A decimal numeral: one or more digits 0-9; its value. *)
Definition isDigit (c : ascii) : bool := (48 <=? code c) && (code c <=? 57).

Definition isNumeral (s : string) : bool := negb (isEmpty s) && allb isDigit s.

Fixpoint numeralValue_from (acc : Z) (s : string) : Z :=
  match s with
  | EmptyString => acc
  | String c s' => numeralValue_from (10 * acc + (code c - 48)) s'
  end.

Definition numeralValue (s : string) : Z := numeralValue_from 0 s.

End JSNumber.

Import JSNumber.

(** ** Regular expressions: the fragment CURSOR_POS_EXP is written in *)

Module JSRegExp.

Inductive regex :=
| RChar (p : ascii -> bool)      (* one code unit: a literal, a class or [.] *)
| RPlus (p : ascii -> bool)      (* a class or [.] under a greedy [+] *)
| ROpt (r : regex)               (* [r?], greedy *)
| RSeq (r1 r2 : regex)
| RGroup (n : nat) (r : regex).  (* the n-th capturing group *)

(** Captured groups; a group that took no part in the match is absent. *)
Abbreviation captures := (gmap nat string).

(** What the matcher consumed between the text [s] and its tail [rest]. *)
Definition consumed (s rest : string) : string :=
  String.substring 0 (String.length s - String.length rest) s.

Section Match.
Context {R : Type}.

(** Greedy iteration: the longest run first, shorter ones on backtracking. *)
Fixpoint star (p : ascii -> bool) (s : string) (k : string -> option R) : option R :=
  match s with
  | String a s' =>
      if p a then
        match star p s' k with
        | Some x => Some x
        | None => k s
        end
      else k s
  | EmptyString => k s
  end.

Definition plus (p : ascii -> bool) (s : string) (k : string -> option R) : option R :=
  match s with
  | String a s' => if p a then star p s' k else None
  | EmptyString => None
  end.

(** Backtracking matcher in continuation-passing style: [k] is the rest
    of the pattern. *)
Fixpoint rmatch (r : regex) (s : string) (caps : captures)
         (k : string -> captures -> option R) : option R :=
  match r with
  | RChar p =>
      match s with
      | String a s' => if p a then k s' caps else None
      | EmptyString => None
      end
  | RPlus p => plus p s (fun s' => k s' caps)
  | ROpt r1 =>
      match rmatch r1 s caps k with
      | Some x => Some x
      | None => k s caps
      end
  | RSeq r1 r2 => rmatch r1 s caps (fun s1 c1 => rmatch r2 s1 c1 k)
  | RGroup n r1 =>
      rmatch r1 s caps (fun s' c' => k s' (<[n := consumed s s']> c'))
  end.
End Match.

(** The array [String.prototype.match] returns for a non-global pattern. *)
Record MatchResult := {
  mr_index : Z;            (* .index *)
  mr_text : string;        (* [0] *)
  mr_groups : captures     (* [1], [2], ... *)
}.

Definition group (m : MatchResult) (n : nat) : option string := mr_groups m !! n.

(** The leftmost start position at which the pattern matches. *)
Fixpoint exec_from (r : regex) (s : string) (i : Z) : option MatchResult :=
  match rmatch r s ∅ (fun rest caps => Some (rest, caps)) with
  | Some (rest, caps) =>
      Some {| mr_index := i; mr_text := consumed s rest; mr_groups := caps |}
  | None =>
      match s with
      | String _ s' => exec_from r s' (i + 1)
      | EmptyString => None
      end
  end.

(** [s.match(r)] *)
Definition String_match (s : string) (r : regex) : option MatchResult :=
  exec_from r s 0.

Definition isCode (n : Z) (c : ascii) : bool := code c =? n.

(** [.]: any code unit but a line terminator (LF, CR below 256). *)
Definition dot (c : ascii) : bool := negb (isCode 10 c || isCode 13 c).

End JSRegExp.

Import JSRegExp.

(** [s.replace(pat, rep)] for a string pattern: the first occurrence only.
    [rep] is taken literally; the code only ever passes the empty string. *)
Definition String_replace (s pat rep : string) : string :=
  let i := indexOf s pat in
  if i <? 0 then s
  else slice s 0 i ++ rep ++ slice s (i + len pat) (len s).

(** ** CURSOR_POS_EXP (line 92) and extractCursorPos (lines 302-318) *)

Definition isSep (c : ascii) : bool := isCode 44 c || isCode 58 c.   (* [,:] *)

(** [new RegExp(":([^,:]+)?([,:](.+)?)?")] *)
Definition CURSOR_POS_EXP : regex :=
  RSeq (RChar (isCode 58))
    (RSeq (ROpt (RGroup 1 (RPlus (fun c => negb (isSep c)))))
          (ROpt (RGroup 2 (RSeq (RChar isSep) (ROpt (RGroup 3 (RPlus dot))))))).

Record CursorPos := {
  cp_query : string;
  cp_local : bool;
  cp_line : jsnum;
  cp_ch : jsnum
}.

(** [query[0] === ":"] *)
Definition startsWithColon (query : string) : bool :=
  match query with
  | String c _ => isCode 58 c
  | EmptyString => false
  end.

Definition extractCursorPos (query : string) : option CursorPos :=
  match String_match query CURSOR_POS_EXP with
  | None => None
  | Some regInfo =>
      if (len query <=? 1)
         || (truthyStr (group regInfo 1) && isNaN (group regInfo 1))
         || (truthyStr (group regInfo 3) && isNaN (group regInfo 3))
      then None
      else Some {| cp_query := mr_text regInfo;
                   cp_local := startsWithColon query;
                   cp_line := or0 (jsub (ToNumber (group regInfo 1)) (of_Z 1));
                   cp_ch := or0 (jsub (ToNumber (group regInfo 3)) (of_Z 1)) |}
  end.

(** ** The objects the module works with *)

(** A [File] of the file system: [fullPath] and [name]. *)
Record File := {
  f_fullPath : string;
  f_name : string
}.

(** A CodeMirror position [{line, ch}]; [ch] may be left out. *)
Record Pos := {
  pos_line : jsnum;
  pos_ch : option jsnum
}.

Record Selection := {
  sel_start : Pos;
  sel_end : Pos
}.

(** The part of an [Editor] the module reads and writes. *)
Record Editor := {
  ed_selections : list Selection;   (* getSelections / setSelections *)
  ed_scrollPos : Z * Z;             (* getScrollPos / setScrollPos: {x, y} *)
  ed_firstVisibleLine : Z;          (* getFirstVisibleLine *)
  ed_lastVisibleLine : Z            (* getLastVisibleLine *)
}.

Definition setSelections (sels : list Selection) (e : Editor) : Editor :=
  {| ed_selections := sels; ed_scrollPos := ed_scrollPos e;
     ed_firstVisibleLine := ed_firstVisibleLine e;
     ed_lastVisibleLine := ed_lastVisibleLine e |}.

Definition setScrollPos (x y : Z) (e : Editor) : Editor :=
  {| ed_selections := ed_selections e; ed_scrollPos := (x, y);
     ed_firstVisibleLine := ed_firstVisibleLine e;
     ed_lastVisibleLine := ed_lastVisibleLine e |}.

(** [editor.setSelection(start, end, center)] *)
Definition setSelection (from to : Pos) (e : Editor) : Editor :=
  setSelections [ {| sel_start := from; sel_end := to |} ] e.

(** [editor.setCursorPos(line, ch, center)] *)
Definition setCursorPos (line ch : jsnum) (e : Editor) : Editor :=
  let p := {| pos_line := line; pos_ch := Some ch |} in
  setSelections [ {| sel_start := p; sel_end := p |} ] e.

Record Document := {
  doc_fullPath : string;      (* doc.file.fullPath *)
  doc_languageId : string     (* doc.getLanguage().getId() *)
}.

(** Options of a [StringMatch.StringMatcher]. *)
Record MatcherOptions := {
  preferPrefixMatches : bool;
  segmentedSearch : bool
}.

(** A [StringMatcher] object: its identity and the options it was built with. *)
Record StringMatcher := {
  sm_ref : nat;
  sm_options : option MatcherOptions
}.

(** What [this._matchers[name]] can evaluate to: a matcher the dialog stored,
    or a property inherited from [Object.prototype] (the cache is a plain
    object literal). *)
Inductive MatcherVal :=
| MStringMatcher (m : StringMatcher)
| MInherited (prop : string).

(** A [StringMatch.SearchResult], with the fields _doSearchFileList adds. *)
Record SearchResult := {
  sr_label : string;
  sr_matchGoodness : Z;
  sr_stringRanges : list (string * bool * bool);
  sr_fullPath : option string;
  sr_filenameWithoutExtension : option string
}.

(** What a search hands to the QuickSearchField: an array, the deferred that
    searchFileList creates, or a promise of a plug-in's own. *)
Inductive SearchOutput :=
| OutArray (l : list SearchResult)
| OutDeferred (p : nat)
| OutForeign (tag : nat).

(** What _filterCallback returns. *)
Inductive FilterResult :=
| FRNoError                      (* { error: null } *)
| FROut (o : SearchOutput).

(** ** The host: everything outside the module that changes over time *)

(** The documents and the editor shown to the user.  Plug-in callbacks act
    on this part only. *)
Record View := {
  currentDocument : option Document;     (* DocumentManager.getCurrentDocument() *)
  currentFullEditor : option Editor      (* EditorManager.getCurrentFullEditor() *)
}.

(** QuickOpenPlugin (lines 139-150).  The callbacks are the plug-in's own
    code: [match_] and [search] are functions of their arguments, the others
    act on the view. *)
Record QuickOpenPlugin := {
  name : string;
  languageIds : list string;
  done : option (View -> View);
  search : string -> MatcherVal -> SearchOutput;
  match_ : string -> bool;
  itemFocus : option (option SearchResult -> string -> bool -> View -> View);
  itemSelect : option SearchResult -> string -> View -> View;
  resultsFormatter : option (SearchResult -> string -> string);
  matcherOptions : option MatcherOptions;
  label : option string
}.

(** An entry of the provider registry. *)
Record ProviderEntry := {
  provider : QuickOpenPlugin;
  priority : Z
}.

(** How a promise was settled. *)
Inductive PValue :=
| VUndefined
| VFiles (files : list File)
| VResults (l : list SearchResult)
| VDocument (doc : Document).

Inductive Settled :=
| Resolved (v : PValue)
| Rejected (err : string).

Record Host := {
  view : View;
  (* _providerRegistrationHandler.getProvidersForLanguageId(languageId) *)
  getProvidersForLanguageId : option string -> list ProviderEntry;
  (* ProjectManager.makeProjectRelativeIfPossible *)
  makeProjectRelativeIfPossible : string -> string;
  (* how ProjectManager.getAllFiles would answer now: with a promise that
     is already settled, or with a pending one *)
  allFilesNow : option Settled;
  (* the same for DocumentManager.getDocumentForPath *)
  documentNow : string -> option Settled;
  (* CommandManager.execute(Commands.CMD_ADD_TO_WORKINGSET_AND_OPEN,
     {fullPath}) called on a view: the view when the call returns, and how
     the promise it returns is settled by then, if it is *)
  executeOpen : string -> View -> View * option Settled
}.

Definition with_view (v : View) (h : Host) : Host :=
  {| view := v;
     getProvidersForLanguageId := getProvidersForLanguageId h;
     makeProjectRelativeIfPossible := makeProjectRelativeIfPossible h;
     allFilesNow := allFilesNow h;
     documentNow := documentNow h;
     executeOpen := executeOpen h |}.

Definition with_editor (e : Editor) (v : View) : View :=
  {| currentDocument := currentDocument v; currentFullEditor := Some e |}.

(** Constants and pure functions of the modules QuickOpen.js requires. *)
Class Env := {
  (* strings *)
  CMD_GOTO_LINE : string;
  CMD_GOTO_DEFINITION : string;
  CMD_GOTO_DEFINITION_PROJECT : string;
  (* command/Commands *)
  NAVIGATE_GOTO_DEFINITION : string;
  NAVIGATE_GOTO_DEFINITION_PROJECT : string;
  CMD_ADD_TO_WORKINGSET_AND_OPEN : string;
  (* widgets/ModalBar *)
  CLOSE_ESCAPE : string;
  CLOSE_API : string;
  (* filesystem/FileSystemError *)
  UNSUPPORTED_ENCODING : string;
  (* utils/StringMatch: matcher.match(str, query) and multiFieldSort *)
  StringMatcher_match : StringMatcher -> string -> string -> option SearchResult;
  multiFieldSort : list SearchResult -> list (string * Z) -> list SearchResult;
  (* language/LanguageManager: getLanguageForPath(path).getId() / .isBinary() *)
  languageIdForPath : string -> string;
  isBinaryPath : string -> bool;
  (* view/MainViewFactory *)
  findSuitableFactoryForPath : string -> bool
}.

(** ** The module's state *)

Inductive CbKind := OnDone | OnFail | OnAlways.

(** The closures the module attaches to promises. *)
Inductive Callback :=
| CbFilesLoaded (d : nat)                  (* showDialog, lines 736-741 *)
| CbSearchFileList (asyncResult : nat) (query : string) (matcher : StringMatcher)
                                           (* searchFileList, lines 469-472 *)
| CbCreateDialog (prefix initialString : option string)
                                           (* beginSearch, lines 760-763 *)
| CbSetCursorPos (cursorPos : option CursorPos)
                                           (* _handleItemSelect, lines 351-356 *)
| CbClose (d : nat)                        (* _handleItemSelect, lines 357-361 *)
| CbNewDoc                                 (* currentFileChange, lines 859-864 *)
| CbLogError                               (* currentFileChange, lines 865-867 *)
| CbOldDoc                                 (* currentFileChange, lines 875-876 *)
| CbLogErrorUnlessEncoding.                (* currentFileChange, lines 877-881 *)

(** Who settles a promise: the host, or the module's own [$.Deferred]. *)
Inductive Owner := ByHost | ByModule.

Record Promise := {
  p_owner : Owner;
  p_settled : option Settled;
  p_callbacks : list (CbKind * Callback)
}.

(** A QuickNavigateDialog (lines 201-277).  [searchField] tells whether
    showDialog has got as far as creating the modal bar and the search field
    (this.modalBar, this.$searchField and this.searchField, lines 709-716);
    until then these properties are undefined. *)
Record Dialog := {
  isOpen : bool;
  closePromise : option nat;
  _origDocPath : option string;
  _origSelections : option (list Selection);
  _origScrollPos : option (Z * Z);
  _filenameMatcher : StringMatcher;
  _matchers : gmap string MatcherVal;
  searchField : bool
}.

(** Calls into the host that the model records rather than interprets. *)
Inductive HostCall :=
| ConsoleError (err : string)
| ConsoleAssert
| NewStringMatcher (m : StringMatcher)
| MatcherReset (m : StringMatcher)
| ModalBarNew (d : nat)
| ModalBarClose (d : nat)
| ModalBarPrepareClose (d : nat)
| SearchFieldNew (d : nat)
| SearchFieldDestroy (d : nat)
| SearchFieldFocus (d : nat)
| SearchFieldSetText (d : nat) (text : string)
| SetSelectionRange (d : nat) (from to : Z)
| SetDialogLabel (d : nat) (text : string)
| HideIndexingSpinner (d : nat)
| GetAllFiles (p : nat)
| GetDocumentForPath (path : string) (p : nat)
| CommandExecute (cmd fullPath : string) (p : nat)
| SetEnabled (cmd : string) (enabled : bool)
| FocusActivePane
| DocOff (path : string)
| DocOn (path : string)
| RegisterProvider (plugin : QuickOpenPlugin) (languageIds : list string) (priority : Z).

Record State := {
  currentPlugin : option QuickOpenPlugin;
  fileList : option (list File);
  fileListPromise : option nat;
  _curDialog : option nat;
  dialogs : list Dialog;        (* the QuickNavigateDialog objects created so far *)
  promises : list Promise;      (* the promise objects created so far *)
  nextMatcher : nat;            (* the StringMatcher objects created so far *)
  host : Host;
  calls : list HostCall
}.

Definition with_currentPlugin (v : option QuickOpenPlugin) (s : State) : State :=
  {| currentPlugin := v; fileList := fileList s; fileListPromise := fileListPromise s;
     _curDialog := _curDialog s; dialogs := dialogs s; promises := promises s;
     nextMatcher := nextMatcher s; host := host s; calls := calls s |}.

Definition with_fileList (v : option (list File)) (s : State) : State :=
  {| currentPlugin := currentPlugin s; fileList := v; fileListPromise := fileListPromise s;
     _curDialog := _curDialog s; dialogs := dialogs s; promises := promises s;
     nextMatcher := nextMatcher s; host := host s; calls := calls s |}.

Definition with_fileListPromise (v : option nat) (s : State) : State :=
  {| currentPlugin := currentPlugin s; fileList := fileList s; fileListPromise := v;
     _curDialog := _curDialog s; dialogs := dialogs s; promises := promises s;
     nextMatcher := nextMatcher s; host := host s; calls := calls s |}.

Definition with_curDialog (v : option nat) (s : State) : State :=
  {| currentPlugin := currentPlugin s; fileList := fileList s;
     fileListPromise := fileListPromise s;
     _curDialog := v; dialogs := dialogs s; promises := promises s;
     nextMatcher := nextMatcher s; host := host s; calls := calls s |}.

Definition with_dialogs (v : list Dialog) (s : State) : State :=
  {| currentPlugin := currentPlugin s; fileList := fileList s;
     fileListPromise := fileListPromise s;
     _curDialog := _curDialog s; dialogs := v; promises := promises s;
     nextMatcher := nextMatcher s; host := host s; calls := calls s |}.

Definition with_promises (v : list Promise) (s : State) : State :=
  {| currentPlugin := currentPlugin s; fileList := fileList s;
     fileListPromise := fileListPromise s;
     _curDialog := _curDialog s; dialogs := dialogs s; promises := v;
     nextMatcher := nextMatcher s; host := host s; calls := calls s |}.

Definition with_nextMatcher (v : nat) (s : State) : State :=
  {| currentPlugin := currentPlugin s; fileList := fileList s;
     fileListPromise := fileListPromise s;
     _curDialog := _curDialog s; dialogs := dialogs s; promises := promises s;
     nextMatcher := v; host := host s; calls := calls s |}.

Definition with_host (v : Host) (s : State) : State :=
  {| currentPlugin := currentPlugin s; fileList := fileList s;
     fileListPromise := fileListPromise s;
     _curDialog := _curDialog s; dialogs := dialogs s; promises := promises s;
     nextMatcher := nextMatcher s; host := v; calls := calls s |}.

Definition with_calls (v : list HostCall) (s : State) : State :=
  {| currentPlugin := currentPlugin s; fileList := fileList s;
     fileListPromise := fileListPromise s;
     _curDialog := _curDialog s; dialogs := dialogs s; promises := promises s;
     nextMatcher := nextMatcher s; host := host s; calls := v |}.

(** ** State and exceptions *)

Inductive Result (A : Type) :=
| Ok (a : A)
| Throw (e : string).

Arguments Ok {A} a.
Arguments Throw {A} e.

(** A computation runs on the state and returns or throws; what it did to
    the state before throwing stays done. *)
Definition M (A : Type) : Type := State -> Result A * State.

#[global] Instance M_ret : MRet M := fun A a s => (Ok a, s).

#[global] Instance M_bind : MBind M := fun A B k m s =>
  match m s with
  | (Ok a, s') => k a s'
  | (Throw e, s') => (Throw e, s')
  end.

Definition throw {A : Type} (e : string) : M A := fun s => (Throw e, s).

Definition gets {A : Type} (f : State -> A) : M A := fun s => (Ok (f s), s).

Definition modify (f : State -> State) : M unit := fun s => (Ok tt, f s).

(** Reading a property of [null] or [undefined], or calling what is not a
    function. *)
Definition TypeError : string := "TypeError".

Definition call (c : HostCall) : M unit :=
  modify (fun s => with_calls (calls s ++ [c]) s).

Definition getDialog (d : nat) : M Dialog := fun s =>
  match dialogs s !! d with
  | Some g => (Ok g, s)
  | None => (Throw TypeError, s)
  end.

Definition updDialog (d : nat) (f : Dialog -> Dialog) : M unit :=
  modify (fun s => with_dialogs (alter f d (dialogs s)) s).

Definition updView (f : View -> View) : M unit :=
  modify (fun s => with_host (with_view (f (view (host s))) (host s)) s).

Definition set_isOpen (b : bool) (g : Dialog) : Dialog :=
  {| isOpen := b; closePromise := closePromise g; _origDocPath := _origDocPath g;
     _origSelections := _origSelections g; _origScrollPos := _origScrollPos g;
     _filenameMatcher := _filenameMatcher g; _matchers := _matchers g;
     searchField := searchField g |}.

Definition set_closePromise (p : option nat) (g : Dialog) : Dialog :=
  {| isOpen := isOpen g; closePromise := p; _origDocPath := _origDocPath g;
     _origSelections := _origSelections g; _origScrollPos := _origScrollPos g;
     _filenameMatcher := _filenameMatcher g; _matchers := _matchers g;
     searchField := searchField g |}.

Definition set_origDocPath (v : option string) (g : Dialog) : Dialog :=
  {| isOpen := isOpen g; closePromise := closePromise g; _origDocPath := v;
     _origSelections := _origSelections g; _origScrollPos := _origScrollPos g;
     _filenameMatcher := _filenameMatcher g; _matchers := _matchers g;
     searchField := searchField g |}.

Definition set_origSelections (v : option (list Selection)) (g : Dialog) : Dialog :=
  {| isOpen := isOpen g; closePromise := closePromise g; _origDocPath := _origDocPath g;
     _origSelections := v; _origScrollPos := _origScrollPos g;
     _filenameMatcher := _filenameMatcher g; _matchers := _matchers g;
     searchField := searchField g |}.

Definition set_origScrollPos (v : option (Z * Z)) (g : Dialog) : Dialog :=
  {| isOpen := isOpen g; closePromise := closePromise g; _origDocPath := _origDocPath g;
     _origSelections := _origSelections g; _origScrollPos := v;
     _filenameMatcher := _filenameMatcher g; _matchers := _matchers g;
     searchField := searchField g |}.

Definition set_matchers (v : gmap string MatcherVal) (g : Dialog) : Dialog :=
  {| isOpen := isOpen g; closePromise := closePromise g; _origDocPath := _origDocPath g;
     _origSelections := _origSelections g; _origScrollPos := _origScrollPos g;
     _filenameMatcher := _filenameMatcher g; _matchers := v;
     searchField := searchField g |}.

Definition set_searchField (b : bool) (g : Dialog) : Dialog :=
  {| isOpen := isOpen g; closePromise := closePromise g; _origDocPath := _origDocPath g;
     _origSelections := _origSelections g; _origScrollPos := _origScrollPos g;
     _filenameMatcher := _filenameMatcher g; _matchers := _matchers g;
     searchField := b |}.

(** *** Promises ($.Deferred) *)

Definition newPromise (o : Owner) (st : option Settled) : M nat := fun s =>
  (Ok (length (promises s)),
   with_promises
     (promises s ++ [ {| p_owner := o; p_settled := st; p_callbacks := [] |} ]) s).

Definition getPromise (p : nat) : M Promise := fun s =>
  match promises s !! p with
  | Some pr => (Ok pr, s)
  | None => (Throw TypeError, s)
  end.

(** Does a callback of this kind run on this outcome? *)
Definition fires (k : CbKind) (st : Settled) : bool :=
  match k, st with
  | OnDone, Resolved _ => true
  | OnFail, Rejected _ => true
  | OnAlways, _ => true
  | _, _ => false
  end.

Definition add_callback (k : CbKind) (cb : Callback) (pr : Promise) : Promise :=
  {| p_owner := p_owner pr; p_settled := p_settled pr;
     p_callbacks := p_callbacks pr ++ [(k, cb)] |}.

Definition set_settled (st : Settled) (pr : Promise) : Promise :=
  {| p_owner := p_owner pr; p_settled := Some st; p_callbacks := [] |}.

(** [promise.done(cb)], [.fail(cb)], [.always(cb)]: on a settled promise the
    callback runs at once (if its kind fires), on a pending one it is queued.
    [run] is what the closure [cb] does. *)
Definition subscribe (k : CbKind) (p : nat) (cb : Callback)
           (run : Settled -> M unit) : M unit :=
  pr ← getPromise p;
  match p_settled pr with
  | Some st => if fires k st then run st else mret tt
  | None => modify (fun s => with_promises (alter (add_callback k cb) p (promises s)) s)
  end.

(** [deferred.resolve(v)]: no effect once settled. *)
Definition resolve (p : nat) (v : PValue) : M unit :=
  pr ← getPromise p;
  match p_settled pr with
  | Some _ => mret tt
  | None =>
      modify (fun s => with_promises (alter (set_settled (Resolved v)) p (promises s)) s)
  end.

(** ** The functions of QuickOpen.js *)

(** The properties every object literal inherits from [Object.prototype];
    each of them is an object or a function, hence truthy. *)
Definition ObjectPrototype : list string :=
  [ "constructor"; "toString"; "toLocaleString"; "valueOf"; "hasOwnProperty";
    "isPrototypeOf"; "propertyIsEnumerable"; "__proto__";
    "__defineGetter__"; "__defineSetter__"; "__lookupGetter__"; "__lookupSetter__" ].

(** [this._matchers[key]]: an own property, else an inherited one, else
    [undefined]. *)
Definition matchers_get (m : gmap string MatcherVal) (key : string) : option MatcherVal :=
  match m !! key with
  | Some v => Some v
  | None => if bool_decide (key ∈ ObjectPrototype) then Some (MInherited key) else None
  end.

(** ToBoolean on a value that is a string, [null] or [undefined]. *)
Definition nonEmpty (v : option string) : bool := truthyStr v.

(** [$.map(array, callback)]: the results that are neither [null] nor
    [undefined], in order.  On [null] and [undefined] the model gives the
    empty array, as jQuery does from 2.2 on (jQuery 2.1 reads [.length] of
    the argument and throws); the module only gets there when a closure of
    searchFileList runs while fileList is null. *)
Definition jQuery_map {A B : Type} (l : option (list A)) (f : A -> option B) : list B :=
  omap f (default [] l).

Section QuickOpen.

Context `{Env}.

(** *** _getPluginsForCurrentContext (lines 125-134) *)
Definition _getPluginsForCurrentContext : M (list ProviderEntry) :=
  gets (fun s =>
    match currentDocument (view (host s)) with
    | Some curDoc => getProvidersForLanguageId (host s) (Some (doc_languageId curDoc))
    | None => getProvidersForLanguageId (host s) None
    end).

(** *** addQuickOpenPlugin (lines 177-194) *)
Definition addQuickOpenPlugin (pluginDef : QuickOpenPlugin) (pluginPriority : option Z) : M unit :=
  let providerLanguageIds :=
    match languageIds pluginDef with
    | [] => ["all"]
    | l => l
    end in
  let providerPriority := default 0 pluginPriority in
  call (RegisterProvider pluginDef providerLanguageIds providerPriority).

(** [new StringMatch.StringMatcher(options)] *)
Definition newStringMatcher (options : option MatcherOptions) : M StringMatcher := fun s =>
  let m := {| sm_ref := nextMatcher s; sm_options := options |} in
  (Ok m, with_calls (calls s ++ [NewStringMatcher m])
           (with_nextMatcher (S (nextMatcher s)) s)).

(** *** The constructor QuickNavigateDialog (lines 201-218); the other
    fields start with the values of the prototype (lines 226-277). *)
Definition allocDialog (g : Dialog) : M nat := fun s =>
  (Ok (length (dialogs s)), with_dialogs (dialogs s ++ [g]) s).

Definition QuickNavigateDialog : M nat :=
  fm ← newStringMatcher (Some {| preferPrefixMatches := false; segmentedSearch := true |});
  allocDialog {| isOpen := false; closePromise := None; _origDocPath := None;
                 _origSelections := None; _origScrollPos := None;
                 _filenameMatcher := fm; _matchers := ∅; searchField := false |}.

(** *** _doSearchFileList (lines 433-463) *)
Definition strippedQuery (query : string) : string :=
  match extractCursorPos query with
  | Some cursorPos =>
      if negb (cp_local cursorPos) && negb (String.eqb (cp_query cursorPos) "")
      then String_replace query (cp_query cursorPos) ""
      else query
  | None => query
  end.

Definition fieldSpec : list (string * Z) :=
  [ ("matchGoodness", 0); ("filenameWithoutExtension", 1); ("label", 2); ("fullPath", 3) ].

Definition _doSearchFileList (s : State) (query : string) (matcher : StringMatcher)
  : list SearchResult :=
  let query := strippedQuery query in
  let filteredList :=
    jQuery_map (fileList s) (fun fileInfo =>
      match StringMatcher_match matcher
              (makeProjectRelativeIfPossible (host s) (f_fullPath fileInfo)) query with
      | Some searchResult =>
          Some {| sr_label := f_name fileInfo;
                  sr_matchGoodness := sr_matchGoodness searchResult;
                  sr_stringRanges := sr_stringRanges searchResult;
                  sr_fullPath := Some (f_fullPath fileInfo);
                  sr_filenameWithoutExtension :=
                    Some (_filenameFromPath (f_name fileInfo) false) |}
      | None => None
      end) in
  multiFieldSort filteredList fieldSpec.

(** The closure of lines 469-472. *)
Definition run_searchFileList (asyncResult : nat) (query : string)
           (matcher : StringMatcher) (_ : Settled) : M unit :=
  r ← gets (fun s => _doSearchFileList s query matcher);
  resolve asyncResult (VResults r).

(** *** searchFileList (lines 465-478) *)
Definition searchFileList (query : string) (matcher : StringMatcher) : M SearchOutput :=
  fl ← gets fileList;
  match fl with
  | None =>
      asyncResult ← newPromise ByModule None;
      flp ← gets fileListPromise;
      match flp with
      | None => throw TypeError
      | Some flp =>
          subscribe OnDone flp (CbSearchFileList asyncResult query matcher)
                    (run_searchFileList asyncResult query matcher);;
          mret (OutDeferred asyncResult)
      end
  | Some _ =>
      r ← gets (fun s => _doSearchFileList s query matcher);
      mret (OutArray r)
  end.

(** *** _updateDialogLabel (lines 651-675) *)
Definition prefixLabel (query : string) : string :=
  match query with
  | String c _ =>
      if isCode 58 c then CMD_GOTO_LINE ++ "…"
      else if isCode 64 c then CMD_GOTO_DEFINITION ++ "…"
      else if isCode 35 c then CMD_GOTO_DEFINITION_PROJECT ++ "…"
      else ""
  | EmptyString => ""
  end.

Definition _updateDialogLabel (d : nat) (plugin : option QuickOpenPlugin)
           (query : string) : M unit :=
  let dialogLabel :=
    match plugin with
    | Some pl =>
        if nonEmpty (label pl) then default "" (label pl) else prefixLabel query
    | None => prefixLabel query
    end in
  call (SetDialogLabel d dialogLabel).

(** The loop of lines 513-527 from index [i] on; [None] when it runs to
    the end without a [return]. *)
Fixpoint pluginLoop (d : nat) (query : string) (plugins : list ProviderEntry)
  : M (option FilterResult) :=
  match plugins with
  | [] => mret None
  | entry :: rest =>
      let plugin := provider entry in
      if match_ plugin query then
        modify (with_currentPlugin (Some plugin));;
        dlg ← getDialog d;
        matcher ←
          match matchers_get (_matchers dlg) (name plugin) with
          | Some m => mret m
          | None =>
              m ← newStringMatcher (matcherOptions plugin);
              updDialog d (fun g =>
                set_matchers (<[name plugin := MStringMatcher m]> (_matchers g)) g);;
              mret (MStringMatcher m)
          end;
        _updateDialogLabel d (Some plugin) query;;
        mret (Some (FROut (search plugin query matcher)))
      else pluginLoop d query rest
  end.

(** *** QuickNavigateDialog.prototype._filterCallback (lines 486-534) *)
Definition goToLine (query : string) : option CursorPos :=
  match extractCursorPos query with
  | Some cursorPos => if cp_local cursorPos then Some cursorPos else None
  | None => None
  end.

Definition lineVisible (cursorPos : CursorPos) (editor : Editor) : bool :=
  jge (cp_line cursorPos) (of_Z (ed_firstVisibleLine editor))
  && jle (cp_line cursorPos) (of_Z (ed_lastVisibleLine editor)).

Definition _filterCallback (d : nat) (query : string) : M FilterResult :=
  modify (with_currentPlugin None);;
  match goToLine query with
  | Some cursorPos =>
      editor ← gets (fun s => currentFullEditor (view (host s)));
      match editor with
      | Some ed =>
          if lineVisible cursorPos ed then
            let from := {| pos_line := cp_line cursorPos;
                           pos_ch := Some (cp_ch cursorPos) |} in
            let to := {| pos_line := cp_line cursorPos; pos_ch := None |} in
            updView (with_editor (setSelection from to ed));;
            mret FRNoError
          else mret (FROut (OutArray []))
      | None => mret (FROut (OutArray []))
      end
  | None =>
      if String.eqb query ":" then mret FRNoError
      else
        plugins ← _getPluginsForCurrentContext;
        r ← pluginLoop d query plugins;
        match r with
        | Some res => mret res
        | None =>
            _updateDialogLabel d None query;;
            dlg ← getDialog d;
            out ← searchFileList query (_filenameMatcher dlg);
            mret (FROut out)
        end
  end.

(** A method call on the object [EditorManager.getCurrentFullEditor()]
    returned: it throws when there is no editor. *)
Definition onEditor (f : Editor -> Editor) : M unit :=
  editor ← gets (fun s => currentFullEditor (view (host s)));
  match editor with
  | Some ed => updView (with_editor (f ed))
  | None => throw TypeError
  end.

(** The loop of lines 407-412. *)
Fixpoint doneLoop (plugins : list ProviderEntry) : M unit :=
  match plugins with
  | [] => mret tt
  | entry :: rest =>
      match done (provider entry) with
      | Some pluginDone => updView pluginDone
      | None => mret tt
      end;;
      doneLoop rest
  end.

(** *** QuickNavigateDialog.prototype._handleCloseBar (lines 400-430), the
    listener showDialog puts on the "close" event of the modal bar; the
    search field it destroys is created right after that bar. *)
Definition _handleCloseBar (d : nat) (reason : string) (modalBarClosePromise : nat)
  : M unit :=
  dlg ← getDialog d;
  match closePromise dlg with
  | Some _ => call ConsoleAssert
  | None => mret tt
  end;;
  updDialog d (set_closePromise (Some modalBarClosePromise));;
  updDialog d (set_isOpen false);;
  plugins ← _getPluginsForCurrentContext;
  doneLoop plugins;;
  call (SearchFieldDestroy d);;
  if String.eqb reason CLOSE_ESCAPE then
    editor ← gets (fun s => currentFullEditor (view (host s)));
    match editor, _origSelections dlg with
    | Some _, Some sels => onEditor (setSelections sels)
    | _, _ => mret tt
    end;;
    match editor, _origScrollPos dlg with
    | Some _, Some (x, y) => onEditor (setScrollPos x y)
    | _, _ => mret tt
    end
  else mret tt.

(** [this.modalBar.close()].  widgets/ModalBar is not part of this file;
    what is taken of it is what line 395 says ("triggers _handleCloseBar(),
    setting closePromise"): the bar fires its "close" event at once, with
    reason CLOSE_API and the promise of its closing animation.  close()
    gets here on an open dialog only, and is called on one by
    _handleItemSelect and by the closure that handler leaves on the promise
    of the command, that is, from a callback of the search field. *)
Definition modalBar_close (d : nat) : M unit :=
  call (ModalBarClose d);;
  p ← newPromise ByHost None;
  _handleCloseBar d CLOSE_API p.

(** *** QuickNavigateDialog.prototype.close (lines 390-398) *)
Definition close (d : nat) : M (option nat) :=
  dlg ← getDialog d;
  if negb (isOpen dlg) then mret (closePromise dlg)
  else
    modalBar_close d;;
    dlg' ← getDialog d;
    mret (closePromise dlg').

(** *** QuickNavigateDialog.prototype.setSearchFieldValue (lines 634-643);
    [this.searchField.setText] is a property read on [undefined] when
    showDialog has not created the field. *)
Definition setSearchFieldValue (d : nat) (prefix initialString : option string)
  : M unit :=
  let prefix := if nonEmpty prefix then default "" prefix else "" in
  let initialString := if nonEmpty initialString then default "" initialString else "" in
  let initialString := prefix ++ initialString in
  dlg ← getDialog d;
  if searchField dlg then
    call (SearchFieldSetText d initialString);;
    call (SetSelectionRange d (len prefix) (len initialString))
  else throw TypeError.

(** The filter showDialog passes to getAllFiles (lines 727-730). *)
Definition _filter (file : File) : bool :=
  negb (isBinaryPath (f_fullPath file)) || findSuitableFactoryForPath (f_fullPath file).

(** The closure of lines 736-741. *)
Definition run_filesLoaded (d : nat) (st : Settled) : M unit :=
  call (HideIndexingSpinner d);;
  modify (with_fileList
            match st with
            | Resolved (VFiles files) => Some files
            | _ => None
            end);;
  modify (with_fileListPromise None);;
  dlg ← getDialog d;
  call (MatcherReset (_filenameMatcher dlg)).

(** [ProjectManager.getAllFiles(_filter, true)] *)
Definition getAllFiles : M nat :=
  now ← gets (fun s => allFilesNow (host s));
  p ← newPromise ByHost now;
  call (GetAllFiles p);;
  mret p.

(** *** QuickNavigateDialog.prototype.showDialog (lines 681-746) *)
Definition showDialog (d : nat) (prefix initialString : option string) : M unit :=
  dlg ← getDialog d;
  if isOpen dlg then mret tt
  else
    updDialog d (set_isOpen true);;
    curDoc ← gets (fun s => currentDocument (view (host s)));
    updDialog d (set_origDocPath (doc_fullPath <$> curDoc));;
    match curDoc with
    | Some _ =>
        editor ← gets (fun s => currentFullEditor (view (host s)));
        match editor with
        | Some ed =>
            updDialog d (set_origSelections (Some (ed_selections ed)));;
            updDialog d (set_origScrollPos (Some (ed_scrollPos ed)))
        | None => throw TypeError
        end
    | None =>
        updDialog d (set_origSelections None);;
        updDialog d (set_origScrollPos None)
    end;;
    call (ModalBarNew d);;
    call (SearchFieldNew d);;
    updDialog d (set_searchField true);;
    p ← getAllFiles;
    subscribe OnDone p (CbFilesLoaded d) (run_filesLoaded d);;
    modify (with_fileListPromise (Some p));;
    call (SearchFieldFocus d);;
    setSearchFieldValue d prefix initialString.

(** *** beginSearch (lines 759-779) *)
Definition createDialog (prefix initialString : option string) : M unit :=
  d ← QuickNavigateDialog;
  modify (with_curDialog (Some d));;
  showDialog d prefix initialString.

Definition beginSearch (prefix initialString : option string) : M unit :=
  cur ← gets _curDialog;
  match cur with
  | Some d =>
      dlg ← getDialog d;
      if isOpen dlg then setSearchFieldValue d prefix initialString
      else
        p ← close d;
        match p with
        | Some p =>
            subscribe OnDone p (CbCreateDialog prefix initialString)
                      (fun _ => createDialog prefix initialString)
        | None => throw TypeError
        end
  | None => createDialog prefix initialString
  end.

(** *** getCurrentEditorSelectedText (lines 748-751); [activeEditor] is
    what getSelectedText() of EditorManager.getActiveEditor() returns, when
    there is an active editor. *)
Definition getCurrentEditorSelectedText (activeEditor : option string) : string :=
  if nonEmpty activeEditor then default "" activeEditor else "".

(** *** doFileSearch, doGotoLine, doDefinitionSearch and
    doDefinitionSearchInProject (lines 781-803) *)
Definition doFileSearch (activeEditor : option string) : M unit :=
  beginSearch (Some "") (Some (getCurrentEditorSelectedText activeEditor)).

Definition doGotoLine : M unit :=
  curDoc ← gets (fun s => currentDocument (view (host s)));
  match curDoc with
  | Some _ => beginSearch (Some ":") (Some "")
  | None => mret tt
  end.

Definition doDefinitionSearch (activeEditor : option string) : M unit :=
  curDoc ← gets (fun s => currentDocument (view (host s)));
  match curDoc with
  | Some _ => beginSearch (Some "@") (Some (getCurrentEditorSelectedText activeEditor))
  | None => mret tt
  end.

Definition doDefinitionSearchInProject (activeEditor : option string) : M unit :=
  curDoc ← gets (fun s => currentDocument (view (host s)));
  match curDoc with
  | Some _ => beginSearch (Some "#") (Some (getCurrentEditorSelectedText activeEditor))
  | None => mret tt
  end.

(** The closures of lines 351-361. *)
Definition run_setCursorPos (cursorPos : option CursorPos) (_ : Settled) : M unit :=
  match cursorPos with
  | Some c => onEditor (setCursorPos (cp_line c) (cp_ch c))
  | None => mret tt
  end.

Definition run_close (d : nat) (_ : Settled) : M unit :=
  close d;; mret tt.

(** [CommandManager.execute(Commands.CMD_ADD_TO_WORKINGSET_AND_OPEN,
    { fullPath: fullPath })]: the command acts on the view and returns a
    promise, pending or settled. *)
Definition execute_addToWorkingSetAndOpen (fullPath : string) : M nat :=
  answer ← gets (fun s => executeOpen (host s) fullPath (view (host s)));
  updView (fun _ => answer.1);;
  p ← newPromise ByHost answer.2;
  call (CommandExecute CMD_ADD_TO_WORKINGSET_AND_OPEN fullPath p);;
  mret p.

(** *** QuickNavigateDialog.prototype._handleItemSelect (lines 329-371), the
    onCommit callback of the search field *)
Definition _handleItemSelect (d : nat) (selectedItem : option SearchResult)
           (query : string) : M unit :=
  cp ← gets currentPlugin;
  doClose ←
    match cp with
    | Some plugin => updView (itemSelect plugin selectedItem query);; mret true
    | None =>
        let cursorPos := extractCursorPos query in
        let fullPath := selectedItem ≫= sr_fullPath in
        if nonEmpty fullPath then
          call (ModalBarPrepareClose d);;
          p ← execute_addToWorkingSetAndOpen (default "" fullPath);
          subscribe OnDone p (CbSetCursorPos cursorPos) (run_setCursorPos cursorPos);;
          subscribe OnAlways p (CbClose d) (run_close d);;
          mret false
        else
          match cursorPos with
          | Some c => onEditor (setCursorPos (cp_line c) (cp_ch c));; mret true
          | None => mret true
          end
    end;
  if doClose : bool then close d;; call FocusActivePane else mret tt.

(** *** QuickNavigateDialog.prototype._handleItemHighlight (lines 378-382),
    the onHighlight callback of the search field *)
Definition _handleItemHighlight (selectedItem : option SearchResult) (query : string)
           (explicit : bool) : M unit :=
  cp ← gets currentPlugin;
  match cp ≫= itemFocus with
  | Some focus => updView (focus selectedItem query explicit)
  | None => mret tt
  end.

(** *** _canHandleTrigger, _setMenuItemStateForLanguage (lines 805-832) *)
Definition _canHandleTrigger (trigger : string) (plugins : list ProviderEntry) : bool :=
  existsb (fun plugin => match_ (provider plugin) trigger) plugins.

Definition _setMenuItemStateForLanguage (languageId : string) : M unit :=
  plugins ← gets (fun s => getProvidersForLanguageId (host s) (Some languageId));
  call (SetEnabled NAVIGATE_GOTO_DEFINITION (_canHandleTrigger "@" plugins));;
  call (SetEnabled NAVIGATE_GOTO_DEFINITION_PROJECT (_canHandleTrigger "#" plugins)).

(** *** The "projectOpen" handler (lines 835-837) *)
Definition onProjectOpen : M unit :=
  modify (with_fileList None).

(** [DocumentManager.getDocumentForPath(path)] *)
Definition getDocumentForPath (path : string) : M nat :=
  now ← gets (fun s => documentNow (host s) path);
  p ← newPromise ByHost now;
  call (GetDocumentForPath path p);;
  mret p.

(** The closures of lines 859-867 and 875-881. *)
Definition run_newDoc (st : Settled) : M unit :=
  match st with
  | Resolved (VDocument newDoc) =>
      call (DocOff (doc_fullPath newDoc));;
      call (DocOn (doc_fullPath newDoc))
  | _ => throw TypeError
  end.

Definition run_logError (st : Settled) : M unit :=
  match st with
  | Rejected err => call (ConsoleError err)
  | Resolved _ => mret tt
  end.

Definition run_oldDoc (st : Settled) : M unit :=
  match st with
  | Resolved (VDocument oldDoc) => call (DocOff (doc_fullPath oldDoc))
  | _ => throw TypeError
  end.

Definition run_logErrorUnlessEncoding (st : Settled) : M unit :=
  match st with
  | Rejected err =>
      if negb (String.eqb err UNSUPPORTED_ENCODING) then call (ConsoleError err)
      else mret tt
  | Resolved _ => mret tt
  end.

(** The listener of lines 861-864. *)
Definition onLanguageChanged (path : string) : M unit :=
  _setMenuItemStateForLanguage (languageIdForPath path).

(** *** The "currentFileChange" handler (lines 839-882) *)
Definition disableGotoDefinition : M unit :=
  call (SetEnabled NAVIGATE_GOTO_DEFINITION false);;
  call (SetEnabled NAVIGATE_GOTO_DEFINITION_PROJECT false).

Definition onCurrentFileChange (newFile oldFile : option File) : M unit :=
  match newFile with
  | None => disableGotoDefinition
  | Some newFile =>
      let newFilePath := f_fullPath newFile in
      if isBinaryPath newFilePath then disableGotoDefinition
      else
        _setMenuItemStateForLanguage (languageIdForPath newFilePath);;
        p ← getDocumentForPath newFilePath;
        subscribe OnDone p CbNewDoc run_newDoc;;
        subscribe OnFail p CbLogError run_logError;;
        match oldFile with
        | None => mret tt
        | Some oldFile =>
            q ← getDocumentForPath (f_fullPath oldFile);
            subscribe OnDone q CbOldDoc run_oldDoc;;
            subscribe OnFail q CbLogErrorUnlessEncoding run_logErrorUnlessEncoding
        end
  end.

(** *** Running the module *)

(** What each queued closure does when its promise settles. *)
Definition run_callback (cb : Callback) : Settled -> M unit :=
  match cb with
  | CbFilesLoaded d => run_filesLoaded d
  | CbSearchFileList asyncResult query matcher =>
      run_searchFileList asyncResult query matcher
  | CbCreateDialog prefix initialString => fun _ => createDialog prefix initialString
  | CbSetCursorPos cursorPos => run_setCursorPos cursorPos
  | CbClose d => run_close d
  | CbNewDoc => run_newDoc
  | CbLogError => run_logError
  | CbOldDoc => run_oldDoc
  | CbLogErrorUnlessEncoding => run_logErrorUnlessEncoding
  end.

Fixpoint fire (st : Settled) (cbs : list (CbKind * Callback)) : M unit :=
  match cbs with
  | [] => mret tt
  | (k, cb) :: rest =>
      (if fires k st then run_callback cb st else mret tt);;
      fire st rest
  end.

(** The host settles one of its pending promises: the callbacks whose kind
    fires run in the order in which they were attached. *)
Definition settle (p : nat) (st : Settled) : M unit :=
  pr ← gets (fun s => promises s !! p);
  match pr with
  | Some {| p_owner := ByHost; p_settled := None; p_callbacks := cbs |} =>
      modify (fun s => with_promises (alter (set_settled st) p (promises s)) s);;
      fire st cbs
  | _ => mret tt
  end.

(** What reaches the module from outside. *)
Inductive Event :=
| EvBeginSearch (prefix initialString : option string)
| EvQuery (d : nat) (query : string)           (* resultProvider *)
| EvCommit (d : nat) (selectedItem : option SearchResult) (query : string)
                                               (* onCommit *)
| EvHighlight (d : nat) (selectedItem : option SearchResult) (query : string)
              (explicit : bool)                (* onHighlight *)
| EvBarClose (d : nat) (reason : string)       (* the modal bar's "close" *)
| EvSettle (p : nat) (st : Settled)
| EvProjectOpen
| EvCurrentFileChange (newFile oldFile : option File)
| EvLanguageChanged (path : string)
| EvAddPlugin (pluginDef : QuickOpenPlugin) (pluginPriority : option Z)
| EvHost (h : Host).                           (* the user and the other modules *)

(** The callbacks of a dialog are called by its search field and its modal
    bar: these exist once showDialog has created them, and are gone when
    the dialog is no longer open. *)
Definition whenOpen (d : nat) (m : M unit) : M unit :=
  g ← gets (fun s => dialogs s !! d);
  match g with
  | Some dlg => if isOpen dlg && searchField dlg then m else mret tt
  | None => mret tt
  end.

Definition handle (e : Event) : M unit :=
  match e with
  | EvBeginSearch prefix initialString => beginSearch prefix initialString
  | EvQuery d query => whenOpen d (_filterCallback d query;; mret tt)
  | EvCommit d selectedItem query => whenOpen d (_handleItemSelect d selectedItem query)
  | EvHighlight d selectedItem query explicit =>
      whenOpen d (_handleItemHighlight selectedItem query explicit)
  | EvBarClose d reason =>
      whenOpen d (p ← newPromise ByHost None; _handleCloseBar d reason p)
  | EvSettle p st => settle p st
  | EvProjectOpen => onProjectOpen
  | EvCurrentFileChange newFile oldFile => onCurrentFileChange newFile oldFile
  | EvLanguageChanged path => onLanguageChanged path
  | EvAddPlugin pluginDef pluginPriority => addQuickOpenPlugin pluginDef pluginPriority
  | EvHost h => modify (with_host h)
  end.

Definition step (s : State) (e : Event) : State := snd (handle e s).

Definition run (s : State) (es : list Event) : State := fold_left step es s.

(** The state in which the module is loaded (lines 99-118). *)
Definition init (h : Host) : State :=
  {| currentPlugin := None; fileList := None; fileListPromise := None;
     _curDialog := None; dialogs := []; promises := []; nextMatcher := 0;
     host := h; calls := [] |}.

End QuickOpen.

(** ** The formatters of the result list (lines 545-624) *)

(** The debugging record StringMatch may attach to a result. *)
Record ScoreDebug := {
  sd_special : jsnum;
  sd_match : jsnum;
  sd_lastSegment : jsnum;
  sd_beginning : jsnum;
  sd_lengthDeduction : jsnum;
  sd_consecutive : jsnum;
  sd_notStartingOnSpecial : jsnum;
  sd_upper : jsnum
}.

(** An item of the result list as the formatters read it: a plain string,
    or an object with the properties [label], [stringRanges] (ranges
    [(text, matched, includesLastSegment)]), [scoreDebug] and
    [matchGoodness], the first three possibly missing. *)
Inductive ListItem :=
| ItemString (s : string)
| ItemObject (label : option string) (stringRanges : option (list (string * bool * bool)))
             (scoreDebug : option ScoreDebug) (matchGoodness : jsnum).

(** The double quote, which the markup of the debugging title holds. *)
Definition dquote : string := String (ascii_of_nat 34) "".

Section Formatters.

(** StringUtils.breakableUrl, and ToString on numbers. *)
Context (breakableUrl : string -> string) (Number_toString : jsnum -> string).

(** [item.label || item] when that is a string; [None] when it is the
    item object itself. *)
Definition itemLabel (item : ListItem) : option string :=
  match item with
  | ItemString s => Some s
  | ItemObject label _ _ _ => if nonEmpty label then label else None
  end.

Definition itemRanges (item : ListItem) : option (list (string * bool * bool)) :=
  match item with
  | ItemString _ => None
  | ItemObject _ stringRanges _ _ => stringRanges
  end.

(** The title of lines 560-566. *)
Definition scoreDebugHtml (item : ListItem) : string :=
  match item with
  | ItemObject _ _ (Some sd) matchGoodness =>
      "<span title=" ++ dquote ++ "sp:" ++ Number_toString (sd_special sd)
      ++ ", m:" ++ Number_toString (sd_match sd)
      ++ ", ls:" ++ Number_toString (sd_lastSegment sd)
      ++ ", b:" ++ Number_toString (sd_beginning sd)
      ++ ", ld:" ++ Number_toString (sd_lengthDeduction sd)
      ++ ", c:" ++ Number_toString (sd_consecutive sd)
      ++ ", nsos: " ++ Number_toString (sd_notStartingOnSpecial sd)
      ++ ", upper: " ++ Number_toString (sd_upper sd)
      ++ dquote ++ ">(" ++ Number_toString matchGoodness ++ ") </span>"
  | _ => ""
  end.

(** One turn of the forEach of lines 569-580. *)
Definition appendRange (matchClass : string) (rangeFilter : option (bool -> string -> string))
           (displayName : string) (range : string * bool * bool) : string :=
  let '(text, matched, includesLastSegment) := range in
  let displayName :=
    if matched then displayName ++ "<span class='" ++ matchClass ++ "'>" else displayName in
  let rangeText :=
    match rangeFilter with
    | Some f => f includesLastSegment text
    | None => text
    end in
  let displayName := displayName ++ breakableUrl rangeText in
  if matched then displayName ++ "</span>" else displayName.

(** highlightMatch (lines 545-582).  [None] stands for the one case the
    model leaves out: an object with neither a non-empty label nor
    stringRanges, where the text of the only range is the object itself. *)
Definition highlightMatch (item : ListItem) (matchClass : option string)
           (rangeFilter : option (bool -> string -> string)) : option string :=
  let matchClass :=
    if nonEmpty matchClass then default "" matchClass else "quicksearch-namematch" in
  stringRanges ←
    match itemRanges item with
    | Some ranges => Some ranges
    | None => label ← itemLabel item; Some [(label, false, true)]
    end;
  Some (fold_left (appendRange matchClass rangeFilter) stringRanges (scoreDebugHtml item)).

(** defaultResultsFormatter (lines 584-589) *)
Definition defaultResultsFormatter (item : ListItem) (query : string) : option string :=
  let query := slice query (indexOf query "@" + 1) (len query) in
  displayName ← highlightMatch item None None;
  Some ("<li>" ++ displayName ++ "</li>").

(** _filenameResultsFormatter (lines 591-605) *)
Definition _filenameResultsFormatter (item : ListItem) (query : string) : option string :=
  displayName ← highlightMatch item None (Some fileNameFilter);
  displayPath ← highlightMatch item (Some "quicksearch-pathmatch") None;
  Some ("<li>" ++ displayName ++ "<br /><span class='quick-open-path'>" ++ displayPath
        ++ "</span></li>").

(** A search result of the model as an item for the formatters: label,
    stringRanges and matchGoodness are there, scoreDebug is not. *)
Definition itemOfResult (r : SearchResult) : ListItem :=
  ItemObject (Some (sr_label r)) (Some (sr_stringRanges r)) None (of_Z (sr_matchGoodness r)).

(** QuickNavigateDialog.prototype._resultsFormatterCallback (lines 613-624) *)
Definition _resultsFormatterCallback (item : SearchResult) (query : string)
  : M (option string) :=
  cp ← gets currentPlugin;
  match cp with
  | Some plugin =>
      match resultsFormatter plugin with
      | Some formatter => mret (Some (formatter item query))
      | None => mret (defaultResultsFormatter (itemOfResult item) query)
      end
  | None => mret (_filenameResultsFormatter (itemOfResult item) query)
  end.

End Formatters.

(** ** Vocabulary of the statements *)

(** Does [s] begin with a code unit satisfying [p]? *)
Definition headIs (p : ascii -> bool) (s : string) : bool :=
  match s with
  | EmptyString => false
  | String c _ => p c
  end.

Definition nonSep (c : ascii) : bool := negb (isSep c).

Definition notColon (c : ascii) : bool := negb (isCode 58 c).

(** The continuation that ends a pattern. *)
Definition kfinal (rest : string) (caps : captures) : option (string * captures) :=
  Some (rest, caps).

(** The two optional parts of CURSOR_POS_EXP. *)
Definition G1 : regex := ROpt (RGroup 1 (RPlus (fun c => negb (isSep c)))).

Definition G2 : regex :=
  ROpt (RGroup 2 (RSeq (RChar isSep) (ROpt (RGroup 3 (RPlus dot))))).

(** What the groups 2 and 3 take of [tail]: the text left over and the
    groups recorded on top of [caps]. *)
Definition columnPart (tail : string) (caps : captures) : string * captures :=
  match tail with
  | String sep t2 =>
      if isSep sep then
        let l3 := takeWhile dot t2 in
        (dropWhile dot t2,
         <[2%nat := String sep l3]> (if isEmpty l3 then caps else <[3%nat := l3]> caps))
      else (tail, caps)
  | EmptyString => (tail, caps)
  end.

(** What the groups 1 to 3 take of the text after the colon. *)
Definition afterColon (body : string) : string * captures :=
  let l1 := takeWhile nonSep body in
  columnPart (dropWhile nonSep body)
             (if isEmpty l1 then ∅ else {[1%nat := l1]}).

(** A go-to-line query: a colon, the line numeral and possibly a separator
    with the column numeral. *)
Definition columnSuffix (col : option (ascii * string)) : string :=
  match col with
  | Some (sep, colTxt) => String sep colTxt
  | None => ""
  end.

Definition gotoQuery (lineTxt : string) (col : option (ascii * string)) : string :=
  String ":" (lineTxt ++ columnSuffix col).

Definition isColumn (col : option (ascii * string)) : bool :=
  match col with
  | Some (sep, colTxt) => isSep sep && isNumeral colTxt
  | None => true
  end.

(** The 0-based column such a query asks for. *)
Definition columnIndex (col : option (ascii * string)) : Z :=
  match col with
  | Some (_, colTxt) => numeralValue colTxt - 1
  | None => 0
  end.

(** The errors written to the console, in order. *)
Definition consoleErrors (cs : list HostCall) : list string :=
  omap (fun c => match c with ConsoleError err => Some err | _ => None end) cs.

(** The answers of getDocumentForPath the closures of the
    "currentFileChange" handler are written for: a promise that is pending,
    rejected, or resolved with a document. *)
Definition documentAnswer (answer : option Settled) : Prop :=
  match answer with
  | None | Some (Rejected _) | Some (Resolved (VDocument _)) => True
  | Some (Resolved _) => False
  end.

(** The error of a promise that is rejected already, if [logs] lets it
    through. *)
Definition rejectedNow (logs : string -> bool) (answer : option Settled) : list string :=
  match answer with
  | Some (Rejected err) => if logs err then [err] else []
  | _ => []
  end.

(** The state after the current full editor [ed] got the selection a
    go-to-line query asks for: from [(line, ch)] to [(line, undefined)]. *)
Definition selectLine (cursorPos : CursorPos) (ed : Editor) (s : State) : State :=
  let from := {| pos_line := cp_line cursorPos; pos_ch := Some (cp_ch cursorPos) |} in
  let to := {| pos_line := cp_line cursorPos; pos_ch := None |} in
  with_host (with_view (with_editor (setSelection from to ed) (view (host s))) (host s)) s.

(** A search result with the three fields of the file attached. *)
Definition withFileInfo (fileInfo : File) (searchResult : SearchResult) : SearchResult :=
  {| sr_label := f_name fileInfo;
     sr_matchGoodness := sr_matchGoodness searchResult;
     sr_stringRanges := sr_stringRanges searchResult;
     sr_fullPath := Some (f_fullPath fileInfo);
     sr_filenameWithoutExtension := Some (_filenameFromPath (f_name fileInfo) false) |}.


(** What the later life of the module keeps of the dialog [d]: the
    recorded document, selections and scroll position, the file name
    matcher, every entry of the matcher cache and, once the dialog is
    closed, that it is closed and its closePromise. *)
Definition keepsDialog (d : nat) (s s' : State) : Prop :=
  forall dlg,
    dialogs s !! d = Some dlg ->
    exists dlg',
      dialogs s' !! d = Some dlg'
      /\ _origDocPath dlg' = _origDocPath dlg
      /\ _origSelections dlg' = _origSelections dlg
      /\ _origScrollPos dlg' = _origScrollPos dlg
      /\ _filenameMatcher dlg' = _filenameMatcher dlg
      /\ (forall key m, matchers_get (_matchers dlg) key = Some m ->
                        matchers_get (_matchers dlg') key = Some m)
      /\ (isOpen dlg = false ->
          isOpen dlg' = false /\ closePromise dlg' = closePromise dlg).

(** The matcher a dispatch hands to [plugin] when the cache of the dialog
    is [cache] and [next] StringMatchers have been created so far. *)
Definition matcherFor (cache : gmap string MatcherVal) (next : nat)
           (plugin : QuickOpenPlugin) : MatcherVal :=
  match matchers_get cache (name plugin) with
  | Some m => m
  | None => MStringMatcher {| sm_ref := next; sm_options := matcherOptions plugin |}
  end.

(** The label _updateDialogLabel shows for a plug-in and a query. *)
Definition dialogLabel `{Env} (plugin : option QuickOpenPlugin) (query : string) : string :=
  match plugin with
  | Some pl => if nonEmpty (label pl) then default "" (label pl) else prefixLabel query
  | None => prefixLabel query
  end.

(** The state after _filterCallback has dispatched [query] to [plugin] in
    the dialog [d], whose record is [dlg]. *)
Definition dispatched `{Env} (d : nat) (plugin : QuickOpenPlugin) (query : string)
           (dlg : Dialog) (s : State) : State :=
  match matchers_get (_matchers dlg) (name plugin) with
  | Some _ =>
      with_calls (calls s ++ [SetDialogLabel d (dialogLabel (Some plugin) query)])
                 (with_currentPlugin (Some plugin) s)
  | None =>
      let m := {| sm_ref := nextMatcher s; sm_options := matcherOptions plugin |} in
      with_calls
        (calls s ++ [NewStringMatcher m; SetDialogLabel d (dialogLabel (Some plugin) query)])
        (with_dialogs
           (alter (fun g => set_matchers (<[name plugin := MStringMatcher m]> (_matchers g)) g)
                  d (dialogs s))
           (with_nextMatcher (S (nextMatcher s)) (with_currentPlugin (Some plugin) s)))
  end.

(** The StringMatchers constructed, in order. *)
Definition constructed (cs : list HostCall) : list StringMatcher :=
  omap (fun c => match c with NewStringMatcher m => Some m | _ => None end) cs.

(** In the state [s] the plug-in loop of _filterCallback stops at [entry]:
    it is the first provider of the current context whose [match] accepts
    the query, and the query is neither a go-to-line query nor ":". *)
Definition dispatches `{Env} (s : State) (query : string) (entry : ProviderEntry) : Prop :=
  goToLine query = None
  /\ query <> ":"
  /\ exists pre post,
      fst (_getPluginsForCurrentContext s) = Ok (pre ++ entry :: post)%list
      /\ Forall (fun e => match_ (provider e) query = false) pre
      /\ match_ (provider entry) query = true.

(** What the view is after the [done] callbacks of the plug-ins have run. *)
Fixpoint doneViews (plugins : list ProviderEntry) (v : View) : View :=
  match plugins with
  | [] => v
  | entry :: rest =>
      doneViews rest (match done (provider entry) with
                      | Some pluginDone => pluginDone v
                      | None => v
                      end)
  end.

(** The providers of the current context. *)
Definition providersOf (s : State) : list ProviderEntry :=
  match currentDocument (view (host s)) with
  | Some curDoc => getProvidersForLanguageId (host s) (Some (doc_languageId curDoc))
  | None => getProvidersForLanguageId (host s) None
  end.



(** What the Escape branch of _handleCloseBar makes of the view [v], given
    the selections and the scroll position the dialog recorded. *)
Definition restoreView (sels : option (list Selection)) (pos : option (Z * Z))
           (v : View) : View :=
  let v1 :=
    match currentFullEditor v, sels with
    | Some e, Some sels => with_editor (setSelections sels e) v
    | _, _ => v
    end in
  match currentFullEditor v, pos with
  | Some _, Some (x, y) =>
      match currentFullEditor v1 with
      | Some e1 => with_editor (setScrollPos x y e1) v1
      | None => v1
      end
  | _, _ => v1
  end.

(** While the file index is still loading (getAllFiles answers with a
    pending promise) a file list that is absent stays absent. *)
Definition staysUnloaded (s s' : State) : Prop :=
  fileList s = None /\ allFilesNow (host s) = None ->
  fileList s' = None /\ allFilesNow (host s') = None.

(** A cursor position read behind a file name: the same, but not local. *)
Definition nonLocal (c : CursorPos) : CursorPos :=
  {| cp_query := cp_query c; cp_local := false; cp_line := cp_line c; cp_ch := cp_ch c |}.

(** The state _handleCloseBar leaves when the bar of the dialog [d], whose
    record is [dlg], closes for [reason] with the promise [p]. *)
Definition closedBar `{Env} (d : nat) (reason : string) (p : nat) (dlg : Dialog)
           (s : State) : State :=
  let v := doneViews (providersOf s) (view (host s)) in
  with_host
    (with_view
       (if String.eqb reason CLOSE_ESCAPE
        then restoreView (_origSelections dlg) (_origScrollPos dlg) v
        else v)
       (host s))
    (with_calls
       (calls s ++ match closePromise dlg with Some _ => [ConsoleAssert] | None => [] end
        ++ [SearchFieldDestroy d])
       (with_dialogs
          (alter (set_isOpen false) d (alter (set_closePromise (Some p)) d (dialogs s)))
          s)).

(** What the two closures that _handleItemSelect puts on the promise of the
    command (lines 351-361) make of its outcome [st], where [r] is the run
    in which they fire, started from the state [s] with the host [h], and
    the dialog [d] with the record [dlg] was open.  If the file opened, the
    query holds a position and there is no full editor, the first closure
    throws a TypeError and the dialog is left as it was.  Otherwise the
    cursor is set if the file opened and the query holds a position, and
    the dialog is closed with the promise [q] of the closing bar. *)
Definition closesAfterCommand (d : nat) (dlg : Dialog) (query : string) (q : nat)
           (st : Settled) (s : State) (h : Host) (r : Result unit * State) : Prop :=
  match st, extractCursorPos query, currentFullEditor (view h) with
  | Resolved _, Some _, None =>
      fst r = Throw TypeError /\ dialogs (snd r) = dialogs s
  | _, cursorPos, editor =>
      let v := match st, cursorPos, editor with
               | Resolved _, Some c, Some ed =>
                   with_editor (setCursorPos (cp_line c) (cp_ch c) ed) (view h)
               | _, _, _ => view h
               end in
      fst r = Ok tt
      /\ view (host (snd r)) = doneViews (providersOf (with_host h s)) v
      /\ dialogs (snd r) !! d
         = Some (set_isOpen false (set_closePromise (Some q) dlg))
  end.

(** An open dialog has no closePromise, a dialog that is not open has one. *)
Definition consistent (g : Dialog) : Prop :=
  if isOpen g then closePromise g = None else closePromise g <> None.

Definition staysConsistent (s s' : State) : Prop :=
  Forall consistent (dialogs s) -> Forall consistent (dialogs s').

(** The texts of the ranges [(text, matched, includesLastSegment)] of a
    search result, put together: the string that was matched. *)
Fixpoint rangesText (ranges : list (string * bool * bool)) : string :=
  match ranges with
  | [] => ""
  | (text, _, _) :: rest => text ++ rangesText rest
  end.

(** What fileNameFilter lets through of the ranges, in order. *)
Fixpoint nameText (ranges : list (string * bool * bool)) : string :=
  match ranges with
  | [] => ""
  | (text, _, includesLastSegment) :: rest =>
      fileNameFilter includesLastSegment text ++ nameText rest
  end.

(** includesLastSegment as utils/StringMatch sets it: true on a range that
    reaches into the last path segment, false on one that ends before that
    segment or with its '/'. *)
Fixpoint lastSegmentMarked (ranges : list (string * bool * bool)) : Prop :=
  match ranges with
  | [] => True
  | (text, _, includesLastSegment) :: rest =>
      (if includesLastSegment then has "/" (rangesText rest) = false
       else has "/" (rangesText rest) = true \/ _filenameFromPath text true = "")
      /\ lastSegmentMarked rest
  end.

(** How often the code unit [c] occurs in [s]. *)
Fixpoint occurrences (c : ascii) (s : string) : nat :=
  match s with
  | EmptyString => O
  | String a s' => ((if Ascii.eqb a c then 1 else 0) + occurrences c s')%nat
  end.


(** The text of a range a rangeFilter lets through. *)
Definition filteredText (rangeFilter : option (bool -> string -> string))
           (range : string * bool * bool) : string :=
  match rangeFilter with
  | Some f => f range.2 range.1.1
  | None => range.1.1
  end.

(** The closures that searches [(asyncResult, query, matcher)] queue on the
    promise of the file list, in the order of the calls. *)
Definition queued (searches : list (nat * string * StringMatcher))
  : list (CbKind * Callback) :=
  (fun x => (OnDone, CbSearchFileList x.1.1 x.1.2 x.2)) <$> searches.

(** ** Frames: relations between the state before and the state after *)

(** A relation between the state before and the state after that no update
    of the console, the promises, the view or the module's scalar variables
    breaks. *)
Class Frame (R : State -> State -> Prop) := {
  frame_refl : forall s, R s s;
  frame_trans : forall a b c, R a b -> R b c -> R a c;
  frame_calls : forall s cs, R s (with_calls cs s);
  frame_promises : forall s ps, R s (with_promises ps s);
  frame_view : forall s v, R s (with_host (with_view v (host s)) s);
  frame_currentPlugin : forall s v, R s (with_currentPlugin v s);
  frame_nextMatcher : forall s v, R s (with_nextMatcher v s);
  frame_curDialog : forall s v, R s (with_curDialog v s);
  frame_fileListPromise : forall s v, R s (with_fileListPromise v s)
}.

(** ... nor any update of the dialogs. *)
Class FrameDialogs (R : State -> State -> Prop) := {
  frame_dialogs : forall s ds, R s (with_dialogs ds s)
}.

(** ... nor any update of the file list. *)
Class FrameFiles (R : State -> State -> Prop) := {
  frame_fileList : forall s v, R s (with_fileList v s)
}.

Definition preserves (R : State -> State -> Prop) {A : Type} (m : M A) : Prop :=
  forall s, R s (snd (m s)).

(** ** A small project to run the module on *)

Module Fixture.

(** A matcher that accepts the paths the query is a prefix of. *)
Definition prefixMatch (_ : StringMatcher) (str query : string) : option SearchResult :=
  if String.prefix query str then
    Some {| sr_label := str; sr_matchGoodness := 0; sr_stringRanges := [];
            sr_fullPath := None; sr_filenameWithoutExtension := None |}
  else None.

#[local] Instance env : Env := {|
  CMD_GOTO_LINE := "Go to Line";
  CMD_GOTO_DEFINITION := "Quick Find Definition";
  CMD_GOTO_DEFINITION_PROJECT := "Quick Find Definition in Project";
  NAVIGATE_GOTO_DEFINITION := "navigate.gotoDefinition";
  NAVIGATE_GOTO_DEFINITION_PROJECT := "navigate.gotoDefinitionInProject";
  CMD_ADD_TO_WORKINGSET_AND_OPEN := "cmd.addToWorkingSetAndOpen";
  CLOSE_ESCAPE := "escape";
  CLOSE_API := "api";
  UNSUPPORTED_ENCODING := "UnsupportedEncoding";
  StringMatcher_match := prefixMatch;
  multiFieldSort := fun l _ => l;
  languageIdForPath := fun _ => "javascript";
  isBinaryPath := fun _ => false;
  findSuitableFactoryForPath := fun _ => false
|}.

Definition editor : Editor :=
  {| ed_selections := []; ed_scrollPos := (0, 120);
     ed_firstVisibleLine := 0; ed_lastVisibleLine := 40 |}.

Definition document : Document :=
  {| doc_fullPath := "/project/src/main.js"; doc_languageId := "javascript" |}.

(** A plug-in for queries that start with '@'. *)
Definition symbols : QuickOpenPlugin :=
  {| name := "JavaScript functions"; languageIds := ["javascript"];
     done := None;
     search := fun _ _ => OutArray [];
     match_ := fun query => String.prefix "@" query;
     itemFocus := None;
     itemSelect := fun _ _ v => v;
     resultsFormatter := None;
     matcherOptions := None;
     label := None |}.

Definition host : Host :=
  {| view := {| currentDocument := Some document; currentFullEditor := Some editor |};
     getProvidersForLanguageId := fun _ => [ {| provider := symbols; priority := 0 |} ];
     makeProjectRelativeIfPossible := fun path => path;
     allFilesNow := None;
     documentNow := fun _ => None;
     executeOpen := fun _ v => (v, None) |}.

Definition files : list File :=
  [ {| f_fullPath := "src/main.js"; f_name := "main.js" |};
    {| f_fullPath := "dir.name/README"; f_name := "README" |} ].

Definition entry : ProviderEntry := {| provider := symbols; priority := 0 |}.

(** Quick Open has just been opened: dialog 0 is shown and the file list is
    being fetched on promise 0. *)
Definition opened : State := run (init host) [EvBeginSearch None None].

(** The record of dialog 0 from then on. *)
Definition dialog0 : Dialog :=
  {| isOpen := true; closePromise := None;
     _origDocPath := Some "/project/src/main.js";
     _origSelections := Some []; _origScrollPos := Some (0, 120);
     _filenameMatcher :=
       {| sm_ref := 0;
          sm_options := Some {| preferPrefixMatches := false; segmentedSearch := true |} |};
     _matchers := ∅; searchField := true |}.

(** The file list has arrived. *)
Definition loaded : State := run opened [EvSettle 0 (Resolved (VFiles files))].

(** A dialog that has been constructed and not shown yet. *)
Definition constructedOnly : State := snd (QuickNavigateDialog (init host)).

Definition dialogNew : Dialog :=
  {| isOpen := false; closePromise := None; _origDocPath := None;
     _origSelections := None; _origScrollPos := None;
     _filenameMatcher := _filenameMatcher dialog0;
     _matchers := ∅; searchField := false |}.

(** Dialog 0 is closing on promise 1. *)
Definition closing : State := run opened [EvBarClose 0 "blur"].

Definition dialogClosing : Dialog :=
  {| isOpen := false; closePromise := Some 1%nat;
     _origDocPath := Some "/project/src/main.js";
     _origSelections := Some []; _origScrollPos := Some (0, 120);
     _filenameMatcher := _filenameMatcher dialog0;
     _matchers := ∅; searchField := true |}.

Definition newFile : File := {| f_fullPath := "/project/src/a.js"; f_name := "a.js" |}.

Definition oldFile : File := {| f_fullPath := "/project/src/b.js"; f_name := "b.js" |}.

End Fixture.

(** The same project with the file index at hand: getAllFiles answers with
    a promise that is already resolved. *)
Module Indexed.

Definition host : Host :=
  {| view := view Fixture.host;
     getProvidersForLanguageId := getProvidersForLanguageId Fixture.host;
     makeProjectRelativeIfPossible := makeProjectRelativeIfPossible Fixture.host;
     allFilesNow := Some (Resolved (VFiles Fixture.files));
     documentNow := documentNow Fixture.host;
     executeOpen := executeOpen Fixture.host |}.

End Indexed.

(** The same project while the document shown has no full editor:
    showDialog throws at line 692, after it has set isOpen. *)
Module Unedited.

Definition host : Host :=
  {| view := {| currentDocument := Some Fixture.document; currentFullEditor := None |};
     getProvidersForLanguageId := getProvidersForLanguageId Fixture.host;
     makeProjectRelativeIfPossible := makeProjectRelativeIfPossible Fixture.host;
     allFilesNow := allFilesNow Fixture.host;
     documentNow := documentNow Fixture.host;
     executeOpen := executeOpen Fixture.host |}.

(** The record of dialog 0 after beginSearch has thrown. *)
Definition dialog0 : Dialog :=
  {| isOpen := true; closePromise := None;
     _origDocPath := Some "/project/src/main.js";
     _origSelections := None; _origScrollPos := None;
     _filenameMatcher := _filenameMatcher Fixture.dialog0;
     _matchers := ∅; searchField := false |}.

End Unedited.

(** The same project when the command that opens a file has finished by
    the time execute returns, as it has for the file that is shown. *)
Module Shown.

Definition host : Host :=
  {| view := view Fixture.host;
     getProvidersForLanguageId := getProvidersForLanguageId Fixture.host;
     makeProjectRelativeIfPossible := makeProjectRelativeIfPossible Fixture.host;
     allFilesNow := allFilesNow Fixture.host;
     documentNow := documentNow Fixture.host;
     executeOpen := fun _ v => (v, Some (Resolved VUndefined)) |}.

End Shown.

(** ** Lemmas on the string primitives *)

Section StringFacts.

Lemma len_nonneg s : 0 <= len s.
Proof. unfold len; lia. Qed.

Lemma len_String a s : len (String a s) = len s + 1.
Proof. unfold len; simpl String.length; lia. Qed.

Lemma app_empty t : "" ++ t = t.
Proof. reflexivity. Qed.

Lemma app_String a s t : String a s ++ t = String a (s ++ t).
Proof. reflexivity. Qed.

Lemma len_app s t : len (s ++ t) = len s + len t.
Proof.
  induction s as [|a s IH].
  - rewrite app_empty. unfold len; simpl; lia.
  - rewrite app_String, !len_String, IH. lia.
Qed.

Lemma substring_all s : String.substring 0 (String.length s) s = s.
Proof. induction s as [|a s IH]; simpl; [reflexivity | now rewrite IH]. Qed.

Lemma substring_zero n s : String.substring n 0 s = "".
Proof.
  revert n; induction s as [|a s IH]; intros [|n]; simpl; auto.
Qed.

Lemma substring_skip_app s t m :
  String.substring (String.length s) m (s ++ t) = String.substring 0 m t.
Proof.
  induction s as [|a s IH]; [reflexivity|].
  rewrite app_String. simpl. apply IH.
Qed.

Lemma prefix_char_String c a s :
  String.prefix (char c) (String a s) = Ascii.eqb a c.
Proof.
  unfold char; simpl.
  destruct (ascii_dec c a) as [->|Hne].
  - rewrite Ascii.eqb_refl. now destruct s.
  - destruct (Ascii.eqb_spec a c); [congruence | reflexivity].
Qed.

(** The accumulator only matters when the character does not occur. *)
Lemma lastIndexOf_from_no c s i acc :
  has c s = false -> lastIndexOf_from (char c) s i acc = acc.
Proof.
  revert i acc; induction s as [|a s IH]; intros i acc H; simpl in *.
  - reflexivity.
  - apply orb_false_iff in H as [Ha Hs].
    fold (char c). rewrite IH by assumption.
    change (match s with "" => true | String _ _ => true end)
      with (String.prefix "" s).
    destruct (ascii_dec c a) as [->|Hne].
    + now rewrite Ascii.eqb_refl in Ha.
    + reflexivity.
Qed.

Lemma lastIndexOf_from_last c s t i acc :
  has c t = false ->
  lastIndexOf_from (char c) (s ++ String c t) i acc = i + len s.
Proof.
  intros Ht. revert i acc; induction s as [|a s IH]; intros i acc.
  - rewrite app_empty. cbn [lastIndexOf_from].
    rewrite prefix_char_String, Ascii.eqb_refl.
    rewrite lastIndexOf_from_no by assumption.
    unfold len; simpl; lia.
  - rewrite app_String. cbn [lastIndexOf_from].
    rewrite IH, len_String. lia.
Qed.

Lemma lastIndexOf_absent c s :
  has c s = false -> lastIndexOf s (char c) = -1.
Proof. intros H. unfold lastIndexOf. now apply lastIndexOf_from_no. Qed.

Lemma lastIndexOf_present c s t :
  has c t = false -> lastIndexOf (s ++ String c t) (char c) = len s.
Proof.
  intros H. unfold lastIndexOf. rewrite lastIndexOf_from_last by assumption. lia.
Qed.

Lemma has_app c s t : has c (s ++ t) = has c s || has c t.
Proof.
  induction s as [|a s IH]; [reflexivity|].
  rewrite app_String. simpl. now rewrite IH, orb_assoc.
Qed.

Lemma slice_whole s : slice s 0 (len s) = s.
Proof.
  unfold slice, clamp. pose proof (len_nonneg s).
  rewrite (proj2 (Z.ltb_ge 0 0)) by lia.
  rewrite (proj2 (Z.ltb_ge (len s) 0)) by lia.
  rewrite Z.min_l, Z.min_id, Z.sub_0_r, Z.max_l by lia.
  unfold len. rewrite Nat2Z.id. simpl Z.to_nat. apply substring_all.
Qed.

Lemma slice_suffix s t : slice (s ++ t) (len s) (len (s ++ t)) = t.
Proof.
  unfold slice, clamp. pose proof (len_nonneg s). pose proof (len_nonneg t).
  pose proof (len_app s t).
  rewrite (proj2 (Z.ltb_ge (len s) 0)) by lia.
  rewrite (proj2 (Z.ltb_ge (len (s ++ t)) 0)) by lia.
  rewrite Z.min_l, Z.min_id by lia.
  replace (Z.max (len (s ++ t) - len s) 0) with (len t) by lia.
  unfold len. rewrite !Nat2Z.id. rewrite substring_skip_app. apply substring_all.
Qed.

Lemma slice_backwards s i j : 0 <= j -> j <= i -> slice s i j = "".
Proof.
  intros Hj Hij. unfold slice, clamp. pose proof (len_nonneg s).
  rewrite (proj2 (Z.ltb_ge i 0)) by lia.
  rewrite (proj2 (Z.ltb_ge j 0)) by lia.
  rewrite Z.max_r by lia. apply substring_zero.
Qed.

End StringFacts.

(** ** Lemmas on numbers and ToNumber *)

Section NumberFacts.

Lemma allb_impl (p q : ascii -> bool) s :
  (forall c, p c = true -> q c = true) -> allb p s = true -> allb q s = true.
Proof.
  intros Hpq. induction s as [|a s IH]; simpl; [reflexivity|].
  intros [Ha Hs]%andb_true_iff. rewrite (Hpq _ Ha). simpl. auto.
Qed.

Lemma allb_app p s t : allb p (s ++ t) = allb p s && allb p t.
Proof.
  induction s as [|a s IH]; [reflexivity|].
  rewrite app_String. simpl. now rewrite IH, andb_assoc.
Qed.

Lemma isDigit_code c : isDigit c = true -> 48 <= code c <= 57.
Proof. unfold isDigit. intros [?%Z.leb_le ?%Z.leb_le]%andb_true_iff. lia. Qed.

Lemma isCode_ne n c : code c <> n -> JSRegExp.isCode n c = false.
Proof. intros Hne. unfold JSRegExp.isCode. now apply Z.eqb_neq. Qed.

Lemma isChar_ne n c : code c <> n -> isChar n c = false.
Proof. intros Hne. unfold isChar. now apply Z.eqb_neq. Qed.

Lemma digit_not_space c : isDigit c = true -> negb (isWhiteSpace c) = true.
Proof.
  intros Hd%isDigit_code. unfold isWhiteSpace. cbv zeta.
  rewrite (proj2 (Z.leb_gt (code c) 13)) by lia.
  rewrite (proj2 (Z.eqb_neq (code c) 32)) by lia.
  rewrite (proj2 (Z.eqb_neq (code c) 160)) by lia.
  now rewrite andb_false_r.
Qed.

Lemma decDigit_digit c : isDigit c = true -> decDigit c = Some (code c - 48).
Proof. unfold isDigit, decDigit. cbv zeta. now intros ->. Qed.

Lemma readDigits_numeral s acc cnt :
  allb isDigit s = true ->
  readDigits decDigit 10 s acc cnt
  = (numeralValue_from acc s, (cnt + String.length s)%nat, "").
Proof.
  revert acc cnt. induction s as [|a s IH]; intros acc cnt Hs.
  - simpl. now rewrite Nat.add_0_r.
  - simpl in Hs. apply andb_true_iff in Hs as [Ha Hs].
    cbn [readDigits numeralValue_from]. rewrite (decDigit_digit _ Ha).
    rewrite IH by assumption.
    replace (acc * 10 + (code a - 48)) with (10 * acc + (code a - 48)) by lia.
    simpl String.length. now rewrite Nat.add_succ_r.
Qed.

Lemma numeralValue_from_nonneg s acc :
  allb isDigit s = true -> 0 <= acc -> 0 <= numeralValue_from acc s.
Proof.
  revert acc. induction s as [|a s IH]; intros acc Hs Hacc; simpl; [assumption|].
  simpl in Hs. apply andb_true_iff in Hs as [Ha%isDigit_code Hs].
  apply IH; [assumption | lia].
Qed.

Lemma dropWhile_none p s :
  allb (fun c => negb (p c)) s = true -> dropWhile p s = s.
Proof.
  destruct s as [|a s]; [reflexivity|]. simpl.
  intros [Ha _]%andb_true_iff. apply negb_true_iff in Ha. now rewrite Ha.
Qed.

Lemma rev_rev s a b : rev (rev s a) b = rev a (s ++ b).
Proof.
  revert a b. induction s as [|c s IH]; intros a b; [reflexivity|].
  cbn [rev]. rewrite IH. cbn [rev]. now rewrite app_String.
Qed.

Lemma app_empty_r s : s ++ "" = s.
Proof.
  induction s as [|c s IH]; [reflexivity|]. now rewrite app_String, IH.
Qed.

Lemma allb_rev p s acc :
  allb p s = true -> allb p acc = true -> allb p (rev s acc) = true.
Proof.
  revert acc. induction s as [|c s IH]; intros acc Hs Hacc; [assumption|].
  simpl in Hs. apply andb_true_iff in Hs as [Hc Hs].
  cbn [rev]. apply IH; [assumption|]. simpl. now rewrite Hc.
Qed.

Lemma trim_none s :
  allb (fun c => negb (isWhiteSpace c)) s = true -> trim s = s.
Proof.
  intros Hs. unfold trim. rewrite (dropWhile_none _ s Hs).
  rewrite dropWhile_none by now apply allb_rev.
  rewrite rev_rev. cbn [rev]. apply app_empty_r.
Qed.

Lemma nonDecimal_numeral s : allb isDigit s = true -> nonDecimal s = None.
Proof.
  destruct s as [|z [|x rest]]; try reflexivity.
  simpl. intros [_ [Hx%isDigit_code _]%andb_true_iff]%andb_true_iff.
  unfold nonDecimal. destruct (isChar 48 z); [|reflexivity].
  now rewrite !isChar_ne by lia.
Qed.

Lemma Qred_inject_Z z : Qred (inject_Z z) = inject_Z z.
Proof. apply Qred_identity. simpl. apply Z.gcd_1_r. Qed.

(** *** Rounding to a double *)

Lemma roundHalfEven_1 p : roundHalfEven p 1 = p.
Proof. unfold roundHalfEven. now rewrite Z.mod_1_r, Z.div_1_r. Qed.

Lemma ilog2_int p : ilog2 p 1 = Z.log2 (Zpos p).
Proof.
  unfold ilog2. change (Z.log2 1) with 0. rewrite Z.sub_0_r. cbv zeta.
  pose proof (Z.log2_nonneg (Zpos p)).
  rewrite (proj2 (Z.leb_le 0 _)) by assumption.
  pose proof (Z.log2_spec (Zpos p) ltac:(lia)).
  now rewrite (proj2 (Z.leb_le _ _)) by lia.
Qed.

(** An integer of at most 53 bits, and 2^53 itself, is a double. *)
Lemma roundFinite_int negative p :
  Zpos p <= 2 ^ 53 ->
  roundFinite negative p 1 = of_Z (signed negative (Zpos p)).
Proof.
  intros Hp. unfold roundFinite. rewrite ilog2_int. cbv zeta.
  pose proof (Z.log2_nonneg (Zpos p)) as H0.
  pose proof (Z.log2_spec (Zpos p) ltac:(lia)) as [Hlo Hhi].
  assert (Z.log2 (Zpos p) <= 53) as H53.
  { destruct (Z.le_gt_cases (Z.log2 (Zpos p)) 53) as [|Hgt]; [assumption|].
    assert (2 ^ 54 <= 2 ^ Z.log2 (Zpos p)) by (apply Z.pow_le_mono_r; lia).
    lia. }
  rewrite Z.max_l by lia.
  destruct (Z.leb_spec 0 (Z.log2 (Zpos p) - 52)) as [Hu|Hu].
  - assert (Z.log2 (Zpos p) = 52 \/ Z.log2 (Zpos p) = 53) as [He|He] by lia;
      rewrite He in *; change (52 - 52) with 0; change (53 - 52) with 1.
    + change (1 * 2 ^ 0) with 1. rewrite roundHalfEven_1.
      rewrite (proj2 (Z.leb_gt _ _)) by lia.
      now rewrite Z.mul_1_r.
    + assert (Zpos p = 2 ^ 53) as -> by lia. reflexivity.
  - rewrite roundHalfEven_1.
    set (k := - (Z.log2 (Zpos p) - 52)) in *.
    assert (0 < 2 ^ k) by (apply Z.pow_pos_nonneg; lia).
    unfold of_Z. rewrite <- (Qred_inject_Z (signed negative (Zpos p))).
    apply f_equal, Qred_complete.
    unfold Qeq, inject_Z. cbn [Qnum Qden].
    rewrite Z2Pos.id by assumption.
    destruct negative; cbn [signed]; lia.
Qed.

Lemma toDouble_int x :
  Qden x = 1%positive -> Z.abs (Qnum x) <= 2 ^ 53 -> toDouble x = of_Z (Qnum x).
Proof.
  destruct x as [n d]. cbn [Qnum Qden]. intros -> Hn.
  unfold toDouble. cbn [Qnum Qden].
  destruct n as [|p|p]; [reflexivity| |].
  - apply (roundFinite_int false). lia.
  - apply (roundFinite_int true). lia.
Qed.

Lemma toDouble_of_Z n : Z.abs n <= 2 ^ 53 -> toDouble (inject_Z n) = of_Z n.
Proof. intros Hn. now apply (toDouble_int (inject_Z n)). Qed.

(** Rounding yields a number. *)
Lemma toDouble_not_NaN x : toDouble x <> JNaN.
Proof.
  unfold toDouble. destruct (Qnum x) as [|p|p]; [discriminate| |];
    unfold roundFinite; cbv zeta;
    destruct (0 <=? _); try discriminate;
    destruct (2 ^ 1024 <=? _); discriminate.
Qed.

(** *** ToNumber on a decimal numeral *)

Lemma unsignedDecimal_numeral s :
  isNumeral s = true -> unsignedDecimal s = toDouble (inject_Z (numeralValue s)).
Proof.
  unfold isNumeral. intros [Hne Hs]%andb_true_iff.
  destruct s as [|a s]; [discriminate|].
  unfold unsignedDecimal.
  assert (String.eqb (String a s) "Infinity" = false) as ->.
  { simpl in Hs. apply andb_true_iff in Hs as [Ha%isDigit_code _].
    simpl. destruct (Ascii.eqb_spec a "I"%char) as [->|]; [|reflexivity].
    change (code "I") with 73 in Ha. lia. }
  rewrite readDigits_numeral by assumption.
  simpl String.length. simpl Nat.add. cbn [exponent].
  reflexivity.
Qed.

(** ToNumber on a decimal numeral is the double nearest to its value ... *)
Lemma StringToNumber_numeral s :
  isNumeral s = true -> StringToNumber s = toDouble (inject_Z (numeralValue s)).
Proof.
  intros Hn. pose proof Hn as [Hne Hs]%andb_true_iff.
  unfold StringToNumber. cbv zeta.
  rewrite trim_none by (eapply allb_impl; [apply digit_not_space | eassumption]).
  destruct s as [|a s]; [discriminate|].
  rewrite nonDecimal_numeral by assumption.
  unfold signedDecimal.
  simpl in Hs. apply andb_true_iff in Hs as [Ha Hs].
  pose proof (isDigit_code _ Ha).
  rewrite !isChar_ne by lia.
  now apply unsignedDecimal_numeral.
Qed.

Lemma numeralValue_nonneg s : isNumeral s = true -> 0 <= numeralValue s.
Proof.
  intros [_ Hs]%andb_true_iff. now apply numeralValue_from_nonneg.
Qed.

(** ... which is that value up to 2^53. *)
Lemma StringToNumber_small s :
  isNumeral s = true -> numeralValue s <= 2 ^ 53 ->
  StringToNumber s = of_Z (numeralValue s).
Proof.
  intros Hn Hs. pose proof (numeralValue_nonneg s Hn).
  rewrite StringToNumber_numeral by assumption. apply toDouble_of_Z. lia.
Qed.

Lemma isNaN_numeral s : isNumeral s = true -> isNaN (Some s) = false.
Proof.
  intros Hn. unfold isNaN, ToNumber. rewrite StringToNumber_numeral by assumption.
  pose proof (toDouble_not_NaN (inject_Z (numeralValue s))).
  now destruct (toDouble _).
Qed.

Lemma truthyStr_numeral s : isNumeral s = true -> truthyStr (Some s) = true.
Proof. destruct s; [discriminate | reflexivity]. Qed.

(** [n - 1 || 0] on an integer is [n - 1], as long as that is a double. *)
Lemma or0_sub1 n : Z.abs (n - 1) <= 2 ^ 53 -> or0 (jsub (of_Z n) (of_Z 1)) = of_Z (n - 1).
Proof.
  intros Hn.
  assert (jsub (of_Z n) (of_Z 1) = of_Z (n - 1)) as ->.
  { unfold of_Z at 1 2. unfold jsub.
    rewrite (toDouble_int (inject_Z n - inject_Z 1)).
    - f_equal. cbn. lia.
    - reflexivity.
    - cbn. lia. }
  unfold or0, truthy, Qeq_bool, of_Z, inject_Z. cbn [Qnum Qden].
  rewrite Z.mul_1_r. change (0 * 1) with 0.
  destruct (Z.eqb_spec (n - 1) 0) as [Hz|Hz]; simpl; [|reflexivity].
  now rewrite Hz.
Qed.

Lemma or0_undefined : or0 (jsub (ToNumber None) (of_Z 1)) = of_Z 0.
Proof. reflexivity. Qed.

Lemma jle_of_Z a b : jle (of_Z a) (of_Z b) = (a <=? b).
Proof.
  unfold jle, of_Z, Qle_bool, inject_Z. simpl. now rewrite !Z.mul_1_r.
Qed.

End NumberFacts.

(** ** Lemmas on the matcher, and CURSOR_POS_EXP worked out *)

Section RegExpFacts.

Lemma span_app p s : takeWhile p s ++ dropWhile p s = s.
Proof.
  induction s as [|c s IH]; [reflexivity|]. simpl.
  destruct (p c); [|reflexivity]. now rewrite app_String, IH.
Qed.

Lemma dropWhile_head p s : headIs p (dropWhile p s) = false.
Proof.
  induction s as [|c s IH]; [reflexivity|]. simpl.
  destruct (p c) eqn:Hc; [assumption|]. simpl. exact Hc.
Qed.

Lemma takeWhile_stop p l r :
  allb p l = true -> headIs p r = false -> takeWhile p (l ++ r) = l.
Proof.
  intros Hl Hr. induction l as [|c l IH].
  - rewrite app_empty. destruct r as [|c r]; [reflexivity|].
    simpl in *. now rewrite Hr.
  - simpl in Hl. apply andb_true_iff in Hl as [Hc Hl].
    rewrite app_String. simpl. rewrite Hc. now rewrite IH.
Qed.

Lemma dropWhile_stop p l r :
  allb p l = true -> headIs p r = false -> dropWhile p (l ++ r) = r.
Proof.
  intros Hl Hr. induction l as [|c l IH].
  - rewrite app_empty. destruct r as [|c r]; [reflexivity|].
    simpl in *. now rewrite Hr.
  - simpl in Hl. apply andb_true_iff in Hl as [Hc Hl].
    rewrite app_String. simpl. rewrite Hc. now apply IH.
Qed.

Lemma takeWhile_all p s : allb p s = true -> takeWhile p s = s.
Proof.
  intros Hs. rewrite <- (app_empty_r s) at 1. now apply takeWhile_stop.
Qed.

Lemma dropWhile_all p s : allb p s = true -> dropWhile p s = "".
Proof.
  intros Hs. rewrite <- (app_empty_r s). now apply dropWhile_stop.
Qed.

Lemma String_length_app s t : String.length (s ++ t) = (String.length s + String.length t)%nat.
Proof.
  induction s as [|c s IH]; [reflexivity|].
  rewrite app_String. simpl. now rewrite IH.
Qed.

Lemma substring_prefix l r : String.substring 0 (String.length l) (l ++ r) = l.
Proof.
  induction l as [|c l IH].
  - rewrite app_empty. apply substring_zero.
  - rewrite app_String. simpl. now rewrite IH.
Qed.

Lemma consumed_app l r : consumed (l ++ r) r = l.
Proof.
  unfold consumed. rewrite String_length_app.
  replace (String.length l + String.length r - String.length r)%nat
    with (String.length l) by lia.
  apply substring_prefix.
Qed.

Lemma consumed_span p s : consumed s (dropWhile p s) = takeWhile p s.
Proof. rewrite <- (span_app p s) at 1. apply consumed_app. Qed.

Lemma consumed_all s : consumed s "" = s.
Proof. rewrite <- (app_empty_r s) at 1. apply consumed_app. Qed.

Lemma consumed_cons_span p c s :
  consumed (String c s) (dropWhile p s) = String c (takeWhile p s).
Proof.
  rewrite <- (span_app p s) at 1. rewrite <- app_String. apply consumed_app.
Qed.

Section Engine.
Context {R : Type}.
Implicit Types (k : string -> option R).

(** A greedy run stops at the longest run when the rest of the pattern
    succeeds there. *)
Lemma star_longest p s k x :
  k (dropWhile p s) = Some x -> star p s k = Some x.
Proof.
  induction s as [|c s IH]; simpl; [trivial|].
  destruct (p c); [|trivial]. intros Hk. now rewrite (IH Hk).
Qed.

Lemma plus_longest p s k x :
  headIs p s = true -> k (dropWhile p s) = Some x -> plus p s k = Some x.
Proof.
  destruct s as [|c s]; [discriminate|]. simpl. intros ->. apply star_longest.
Qed.

Lemma plus_none p s k : headIs p s = false -> plus p s k = None.
Proof. destruct s as [|c s]; [reflexivity|]. simpl. now intros ->. Qed.
End Engine.

Lemma headIs_takeWhile p s : headIs p s = negb (isEmpty (takeWhile p s)).
Proof. destruct s as [|c s]; [reflexivity|]. simpl. now destruct (p c). Qed.

Lemma dropWhile_headless p s : headIs p s = false -> dropWhile p s = s.
Proof. destruct s as [|c s]; [reflexivity|]. simpl. now intros ->. Qed.

Lemma rmatch_G2 tail caps :
  rmatch G2 tail caps kfinal = Some (columnPart tail caps).
Proof.
  unfold G2, columnPart. destruct tail as [|sep t2]; [reflexivity|].
  cbn [rmatch]. destruct (isSep sep); [|reflexivity].
  destruct (headIs dot t2) eqn:Hh.
  - erewrite plus_longest; [| exact Hh | reflexivity].
    rewrite consumed_cons_span, consumed_span.
    rewrite headIs_takeWhile in Hh. apply negb_true_iff in Hh. now rewrite Hh.
  - rewrite plus_none by exact Hh. unfold kfinal.
    rewrite headIs_takeWhile in Hh. apply negb_false_iff in Hh.
    rewrite Hh. destruct (takeWhile dot t2) eqn:Ht; [|discriminate].
    rewrite dropWhile_headless
      by (rewrite headIs_takeWhile, Ht; reflexivity).
    f_equal. f_equal. f_equal.
    rewrite <- (app_empty t2) at 1. rewrite <- app_String.
    apply consumed_app.
Qed.

Lemma rmatch_afterColon body :
  rmatch (RSeq G1 G2) body ∅ kfinal = Some (afterColon body).
Proof.
  unfold afterColon. cbn [rmatch G1]. fold nonSep.
  destruct (headIs nonSep body) eqn:Hh.
  - erewrite plus_longest; [| exact Hh | apply rmatch_G2].
    rewrite consumed_span.
    rewrite headIs_takeWhile in Hh. apply negb_true_iff in Hh. now rewrite Hh.
  - rewrite plus_none by exact Hh. rewrite rmatch_G2.
    rewrite (dropWhile_headless _ _ Hh).
    rewrite headIs_takeWhile in Hh. apply negb_false_iff in Hh. now rewrite Hh.
Qed.

Lemma CURSOR_POS_EXP_eq : CURSOR_POS_EXP = RSeq (RChar (isCode 58)) (RSeq G1 G2).
Proof. reflexivity. Qed.

(** The pattern matches at the first colon, never before. *)
Lemma exec_from_colon body i :
  exec_from CURSOR_POS_EXP (String ":" body) i
  = Some {| mr_index := i;
            mr_text := consumed (String ":" body) (fst (afterColon body));
            mr_groups := snd (afterColon body) |}.
Proof.
  rewrite CURSOR_POS_EXP_eq. cbn [exec_from rmatch].
  change (isCode 58 ":") with true. cbv iota.
  change (fun (rest : string) (caps : captures) => Some (rest, caps)) with kfinal.
  pose proof (rmatch_afterColon body) as Hm. cbn [rmatch] in Hm. rewrite Hm.
  now destruct (afterColon body).
Qed.

Lemma exec_from_skip pre s i :
  allb notColon pre = true ->
  exec_from CURSOR_POS_EXP (pre ++ s) i = exec_from CURSOR_POS_EXP s (i + len pre).
Proof.
  revert i. induction pre as [|c pre IH]; intros i Hp.
  - rewrite app_empty. unfold len. simpl. now rewrite Z.add_0_r.
  - simpl in Hp. apply andb_true_iff in Hp as [Hc Hp].
    rewrite app_String. rewrite CURSOR_POS_EXP_eq. cbn [exec_from rmatch].
    apply negb_true_iff in Hc. rewrite Hc.
    rewrite <- CURSOR_POS_EXP_eq. rewrite IH by assumption.
    rewrite len_String. f_equal. lia.
Qed.

Lemma exec_from_none s i :
  allb notColon s = true -> exec_from CURSOR_POS_EXP s i = None.
Proof.
  revert i. induction s as [|c s IH]; intros i Hs; [reflexivity|].
  simpl in Hs. apply andb_true_iff in Hs as [Hc Hs].
  rewrite CURSOR_POS_EXP_eq. cbn [exec_from rmatch].
  apply negb_true_iff in Hc. rewrite Hc. rewrite <- CURSOR_POS_EXP_eq. now apply IH.
Qed.

End RegExpFacts.

(** ** extractCursorPos on go-to-line queries *)

Section CursorPosFacts.

Lemma digit_nonSep c : isDigit c = true -> nonSep c = true.
Proof.
  intros Hd%isDigit_code. unfold nonSep, isSep.
  now rewrite !isCode_ne by lia.
Qed.

Lemma digit_dot c : isDigit c = true -> dot c = true.
Proof.
  intros Hd%isDigit_code. unfold dot. now rewrite !isCode_ne by lia.
Qed.

Lemma headIs_columnSuffix col :
  isColumn col = true -> headIs nonSep (columnSuffix col) = false.
Proof.
  destruct col as [[sep colTxt]|]; [|reflexivity]. simpl.
  intros [Hs _]%andb_true_iff. unfold nonSep. now rewrite Hs.
Qed.

Lemma afterColon_goto lineTxt col :
  isNumeral lineTxt = true -> isColumn col = true ->
  afterColon (lineTxt ++ columnSuffix col)
  = ("", match col with
         | Some (sep, colTxt) =>
             <[2%nat := String sep colTxt]> (<[3%nat := colTxt]> {[1%nat := lineTxt]})
         | None => {[1%nat := lineTxt]}
         end).
Proof.
  intros Hl Hc. pose proof Hl as [Hne Hd]%andb_true_iff.
  pose proof (allb_impl _ _ _ digit_nonSep Hd) as Hns.
  unfold afterColon. cbv zeta.
  rewrite takeWhile_stop, dropWhile_stop
    by (assumption || now apply headIs_columnSuffix).
  apply negb_true_iff in Hne. rewrite Hne.
  destruct col as [[sep colTxt]|]; [|reflexivity]. simpl in Hc |- *.
  apply andb_true_iff in Hc as [Hsep [Hcne Hcd]%andb_true_iff]. rewrite Hsep.
  pose proof (allb_impl _ _ _ digit_dot Hcd) as Hdot.
  rewrite takeWhile_all, dropWhile_all by assumption.
  apply negb_true_iff in Hcne. now rewrite Hcne.
Qed.

(** What extractCursorPos returns on a go-to-line query: the numerals go
    through ToNumber. *)
Lemma extractCursorPos_goto_numbers lineTxt col :
  isNumeral lineTxt = true -> isColumn col = true ->
  extractCursorPos (gotoQuery lineTxt col)
  = Some {| cp_query := gotoQuery lineTxt col;
            cp_local := true;
            cp_line := or0 (jsub (StringToNumber lineTxt) (of_Z 1));
            cp_ch := match col with
                     | Some (_, colTxt) => or0 (jsub (StringToNumber colTxt) (of_Z 1))
                     | None => of_Z 0
                     end |}.
Proof.
  intros Hl Hc. unfold extractCursorPos, String_match, gotoQuery.
  rewrite exec_from_colon, afterColon_goto by assumption.
  cbn [fst snd]. rewrite consumed_all.
  assert ((len (String ":" (lineTxt ++ columnSuffix col)) <=? 1) = false) as ->.
  { apply Z.leb_gt. rewrite len_String, len_app.
    pose proof (len_nonneg (columnSuffix col)).
    destruct lineTxt; [discriminate|]. rewrite len_String.
    pose proof (len_nonneg lineTxt). lia. }
  unfold group. cbn [mr_groups mr_text].
  assert (match col with
          | Some (sep, colTxt) =>
              <[2%nat := String sep colTxt]> (<[3%nat := colTxt]> {[1%nat := lineTxt]})
          | None => ({[1%nat := lineTxt]} : captures)
          end !! 1%nat = Some lineTxt) as ->.
  { destruct col as [[sep colTxt]|]; by simplify_map_eq. }
  rewrite truthyStr_numeral, isNaN_numeral by assumption.
  cbn [ToNumber].
  destruct col as [[sep colTxt]|].
  - simpl in Hc. apply andb_true_iff in Hc as [_ Hc].
    assert ((<[2%nat := String sep colTxt]> (<[3%nat := colTxt]> {[1%nat := lineTxt]})
             : captures) !! 3%nat = Some colTxt) as -> by (by simplify_map_eq).
    rewrite truthyStr_numeral, isNaN_numeral by assumption.
    reflexivity.
  - assert (({[1%nat := lineTxt]} : captures) !! 3%nat = None) as ->
        by (by simplify_map_eq).
    reflexivity.
Qed.

(** With numerals up to 2^53 the numbers are the values written. *)
Lemma extractCursorPos_goto lineTxt col :
  isNumeral lineTxt = true -> isColumn col = true ->
  numeralValue lineTxt <= 2 ^ 53 -> columnIndex col < 2 ^ 53 ->
  extractCursorPos (gotoQuery lineTxt col)
  = Some {| cp_query := gotoQuery lineTxt col;
            cp_local := true;
            cp_line := of_Z (numeralValue lineTxt - 1);
            cp_ch := of_Z (columnIndex col) |}.
Proof.
  intros Hl Hc Hlb Hcb. rewrite extractCursorPos_goto_numbers by assumption.
  pose proof (numeralValue_nonneg lineTxt Hl).
  rewrite StringToNumber_small, or0_sub1 by (assumption || lia).
  destruct col as [[sep colTxt]|]; [|reflexivity].
  simpl in Hc, Hcb. apply andb_true_iff in Hc as [_ Hc].
  pose proof (numeralValue_nonneg colTxt Hc).
  rewrite StringToNumber_small, or0_sub1 by (assumption || lia).
  reflexivity.
Qed.

End CursorPosFacts.

(** ** _filenameFromPath *)

Section FilenameFromPath.

Lemma filenameFromPath_with_extension_slash dir file :
  has "/" file = false -> _filenameFromPath (dir ++ String "/" file) true = file.
Proof.
  intros Hf. unfold _filenameFromPath.
  change "/" with (char "/"). rewrite lastIndexOf_present by assumption.
  replace (dir ++ String "/" file) with ((dir ++ "/") ++ file).
  - replace (len dir + 1) with (len (dir ++ "/")).
    + apply slice_suffix.
    + rewrite len_app. reflexivity.
  - clear. induction dir as [|c dir IH]; [reflexivity|].
    now rewrite !app_String, IH.
Qed.

Lemma filenameFromPath_with_extension_flat path :
  has "/" path = false -> _filenameFromPath path true = path.
Proof.
  intros Hp. unfold _filenameFromPath.
  change "/" with (char "/"). rewrite lastIndexOf_absent by assumption.
  apply slice_whole.
Qed.

Lemma filenameFromPath_dot_before_slash a m file :
  has "." m = false -> has "." file = false -> has "/" file = false ->
  _filenameFromPath (a ++ String "." (m ++ String "/" file)) false = "".
Proof.
  intros Hm Hfd Hfs.
  set (path := a ++ String "." (m ++ String "/" file)).
  assert (lastIndexOf path "." = len a) as Hdot.
  { apply (lastIndexOf_present "." a). rewrite has_app, Hm. simpl. exact Hfd. }
  assert (lastIndexOf path "/" = len a + (len m + 1)) as Hslash.
  { assert (path = (a ++ String "." m) ++ String "/" file) as ->.
    { unfold path. clear. induction a as [|c a IH]; [reflexivity|].
      now rewrite !app_String, IH. }
    rewrite (lastIndexOf_present "/" _ file Hfs).
    now rewrite len_app, len_String. }
  pose proof (len_nonneg a). pose proof (len_nonneg m).
  unfold _filenameFromPath. cbv zeta. rewrite Hdot, Hslash.
  rewrite (proj2 (Z.eqb_neq (len a) (-1))) by lia.
  apply slice_backwards; lia.
Qed.

(** C9: with the extension, _filenameFromPath returns what follows the
    last '/' (the whole path when there is none); without it, the second
    index is that of the last '.' of the whole path, so a path whose last
    '.' lies before its last '/' yields the empty string, as
    "dir.name/README" does. *)
Theorem filenameFromPath_behaviour :
  (forall dir file,
      has "/" file = false ->
      _filenameFromPath (dir ++ String "/" file) true = file)
  /\ (forall path, has "/" path = false -> _filenameFromPath path true = path)
  /\ (forall path,
        _filenameFromPath path false
        = slice path (lastIndexOf path "/" + 1)
                (if lastIndexOf path "." =? -1 then len path
                 else lastIndexOf path "."))
  /\ (forall a ext, has "." ext = false ->
                    lastIndexOf (a ++ String "." ext) "." = len a)
  /\ (forall path, has "." path = false -> lastIndexOf path "." = -1)
  /\ (forall a m file,
        has "." m = false -> has "." file = false -> has "/" file = false ->
        _filenameFromPath (a ++ String "." (m ++ String "/" file)) false = "")
  /\ _filenameFromPath "dir.name/README" false = "".
Proof.
  split; [exact filenameFromPath_with_extension_slash|].
  split; [exact filenameFromPath_with_extension_flat|].
  split; [reflexivity|].
  split; [intros a ext He; now apply (lastIndexOf_present "." a ext)|].
  split; [intros path Hp; now apply (lastIndexOf_absent "." path)|].
  split; [exact filenameFromPath_dot_before_slash|].
  reflexivity.
Qed.

Lemma filenameFromPath_behaviour_witness :
  _filenameFromPath ("src/search" ++ String "/" "QuickOpen.js") true = "QuickOpen.js"
  /\ _filenameFromPath "QuickOpen.js" true = "QuickOpen.js"
  /\ lastIndexOf ("QuickOpen" ++ String "." "js") "." = len "QuickOpen"
  /\ lastIndexOf "README" "." = -1
  /\ _filenameFromPath ("dir" ++ String "." ("name" ++ String "/" "README")) false = "".
Proof.
  destruct filenameFromPath_behaviour as (H1 & H2 & _ & H4 & H5 & H6 & _).
  split; [apply H1; reflexivity|].
  split; [apply H2; reflexivity|].
  split; [apply H4; reflexivity|].
  split; [apply H5; reflexivity|].
  apply H6; reflexivity.
Defined.

End FilenameFromPath.

(** ** Go to line *)

Section GoToLine.

Context `{Env}.

Lemma filterCallback_goto d query s cursorPos ed :
  goToLine query = Some cursorPos ->
  currentFullEditor (view (host s)) = Some ed ->
  _filterCallback d query s
  = if lineVisible cursorPos ed
    then (Ok FRNoError, selectLine cursorPos ed (with_currentPlugin None s))
    else (Ok (FROut (OutArray [])), with_currentPlugin None s).
Proof.
  intros Hg He. unfold _filterCallback. rewrite Hg.
  unfold mbind, M_bind, modify, gets. cbn [host with_currentPlugin].
  rewrite He. unfold updView, modify, mret, M_ret, selectLine.
  destruct (lineVisible cursorPos ed); reflexivity.
Qed.

Lemma lineVisible_of_Z query loc n c ed :
  lineVisible {| cp_query := query; cp_local := loc; cp_line := of_Z n; cp_ch := c |} ed
  = (ed_firstVisibleLine ed <=? n) && (n <=? ed_lastVisibleLine ed).
Proof. unfold lineVisible, jge. cbn [cp_line]. now rewrite !jle_of_Z. Qed.

(** C1, as the code has it: on the query ":N", ":N,M" or ":N:M" (N and
    M decimal numerals of value at most 2^53, which ToNumber converts
    without rounding) extractCursorPos returns local = true,
    line = N - 1, and ch = M - 1 when the column is given, 0 when it is
    not; _filterCallback then resets currentPlugin and, when line lies
    between the first and the last visible line of the current full
    editor, selects from (line, ch) to the end of that line and reports no
    error; otherwise it returns the empty list and selects nothing. *)
Theorem goto_line_query lineTxt col d s ed :
  isNumeral lineTxt = true ->
  isColumn col = true ->
  numeralValue lineTxt <= 2 ^ 53 ->
  columnIndex col < 2 ^ 53 ->
  currentFullEditor (view (host s)) = Some ed ->
  let line := numeralValue lineTxt - 1 in
  let cursorPos := {| cp_query := gotoQuery lineTxt col; cp_local := true;
                      cp_line := of_Z line; cp_ch := of_Z (columnIndex col) |} in
  extractCursorPos (gotoQuery lineTxt col) = Some cursorPos
  /\ _filterCallback d (gotoQuery lineTxt col) s
     = if (ed_firstVisibleLine ed <=? line) && (line <=? ed_lastVisibleLine ed)
       then (Ok FRNoError, selectLine cursorPos ed (with_currentPlugin None s))
       else (Ok (FROut (OutArray [])), with_currentPlugin None s).
Proof.
  intros Hl Hc Hlb Hcb He line cursorPos.
  pose proof (extractCursorPos_goto lineTxt col Hl Hc Hlb Hcb) as Hx.
  split; [exact Hx|].
  rewrite (filterCallback_goto d _ s cursorPos ed); [| |exact He].
  - unfold cursorPos. now rewrite lineVisible_of_Z.
  - unfold goToLine. now rewrite Hx.
Qed.

End GoToLine.

(** Typing ":5" selects line 5 (index 4), from column 0. *)
Lemma goto_line_query_witness :
  let s := init Fixture.host in
  let cursorPos := {| cp_query := ":5"; cp_local := true;
                      cp_line := of_Z 4; cp_ch := of_Z 0 |} in
  extractCursorPos ":5" = Some cursorPos
  /\ _filterCallback (H := Fixture.env) 0 ":5" s
     = (Ok FRNoError, selectLine cursorPos Fixture.editor (with_currentPlugin None s)).
Proof.
  exact (goto_line_query (H := Fixture.env) "5" None 0%nat (init Fixture.host)
           Fixture.editor eq_refl eq_refl ltac:(vm_compute; discriminate) eq_refl eq_refl).
Defined.

(** C1 as stated (ch = 0 whatever the column) fails on ":5,3": the column
    component is read, ch is 2. *)
Lemma goto_line_column_counterexample :
  extractCursorPos ":5,3"
  = Some {| cp_query := ":5,3"; cp_local := true; cp_line := of_Z 4; cp_ch := of_Z 2 |}
  /\ of_Z 2 <> of_Z 0.
Proof. split; [reflexivity | discriminate]. Qed.

(** ** Running the monadic code on a symbolic state *)

Section ListFacts.
Context {A : Type}.
Implicit Types (l : list A) (x y : A) (f : A -> A).

Lemma lookup_snoc l x : ((l ++ [x])%list !! length l) = Some x.
Proof. by apply list_lookup_middle. Qed.

Lemma alter_snoc f l x : alter f (length l) (l ++ [x])%list = (l ++ [f x])%list.
Proof. rewrite alter_app_r_alt by lia. by rewrite Nat.sub_diag. Qed.

Lemma lookup_snoc_snoc l x y : (((l ++ [x]) ++ [y])%list !! length l) = Some x.
Proof. rewrite lookup_app_l by (rewrite length_app; simpl; lia). apply lookup_snoc. Qed.

Lemma alter_snoc_snoc f l x y :
  alter f (length l) ((l ++ [x]) ++ [y])%list = ((l ++ [f x]) ++ [y])%list.
Proof. rewrite alter_app_l by (rewrite length_app; simpl; lia). by rewrite alter_snoc. Qed.


Lemma length_snoc l x : length (l ++ [x])%list = S (length l).
Proof. rewrite length_app. simpl. lia. Qed.

Lemma lookup_snoc_next l x y : (((l ++ [x]) ++ [y])%list !! S (length l)) = Some y.
Proof. rewrite <- (length_snoc l x). apply lookup_snoc. Qed.

Lemma alter_snoc_next f l x y :
  alter f (S (length l)) ((l ++ [x]) ++ [y])%list = ((l ++ [x]) ++ [f y])%list.
Proof. rewrite <- (length_snoc l x). apply alter_snoc. Qed.
End ListFacts.

Lemma consoleErrors_app cs cs' :
  consoleErrors (cs ++ cs')%list = (consoleErrors cs ++ consoleErrors cs')%list.
Proof. apply omap_app. Qed.

(** Unfolds the monad and the state updates, then reduces the projections. *)
Ltac mred :=
  cbv beta iota zeta delta
    [mbind M_bind mret M_ret gets modify call throw updView updDialog newPromise
     subscribe getPromise getDialog resolve allocDialog newStringMatcher
     with_calls with_promises with_dialogs with_fileList with_fileListPromise
     with_currentPlugin with_curDialog with_nextMatcher with_host with_view];
  cbn [fst snd host view calls promises dialogs fileList fileListPromise currentPlugin
       _curDialog nextMatcher
       currentDocument currentFullEditor getProvidersForLanguageId
       makeProjectRelativeIfPossible allFilesNow documentNow executeOpen
       p_owner p_settled p_callbacks add_callback set_settled fires
       isOpen closePromise _origDocPath _origSelections _origScrollPos
       _filenameMatcher _matchers searchField
       set_isOpen set_closePromise set_origDocPath set_origSelections
       set_origScrollPos set_matchers set_searchField].

Ltac mrun :=
  repeat (progress (mred;
                    rewrite ?alter_snoc, ?lookup_snoc, ?lookup_snoc_snoc, ?alter_snoc_snoc)).

(** Works out which console errors a list of calls holds. *)
Ltac errs :=
  unfold consoleErrors; rewrite ?omap_app; simpl; rewrite ?app_nil_r, <- ?app_assoc.

(** ** The "currentFileChange" handler *)

Section CurrentFileChange.

Context `{Env}.

(** C2: a failed load of a document is written to the console and goes no
    further (the handler and the settling of the promise return
    normally): always for the new file, whether there is an old file or
    not, and for the old file exactly when the error is not
    UNSUPPORTED_ENCODING.  A promise that is rejected when
    getDocumentForPath returns it is logged inside the handler, a pending
    one when the host rejects it; nothing else is written to the
    console. *)
Theorem currentFileChange_logs_failures s newFile oldFile :
  isBinaryPath (f_fullPath newFile) = false ->
  let answerNew := documentNow (host s) (f_fullPath newFile) in
  let answerOld := (fun o => documentNow (host s) (f_fullPath o)) <$> oldFile in
  documentAnswer answerNew ->
  (forall answer, answerOld = Some answer -> documentAnswer answer) ->
  let unlessEncoding err := negb (String.eqb err UNSUPPORTED_ENCODING) in
  let p := length (promises s) in
  let q := S (length (promises s)) in
  let r := onCurrentFileChange (Some newFile) oldFile s in
  fst r = Ok tt
  /\ consoleErrors (calls (snd r))
     = (consoleErrors (calls s)
        ++ rejectedNow (fun _ => true) answerNew
        ++ match answerOld with
           | Some answer => rejectedNow unlessEncoding answer
           | None => []
           end)%list
  /\ (answerNew = None ->
      forall err,
        fst (settle p (Rejected err) (snd r)) = Ok tt
        /\ consoleErrors (calls (snd (settle p (Rejected err) (snd r))))
           = (consoleErrors (calls (snd r)) ++ [err])%list)
  /\ (answerOld = Some None ->
      forall err,
        fst (settle q (Rejected err) (snd r)) = Ok tt
        /\ consoleErrors (calls (snd (settle q (Rejected err) (snd r))))
           = (consoleErrors (calls (snd r))
              ++ if unlessEncoding err then [err] else [])%list).
Proof.
  intros Hb answerNew answerOld Hnew Hold unlessEncoding p q r.
  subst answerNew answerOld unlessEncoding p q r. unfold rejectedNow.
  (* the run of the handler is worked out once in each case *)
  destruct oldFile as [oldFile|]; cbn [fmap option_fmap option_map] in *.
  - specialize (Hold _ eq_refl).
    destruct (documentNow (host s) (f_fullPath newFile)) as [[[| | |doc]|errNew]|] eqn:Hn;
      try contradiction;
      destruct (documentNow (host s) (f_fullPath oldFile)) as [[[| | |doc']|errOld]|] eqn:Ho;
      try contradiction;
      try destruct (String.eqb errOld UNSUPPORTED_ENCODING) eqn:Henc;
      (eassert (onCurrentFileChange (Some newFile) (Some oldFile) s = _) as Hrun;
       [ unfold onCurrentFileChange; rewrite Hb;
         unfold _setMenuItemStateForLanguage, getDocumentForPath;
         unfold run_newDoc, run_logError, run_oldDoc, run_logErrorUnlessEncoding;
         mrun; rewrite ?Hn; mrun; rewrite ?Ho; mrun; rewrite ?Henc; cbn [negb]; mrun;
         reflexivity
       | rewrite Hrun; clear Hrun; cbn [fst snd negb] ]);
      (split; [reflexivity|]); (split; [mred; errs; reflexivity|]);
      (split; [try discriminate|try discriminate]);
      intros _ err; unfold settle;
      mred; rewrite ?lookup_snoc_next, ?alter_snoc_next, ?lookup_snoc_snoc, ?alter_snoc_snoc;
      mred; cbn [app fire run_callback fires];
      unfold run_logError, run_logErrorUnlessEncoding; mred;
      try (destruct (String.eqb err UNSUPPORTED_ENCODING); cbn [negb]; mred);
      (split; [reflexivity|errs; reflexivity]).
  - destruct (documentNow (host s) (f_fullPath newFile)) as [[[| | |doc]|errNew]|] eqn:Hn;
      try contradiction;
      (eassert (onCurrentFileChange (Some newFile) None s = _) as Hrun;
       [ unfold onCurrentFileChange; rewrite Hb;
         unfold _setMenuItemStateForLanguage, getDocumentForPath;
         unfold run_newDoc, run_logError;
         mrun; rewrite ?Hn; mrun; reflexivity
       | rewrite Hrun; clear Hrun; cbn [fst snd] ]);
      (split; [reflexivity|]); (split; [mred; errs; reflexivity|]);
      (split; [try discriminate|discriminate]);
      intros _ err; unfold settle; mrun; cbn [app fire run_callback fires];
      unfold run_logError; mred;
      (split; [reflexivity|errs; reflexivity]).
Qed.

End CurrentFileChange.

(** ** The file search *)

Section StrippedQuery.

Lemma isCode_eq n c : JSRegExp.isCode n c = true -> c = ascii_of_N (Z.to_N n).
Proof.
  unfold JSRegExp.isCode, code. intros Hc%Z.eqb_eq. subst n.
  now rewrite N2Z.id, ascii_N_embedding.
Qed.

Lemma allb_dropWhile p q s : allb p s = true -> allb p (dropWhile q s) = true.
Proof.
  induction s as [|c s IH]; [trivial|]. simpl.
  intros [Hc Hs]%andb_true_iff. destruct (q c); [auto|]. simpl. now rewrite Hc.
Qed.

(** Without a line terminator the pattern runs to the end of the text. *)
Lemma afterColon_rest body : allb dot body = true -> fst (afterColon body) = "".
Proof.
  intros Hb. unfold afterColon, columnPart. cbv zeta.
  pose proof (dropWhile_head nonSep body) as Hh.
  pose proof (allb_dropWhile dot nonSep body Hb) as Ht.
  destruct (dropWhile nonSep body) as [|sep t2]; [reflexivity|].
  simpl in Hh, Ht. apply andb_true_iff in Ht as [_ Ht].
  unfold nonSep in Hh. apply negb_false_iff in Hh. rewrite Hh. cbn [fst].
  now apply dropWhile_all.
Qed.

Lemma prefix_refl s : String.prefix s s = true.
Proof.
  induction s as [|c s IH]; [reflexivity|]. simpl.
  destruct (ascii_dec c c); [assumption | congruence].
Qed.

Lemma indexOf_from_skip pre body i :
  allb notColon pre = true ->
  indexOf_from (String ":" body) (pre ++ String ":" body) i = i + len pre.
Proof.
  revert i. induction pre as [|c pre IH]; intros i Hp.
  - rewrite app_empty. cbn [indexOf_from]. rewrite prefix_refl.
    unfold len. simpl. lia.
  - simpl in Hp. apply andb_true_iff in Hp as [Hc Hp].
    rewrite app_String. cbn [indexOf_from].
    assert (String.prefix (String ":" body) (String c (pre ++ String ":" body)) = false)
      as ->.
    { cbn [String.prefix].
      destruct (ascii_dec ":" c) as [<-|]; [discriminate Hc | reflexivity]. }
    rewrite IH by assumption. rewrite len_String. lia.
Qed.

Lemma slice_prefix s t : slice (s ++ t) 0 (len s) = s.
Proof.
  unfold slice, clamp. pose proof (len_nonneg s). pose proof (len_nonneg t).
  pose proof (len_app s t).
  rewrite (proj2 (Z.ltb_ge 0 0)) by lia.
  rewrite (proj2 (Z.ltb_ge (len s) 0)) by lia.
  rewrite !Z.min_l by lia. rewrite Z.sub_0_r, Z.max_l by lia.
  unfold len. rewrite Nat2Z.id. simpl Z.to_nat. apply substring_prefix.
Qed.

Lemma String_replace_suffix pre body :
  allb notColon pre = true ->
  String_replace (pre ++ String ":" body) (String ":" body) "" = pre.
Proof.
  intros Hp. unfold String_replace, indexOf.
  rewrite indexOf_from_skip by assumption. cbv zeta.
  pose proof (len_nonneg pre). pose proof (len_nonneg (String ":" body)).
  rewrite (proj2 (Z.ltb_ge (0 + len pre) 0)) by lia.
  rewrite Z.add_0_l, slice_prefix, app_empty.
  rewrite (len_app pre (String ":" body)).
  rewrite slice_backwards by lia. apply app_empty_r.
Qed.

(** A query is its part before the first colon followed by the rest. *)
Lemma split_at_colon query :
  allb notColon query = true
  \/ exists body, query = takeWhile notColon query ++ String ":" body.
Proof.
  pose proof (span_app notColon query) as Hq.
  pose proof (dropWhile_head notColon query) as Hh.
  destruct (dropWhile notColon query) as [|c body] eqn:Hd.
  - left. rewrite app_empty_r in Hq. rewrite <- Hq. clear.
    induction query as [|c s IH]; [reflexivity|]. simpl.
    destruct (notColon c) eqn:Hc; [|reflexivity]. simpl. now rewrite Hc.
  - right. exists body. simpl in Hh. unfold notColon in Hh.
    apply negb_false_iff, isCode_eq in Hh.
    change (ascii_of_N (Z.to_N 58)) with ":"%char in Hh. subst c. now rewrite Hq.
Qed.

Lemma allb_takeWhile p s : allb p (takeWhile p s) = true.
Proof.
  induction s as [|c s IH]; [reflexivity|]. simpl.
  destruct (p c) eqn:Hc; [|reflexivity]. simpl. now rewrite Hc.
Qed.

(** On a query without a line terminator, what strippedQuery removes is
    the suffix that starts at the first colon. *)
Lemma strippedQuery_suffix query cursorPos :
  allb dot query = true ->
  extractCursorPos query = Some cursorPos ->
  cp_local cursorPos = false ->
  query = strippedQuery query ++ cp_query cursorPos
  /\ strippedQuery query = takeWhile notColon query.
Proof.
  intros Hdot Hx Hloc.
  destruct (split_at_colon query) as [Hnone|[body Hq]].
  { unfold extractCursorPos, String_match in Hx.
    now rewrite exec_from_none in Hx. }
  pose proof (allb_takeWhile notColon query) as Hpre.
  set (pre := takeWhile notColon query) in *.
  assert (allb dot body = true) as Hbody.
  { rewrite Hq, allb_app in Hdot. apply andb_true_iff in Hdot as [_ Hd].
    simpl in Hd. exact Hd. }
  assert (cp_query cursorPos = String ":" body) as Hcq.
  { unfold extractCursorPos, String_match in Hx. rewrite Hq in Hx.
    rewrite exec_from_skip, exec_from_colon in Hx by assumption.
    rewrite afterColon_rest, consumed_all in Hx by assumption.
    cbn [mr_text] in Hx.
    destruct (_ || _) in Hx; [discriminate|].
    injection Hx as <-. reflexivity. }
  assert (strippedQuery query = pre) as Hs.
  { unfold strippedQuery. rewrite Hx, Hloc, Hcq. cbn [negb andb String.eqb].
    rewrite Hq at 1. now apply String_replace_suffix. }
  split; [|exact Hs]. rewrite Hs, Hcq. exact Hq.
Qed.

End StrippedQuery.

Section DoSearchFileList.

Context `{Env}.

(** [matcher.match] on the project-relative full path of a file. *)
Let matchOf (s : State) (matcher : StringMatcher) (query : string) (file : File)
  : option SearchResult :=
  StringMatcher_match matcher (makeProjectRelativeIfPossible (host s) (f_fullPath file))
                      query.

Lemma omap_filter_pairs (f : File -> option SearchResult) (files : list File) :
  exists pairs : list (File * SearchResult),
    pairs.*1 = filter (fun file => is_Some (f file)) files
    /\ Forall (fun fr => f fr.1 = Some fr.2) pairs
    /\ omap (fun file => withFileInfo file <$> f file) files
       = (fun fr => withFileInfo fr.1 fr.2) <$> pairs.
Proof.
  induction files as [|file files (pairs & H1 & H2 & H3)].
  - exists []. repeat split; constructor.
  - destruct (f file) as [sr|] eqn:Hf.
    + exists ((file, sr) :: pairs). split; [|split].
      * rewrite filter_cons_True by (rewrite Hf; eauto).
        rewrite fmap_cons. cbn [fst]. now rewrite H1.
      * constructor; [exact Hf | exact H2].
      * rewrite fmap_cons. cbn [omap list_omap fst snd]. rewrite Hf.
        cbn [fmap option_fmap option_map]. f_equal. exact H3.
    + exists pairs. split; [|split].
      * rewrite filter_cons_False; [exact H1|]. rewrite Hf. now intros [? ?].
      * exact H2.
      * cbn [omap list_omap]. rewrite Hf. exact H3.
Qed.

(** C5: _doSearchFileList searches for the query without its line/column
    part when that part is not local (on a query of one line what is
    removed is a suffix); the results are those of the files on which
    matcher.match succeeds on the project-relative full path, in the order
    of fileList, each with label, fullPath and filenameWithoutExtension
    attached; and the list returned is what multiFieldSort makes of it
    with the priorities matchGoodness 0, filenameWithoutExtension 1,
    label 2, fullPath 3. *)
Theorem doSearchFileList_behaviour s query matcher :
  (forall cursorPos,
      extractCursorPos query = Some cursorPos ->
      (cp_local cursorPos = true -> strippedQuery query = query)
      /\ (cp_local cursorPos = false -> allb dot query = true ->
          query = strippedQuery query ++ cp_query cursorPos))
  /\ (extractCursorPos query = None -> strippedQuery query = query)
  /\ exists pairs : list (File * SearchResult),
      pairs.*1
      = filter (fun file => is_Some (matchOf s matcher (strippedQuery query) file))
               (default [] (fileList s))
      /\ Forall (fun fr => matchOf s matcher (strippedQuery query) fr.1 = Some fr.2) pairs
      /\ _doSearchFileList s query matcher
         = multiFieldSort
             ((fun fr =>
                 {| sr_label := f_name fr.1;
                    sr_matchGoodness := sr_matchGoodness fr.2;
                    sr_stringRanges := sr_stringRanges fr.2;
                    sr_fullPath := Some (f_fullPath fr.1);
                    sr_filenameWithoutExtension :=
                      Some (_filenameFromPath (f_name fr.1) false) |}) <$> pairs)
             [ ("matchGoodness", 0); ("filenameWithoutExtension", 1);
               ("label", 2); ("fullPath", 3) ].
Proof.
  split; [|split].
  - intros cursorPos Hx. split.
    + intros Hloc. unfold strippedQuery. now rewrite Hx, Hloc.
    + intros Hloc Hdot. now apply strippedQuery_suffix.
  - intros Hx. unfold strippedQuery. now rewrite Hx.
  - destruct (omap_filter_pairs (matchOf s matcher (strippedQuery query))
                                (default [] (fileList s)))
      as (pairs & H1 & H2 & H3).
    exists pairs. split; [exact H1|]. split; [exact H2|].
    unfold _doSearchFileList, jQuery_map, fieldSpec. cbv zeta.
    f_equal. refine (eq_trans _ H3).
    generalize (default [] (fileList s)). intros files.
    induction files as [|file files IH]; [reflexivity|].
    cbn [omap list_omap]. rewrite IH. unfold matchOf.
    now destruct (StringMatcher_match _ _ _).
Qed.

End DoSearchFileList.

Section SearchFileList.

Context `{Env}.




End SearchFileList.

(** ** Frames: what a computation leaves alone *)

Section FrameRules.

Context `{Env} (R : State -> State -> Prop) `{!Frame R}.

Lemma preserves_ret {A} (a : A) : preserves R (mret a).
Proof. intros s. apply frame_refl. Qed.

Lemma preserves_bind {A B} (m : M A) (k : A -> M B) :
  preserves R m -> (forall a, preserves R (k a)) -> preserves R (m ≫= k).
Proof.
  intros Hm Hk s. unfold mbind, M_bind. specialize (Hm s).
  destruct (m s) as [[a|e] s']; cbn [snd] in *.
  - eapply frame_trans; [exact Hm | apply Hk].
  - exact Hm.
Qed.

(** The same at one state, for steps that depend on it. *)
Lemma bind_at {A B} (m : M A) (k : A -> M B) s :
  R s (snd (m s)) ->
  (forall a s', m s = (Ok a, s') -> R s' (snd (k a s'))) ->
  R s (snd ((m ≫= k) s)).
Proof.
  intros Hm Hk. unfold mbind, M_bind.
  destruct (m s) as [[a|e] s'] eqn:Hms; cbn [snd] in *.
  - eapply frame_trans; [exact Hm | now apply Hk].
  - exact Hm.
Qed.

Lemma preserves_throw {A} e : preserves R (throw (A := A) e).
Proof. intros s. apply frame_refl. Qed.

Lemma preserves_gets {A} (f : State -> A) : preserves R (gets f).
Proof. intros s. apply frame_refl. Qed.

Lemma preserves_call c : preserves R (call c).
Proof. intros s. apply frame_calls. Qed.

Lemma preserves_getDialog d : preserves R (getDialog d).
Proof. intros s. unfold getDialog. destruct (dialogs s !! d); apply frame_refl. Qed.

Lemma preserves_getPromise p : preserves R (getPromise p).
Proof. intros s. unfold getPromise. destruct (promises s !! p); apply frame_refl. Qed.

Lemma preserves_newPromise o st : preserves R (newPromise o st).
Proof. intros s. apply frame_promises. Qed.

Lemma preserves_updView f : preserves R (updView f).
Proof. intros s. apply frame_view. Qed.

Lemma preserves_newStringMatcher o : preserves R (newStringMatcher o).
Proof.
  intros s. unfold newStringMatcher. cbn [snd].
  eapply frame_trans; [apply frame_nextMatcher | apply frame_calls].
Qed.

Lemma preserves_set_currentPlugin v : preserves R (modify (with_currentPlugin v)).
Proof. intros s. apply frame_currentPlugin. Qed.

Lemma preserves_set_curDialog v : preserves R (modify (with_curDialog v)).
Proof. intros s. apply frame_curDialog. Qed.

Lemma preserves_set_fileListPromise v : preserves R (modify (with_fileListPromise v)).
Proof. intros s. apply frame_fileListPromise. Qed.

Lemma preserves_set_promises (f : State -> list Promise) :
  preserves R (modify (fun s => with_promises (f s) s)).
Proof. intros s. apply frame_promises. Qed.

End FrameRules.

(** Splits a computation along its binds and case distinctions and closes
    the leaves with the rules of the hint database [frame]. *)
Create HintDb frame.

#[global] Hint Resolve preserves_ret preserves_throw preserves_gets preserves_call
  preserves_getDialog preserves_getPromise preserves_newPromise preserves_updView
  preserves_newStringMatcher preserves_set_currentPlugin preserves_set_curDialog
  preserves_set_fileListPromise preserves_set_promises : frame.

Ltac frame_step :=
  match goal with
  | |- preserves _ (_ ≫= _) => refine (preserves_bind _ _ _ _ _); [| intros ?]
  | |- preserves _ (match ?x with _ => _ end) => destruct x
  | |- preserves _ (if ?x then _ else _) => destruct x
  | |- preserves _ (let _ := _ in _) => cbv zeta
  | |- preserves _ _ => solve [eauto with frame typeclass_instances]
  end.

Ltac frame := repeat frame_step.

Section FrameFunctions.

Context `{Env} (R : State -> State -> Prop) `{!Frame R}.

Lemma preserves_resolve p v : preserves R (resolve p v).
Proof. unfold resolve. frame. Qed.

Lemma preserves_subscribe k p cb run :
  (forall st, preserves R (run st)) -> preserves R (subscribe k p cb run).
Proof. intros Hrun. unfold subscribe. frame. Qed.

Lemma preserves_onEditor f : preserves R (onEditor f).
Proof. unfold onEditor. frame. Qed.

Lemma preserves_doneLoop plugins : preserves R (doneLoop plugins).
Proof. induction plugins as [|entry rest IH]; cbn [doneLoop]; frame. Qed.

Lemma preserves_getPluginsForCurrentContext : preserves R _getPluginsForCurrentContext.
Proof. unfold _getPluginsForCurrentContext. frame. Qed.

Lemma preserves_addQuickOpenPlugin pluginDef prio :
  preserves R (addQuickOpenPlugin pluginDef prio).
Proof. unfold addQuickOpenPlugin. frame. Qed.

Lemma preserves_updateDialogLabel d plugin query :
  preserves R (_updateDialogLabel d plugin query).
Proof. unfold _updateDialogLabel. frame. Qed.

Lemma preserves_setSearchFieldValue d prefix initialString :
  preserves R (setSearchFieldValue d prefix initialString).
Proof. unfold setSearchFieldValue. frame. Qed.

Lemma preserves_getAllFiles : preserves R getAllFiles.
Proof. unfold getAllFiles. frame. Qed.

Lemma preserves_run_searchFileList a query matcher st :
  preserves R (run_searchFileList a query matcher st).
Proof. unfold run_searchFileList. pose proof preserves_resolve. frame. Qed.

Lemma preserves_searchFileList query matcher :
  preserves R (searchFileList query matcher).
Proof.
  unfold searchFileList.
  pose proof (fun a st => preserves_run_searchFileList a query matcher st).
  pose proof preserves_subscribe. frame.
Qed.

Lemma preserves_run_setCursorPos cursorPos st :
  preserves R (run_setCursorPos cursorPos st).
Proof. unfold run_setCursorPos. pose proof preserves_onEditor. frame. Qed.

Lemma preserves_handleItemHighlight selectedItem query explicit :
  preserves R (_handleItemHighlight selectedItem query explicit).
Proof. unfold _handleItemHighlight. frame. Qed.

Lemma preserves_setMenuItemStateForLanguage languageId :
  preserves R (_setMenuItemStateForLanguage languageId).
Proof. unfold _setMenuItemStateForLanguage. frame. Qed.

Lemma preserves_getDocumentForPath path : preserves R (getDocumentForPath path).
Proof. unfold getDocumentForPath. frame. Qed.

Lemma preserves_run_newDoc st : preserves R (run_newDoc st).
Proof. unfold run_newDoc. frame. Qed.

Lemma preserves_run_oldDoc st : preserves R (run_oldDoc st).
Proof. unfold run_oldDoc. frame. Qed.

Lemma preserves_run_logError st : preserves R (run_logError st).
Proof. unfold run_logError. frame. Qed.

Lemma preserves_run_logErrorUnlessEncoding st :
  preserves R (run_logErrorUnlessEncoding st).
Proof. unfold run_logErrorUnlessEncoding. frame. Qed.

Lemma preserves_onCurrentFileChange newFile oldFile :
  preserves R (onCurrentFileChange newFile oldFile).
Proof.
  unfold onCurrentFileChange, disableGotoDefinition.
  pose proof preserves_setMenuItemStateForLanguage.
  pose proof preserves_getDocumentForPath.
  pose proof preserves_run_newDoc. pose proof preserves_run_oldDoc.
  pose proof preserves_run_logError. pose proof preserves_run_logErrorUnlessEncoding.
  pose proof preserves_subscribe. frame.
Qed.

Lemma preserves_onLanguageChanged path : preserves R (onLanguageChanged path).
Proof. unfold onLanguageChanged. apply preserves_setMenuItemStateForLanguage. Qed.

End FrameFunctions.

(** The functions built on close, createDialog and the plug-in loop keep
    whatever those keep. *)
Section FrameComposite.

Context `{Env} (R : State -> State -> Prop) `{!Frame R}.

Hypothesis Hclose : forall d, preserves R (close d).
Hypothesis Hcreate : forall prefix initialString,
    preserves R (createDialog prefix initialString).
Hypothesis Hloop : forall d query plugins, preserves R (pluginLoop d query plugins).

Lemma preserves_run_close d st : preserves R (run_close d st).
Proof. unfold run_close. frame. Qed.

Lemma preserves_handleItemSelect d selectedItem query :
  preserves R (_handleItemSelect d selectedItem query).
Proof.
  unfold _handleItemSelect, execute_addToWorkingSetAndOpen.
  pose proof (preserves_onEditor R). pose proof (preserves_subscribe R).
  pose proof (preserves_run_setCursorPos R). pose proof preserves_run_close.
  frame.
Qed.

Lemma preserves_filterCallback d query : preserves R (_filterCallback d query).
Proof.
  unfold _filterCallback.
  pose proof (preserves_getPluginsForCurrentContext R).
  pose proof (preserves_updateDialogLabel R).
  pose proof (preserves_searchFileList R).
  frame.
Qed.

Lemma preserves_beginSearch prefix initialString :
  preserves R (beginSearch prefix initialString).
Proof.
  unfold beginSearch.
  pose proof (preserves_setSearchFieldValue R). pose proof (preserves_subscribe R).
  frame.
Qed.

(** Every closure but the one that stores the loaded file list. *)
Lemma preserves_run_callback cb st :
  (forall d, cb <> CbFilesLoaded d) -> preserves R (run_callback cb st).
Proof.
  intros Hcb. destruct cb; cbn [run_callback].
  - now destruct (Hcb d).
  - apply preserves_run_searchFileList; assumption.
  - apply Hcreate.
  - apply preserves_run_setCursorPos; assumption.
  - apply preserves_run_close.
  - apply preserves_run_newDoc; assumption.
  - apply preserves_run_logError; assumption.
  - apply preserves_run_oldDoc; assumption.
  - apply preserves_run_logErrorUnlessEncoding; assumption.
Qed.


Lemma preserves_whenOpen d m : preserves R m -> preserves R (whenOpen d m).
Proof. intros Hm. unfold whenOpen. frame. Qed.


(** With the closure that stores the file list, when the relation allows it. *)
Section WithFilesLoaded.

Hypothesis Hfiles : forall d st, preserves R (run_filesLoaded d st).

Lemma preserves_run_callback_all cb st : preserves R (run_callback cb st).
Proof.
  destruct cb as [d| | | | | | | |];
    try (apply preserves_run_callback; intros d'; discriminate).
  apply Hfiles.
Qed.

Lemma preserves_fire_all st cbs : preserves R (fire st cbs).
Proof.
  induction cbs as [|[k cb] cbs IH]; cbn [fire].
  - apply preserves_ret; assumption.
  - pose proof preserves_run_callback_all. frame.
Qed.

Lemma preserves_settle_all p st : preserves R (settle p st).
Proof.
  unfold settle. pose proof preserves_fire_all.
  refine (preserves_bind _ _ _ _ _); [apply preserves_gets; assumption|].
  intros [[[] [] cbs]|]; frame.
Qed.

End WithFilesLoaded.

End FrameComposite.

(** ** What the module keeps of a dialog *)

Section KeepsDialog.

Context `{Env} (d : nat).

Lemma keepsDialog_same s s' : dialogs s' = dialogs s -> keepsDialog d s s'.
Proof. intros Hd dlg Hl. exists dlg. rewrite Hd. repeat split; auto. Qed.

#[local] Instance keepsDialog_frame : Frame (keepsDialog d).
Proof.
  split; try (intros; now apply keepsDialog_same).
  intros a b c Hab Hbc dlg Ha.
  destruct (Hab dlg Ha) as (dlg1 & Hb & H1 & H2 & H3 & H4 & H5 & H6).
  destruct (Hbc dlg1 Hb) as (dlg2 & Hc & K1 & K2 & K3 & K4 & K5 & K6).
  exists dlg2. split; [exact Hc|].
  do 4 (split; [congruence|]). split; [auto|].
  intros Hclosed. destruct (H6 Hclosed) as [Ho Hp].
  destruct (K6 Ho) as [Ho' Hq]. split; congruence.
Qed.

#[local] Instance keepsDialog_files : FrameFiles (keepsDialog d).
Proof. split. intros. now apply keepsDialog_same. Qed.

Lemma keepsDialog_host s h : keepsDialog d s (with_host h s).
Proof. now apply keepsDialog_same. Qed.

Lemma keepsDialog_alloc s g : keepsDialog d s (with_dialogs (dialogs s ++ [g]) s).
Proof.
  intros dlg Hl. exists dlg. split; [|repeat split; auto].
  cbn [dialogs with_dialogs]. rewrite lookup_app_l; [exact Hl|].
  eapply lookup_lt_Some, Hl.
Qed.

(** An update of a field that [keepsDialog] does not look at. *)
Lemma keepsDialog_alter s s' d' (f : Dialog -> Dialog) :
  dialogs s' = alter f d' (dialogs s) ->
  (d' = d ->
   forall g, dialogs s !! d = Some g ->
             _origDocPath (f g) = _origDocPath g
             /\ _origSelections (f g) = _origSelections g
             /\ _origScrollPos (f g) = _origScrollPos g
             /\ _filenameMatcher (f g) = _filenameMatcher g
             /\ (forall key m, matchers_get (_matchers g) key = Some m ->
                               matchers_get (_matchers (f g)) key = Some m)
             /\ (isOpen g = false ->
                 isOpen (f g) = false /\ closePromise (f g) = closePromise g)) ->
  keepsDialog d s s'.
Proof.
  intros Hs' Hf dlg Hl. rewrite Hs'.
  destruct (decide (d' = d)) as [->|Hne].
  - exists (f dlg). rewrite list_lookup_alter_eq, Hl. split; [reflexivity|].
    now apply Hf.
  - exists dlg. rewrite list_lookup_alter_ne by assumption.
    split; [exact Hl|]. repeat split; auto.
Qed.

Lemma preserves_updDialog_other d' f :
  d' <> d -> preserves (keepsDialog d) (updDialog d' f).
Proof.
  intros Hne s. eapply keepsDialog_alter; [reflexivity|]. intros ->. now destruct Hne.
Qed.

Lemma preserves_set_isOpen_false d' :
  preserves (keepsDialog d) (updDialog d' (set_isOpen false)).
Proof.
  intros s. eapply keepsDialog_alter; [reflexivity|]. intros _ g _. repeat split; auto.
Qed.

Lemma preserves_set_searchField d' b :
  preserves (keepsDialog d) (updDialog d' (set_searchField b)).
Proof.
  intros s. eapply keepsDialog_alter; [reflexivity|]. intros _ g _. repeat split; auto.
Qed.

Lemma preserves_allocDialog g : preserves (keepsDialog d) (allocDialog g).
Proof. intros s. apply keepsDialog_alloc. Qed.

Lemma preserves_run_filesLoaded d' st : preserves (keepsDialog d) (run_filesLoaded d' st).
Proof.
  unfold run_filesLoaded.
  assert (forall v, preserves (keepsDialog d) (modify (with_fileList v)))
    by (intros v s; apply frame_fileList).
  frame.
Qed.

(** The plug-in loop only ever adds an entry to the matcher cache. *)
Lemma preserves_pluginLoop d' query plugins :
  preserves (keepsDialog d) (pluginLoop d' query plugins).
Proof.
  induction plugins as [|entry rest IH]; cbn [pluginLoop].
  - apply preserves_ret. apply _.
  - destruct (match_ (provider entry) query); [|exact IH].
    intros s. unfold _updateDialogLabel. mred.
    destruct (dialogs s !! d') as [g|] eqn:Hg; mred;
      [|now apply keepsDialog_same].
    destruct (matchers_get (_matchers g) (name (provider entry))) as [m|] eqn:Hm; mred.
    + now apply keepsDialog_same.
    + eapply keepsDialog_alter; [reflexivity|].
      intros -> g' Hg'. assert (g' = g) as -> by congruence.
      repeat split; auto. cbn [_matchers set_matchers].
      intros key m Hk. unfold matchers_get in *.
      destruct (decide (key = name (provider entry))) as [->|Hne].
      * rewrite Hm in Hk. discriminate.
      * now rewrite lookup_insert_ne by congruence.
Qed.

End KeepsDialog.

Section KeepsDialogLifecycle.

Context `{Env} (d : nat).

Existing Instance keepsDialog_frame.
Existing Instance keepsDialog_files.

(** Closing the bar of another dialog, or of this one while it is open. *)
Lemma keepsDialog_handleCloseBar d' reason p s :
  (d' = d -> forall g, dialogs s !! d = Some g -> isOpen g = true) ->
  keepsDialog d s (snd (_handleCloseBar d' reason p s)).
Proof.
  intros Hopen. unfold _handleCloseBar.
  apply (bind_at (keepsDialog d)); [apply preserves_getDialog; apply _|].
  intros dlg s0 Hget.
  assert (s0 = s) as ->.
  { unfold getDialog in Hget. destruct (dialogs s !! d'); congruence. }
  clear Hget.
  apply (bind_at (keepsDialog d)).
  { destruct (closePromise dlg); [apply preserves_call | apply preserves_ret]; apply _. }
  intros [] s1 Hs1.
  assert (dialogs s1 = dialogs s) as Hd1.
  { destruct (closePromise dlg); injection Hs1 as <-; reflexivity. }
  clear Hs1.
  apply (bind_at (keepsDialog d)).
  { eapply keepsDialog_alter; [reflexivity|].
    intros -> g Hg. rewrite Hd1 in Hg.
    do 5 (split; [auto|]). intros Hclosed.
    rewrite (Hopen eq_refl g Hg) in Hclosed. discriminate. }
  intros _ s2 _. revert s2.
  change (preserves (keepsDialog d)
            (updDialog d' (set_isOpen false);;
             plugins ← _getPluginsForCurrentContext;
             doneLoop plugins;;
             call (SearchFieldDestroy d');;
             (if String.eqb reason CLOSE_ESCAPE
              then
                editor ← gets (fun s => currentFullEditor (view (host s)));
                match editor, _origSelections dlg with
                | Some _, Some sels => onEditor (setSelections sels)
                | _, _ => mret tt
                end;;
                match editor, _origScrollPos dlg with
                | Some _, Some (x, y) => onEditor (setScrollPos x y)
                | _, _ => mret tt
                end
              else mret tt))).
  pose proof (preserves_set_isOpen_false d d').
  pose proof (preserves_getPluginsForCurrentContext (keepsDialog d)).
  pose proof (preserves_doneLoop (keepsDialog d)).
  pose proof (preserves_onEditor (keepsDialog d)).
  frame.
Qed.

Lemma preserves_close d' : preserves (keepsDialog d) (close d').
Proof.
  intros s. unfold close.
  apply (bind_at (keepsDialog d)); [apply preserves_getDialog; apply _|].
  intros dlg s0 Hget.
  assert (s0 = s /\ dialogs s !! d' = Some dlg) as [-> Hdlg].
  { unfold getDialog in Hget. destruct (dialogs s !! d'); split; congruence. }
  clear Hget.
  destruct (isOpen dlg) eqn:Ho; cbn [negb]; [|apply frame_refl].
  apply (bind_at (keepsDialog d)).
  - unfold modalBar_close.
    apply (bind_at (keepsDialog d)); [apply preserves_call; apply _|].
    intros [] s1 Hs1. injection Hs1 as <-.
    apply (bind_at (keepsDialog d)); [apply preserves_newPromise; apply _|].
    intros p s2 Hs2. injection Hs2 as <- <-.
    apply keepsDialog_handleCloseBar. intros -> g Hg.
    cbn [dialogs with_promises with_calls] in Hg. congruence.
  - intros _ s1 _. revert s1.
    change (preserves (keepsDialog d) (dlg' ← getDialog d'; mret (closePromise dlg'))).
    frame.
Qed.

(** Showing another dialog. *)
Lemma preserves_showDialog d' prefix initialString :
  d' <> d -> preserves (keepsDialog d) (showDialog d' prefix initialString).
Proof.
  intros Hne. unfold showDialog.
  pose proof (fun f => preserves_updDialog_other d d' f Hne).
  pose proof (preserves_getAllFiles (keepsDialog d)).
  pose proof (preserves_subscribe (keepsDialog d)).
  pose proof (preserves_run_filesLoaded d).
  pose proof (preserves_setSearchFieldValue (keepsDialog d)).
  frame.
Qed.

(** A new dialog gets an index of its own. *)
Lemma preserves_createDialog prefix initialString :
  preserves (keepsDialog d) (createDialog prefix initialString).
Proof.
  intros s. destruct (dialogs s !! d) as [dlg0|] eqn:Hd0.
  2:{ intros dlg Hdlg. congruence. }
  pose proof (lookup_lt_Some _ _ _ Hd0) as Hlt.
  unfold createDialog, QuickNavigateDialog.
  apply (bind_at (keepsDialog d)).
  { pose proof (preserves_allocDialog d).
    revert s Hd0 Hlt. intros s _ _. revert s.
    change (preserves (keepsDialog d)
              (fm ← newStringMatcher
                      (Some {| preferPrefixMatches := false; segmentedSearch := true |});
               allocDialog {| isOpen := false; closePromise := None;
                              _origDocPath := None; _origSelections := None;
                              _origScrollPos := None; _filenameMatcher := fm;
                              _matchers := ∅; searchField := false |})).
    frame. }
  intros d' s1 Hs1.
  assert (d' = length (dialogs s)) as ->.
  { revert Hs1. mred. now intros [= <- _]. }
  clear Hs1. revert s1.
  change (preserves (keepsDialog d)
            (modify (with_curDialog (Some (length (dialogs s))));;
             showDialog (length (dialogs s)) prefix initialString)).
  pose proof (preserves_showDialog (length (dialogs s)) prefix initialString
                ltac:(lia)).
  frame.
Qed.

End KeepsDialogLifecycle.

Section KeepsDialogRun.

Context `{Env} (d : nat).

Existing Instance keepsDialog_frame.
Existing Instance keepsDialog_files.

(** No event takes anything [keepsDialog] names from a dialog. *)
Lemma keepsDialog_step s e : keepsDialog d s (step s e).
Proof.
  unfold step.
  pose proof (preserves_close d) as Hclose.
  pose proof (preserves_createDialog d) as Hcreate.
  pose proof (preserves_pluginLoop d) as Hloop.
  destruct e as [prefix initialString|d' query|d' item query|d' item query explicit
                 |d' reason|p st| |newFile oldFile|path|pluginDef prio|h];
    cbn [handle].
  - apply (preserves_beginSearch (keepsDialog d) Hclose Hcreate).
  - apply (preserves_whenOpen (keepsDialog d)).
    pose proof (preserves_filterCallback (keepsDialog d) Hloop). frame.
  - apply (preserves_whenOpen (keepsDialog d)).
    apply (preserves_handleItemSelect (keepsDialog d) Hclose).
  - apply (preserves_whenOpen (keepsDialog d)).
    apply (preserves_handleItemHighlight (keepsDialog d)).
  - unfold whenOpen.
    apply (bind_at (keepsDialog d)); [apply (preserves_gets (keepsDialog d))|].
    intros g s0 [= <- <-].
    destruct (dialogs s !! d') as [dlg|] eqn:Hd'; [|apply frame_refl].
    destruct (isOpen dlg) eqn:Ho; [|apply frame_refl].
    destruct (searchField dlg); cbn [andb]; [|apply frame_refl].
    apply (bind_at (keepsDialog d)); [apply (preserves_newPromise (keepsDialog d))|].
    intros p s1 [= <- <-].
    apply keepsDialog_handleCloseBar. intros -> g Hg.
    cbn [dialogs with_promises] in Hg. congruence.
  - apply (preserves_settle_all (keepsDialog d) Hclose Hcreate
             (preserves_run_filesLoaded d)).
  - apply frame_fileList.
  - apply (preserves_onCurrentFileChange (keepsDialog d)).
  - apply (preserves_onLanguageChanged (keepsDialog d)).
  - apply (preserves_addQuickOpenPlugin (keepsDialog d)).
  - apply keepsDialog_host.
Qed.

Lemma keepsDialog_run es : forall s, keepsDialog d s (run s es).
Proof.
  induction es as [|e es IH]; intros s.
  - apply frame_refl.
  - cbn [run fold_left]. eapply frame_trans; [apply keepsDialog_step | apply IH].
Qed.

End KeepsDialogRun.

(** ** Dispatching a query to a plug-in *)

Section Dispatch.

Context `{Env}.

Lemma pluginLoop_none d query plugins s :
  Forall (fun e => match_ (provider e) query = false) plugins ->
  pluginLoop d query plugins s = (Ok None, s).
Proof.
  induction plugins as [|entry rest IH]; intros Hall; cbn [pluginLoop].
  - reflexivity.
  - apply Forall_cons in Hall as [-> Hall]. now apply IH.
Qed.

Lemma pluginLoop_first d query pre entry post s dlg :
  Forall (fun e => match_ (provider e) query = false) pre ->
  match_ (provider entry) query = true ->
  dialogs s !! d = Some dlg ->
  pluginLoop d query (pre ++ entry :: post) s
  = (Ok (Some (FROut (search (provider entry) query
                        (matcherFor (_matchers dlg) (nextMatcher s) (provider entry))))),
     dispatched d (provider entry) query dlg (with_currentPlugin (currentPlugin s) s)).
Proof.
  intros Hpre Hm Hd. induction pre as [|e pre IH].
  - cbn [app pluginLoop]. rewrite Hm. unfold _updateDialogLabel, dispatched, matcherFor.
    mred. rewrite Hd. mred.
    destruct (matchers_get (_matchers dlg) (name (provider entry))) as [m|]; mred.
    + reflexivity.
    + now rewrite <- app_assoc.
  - apply Forall_cons in Hpre as [He Hpre].
    rewrite <- app_comm_cons. cbn [pluginLoop]. rewrite He. now apply IH.
Qed.

Lemma providersOf_eq s : _getPluginsForCurrentContext s = (Ok (providersOf s), s).
Proof. reflexivity. Qed.

(** What _filterCallback does with a query it dispatches. *)
Lemma filterCallback_dispatched d query entry s dlg :
  dispatches s query entry ->
  dialogs s !! d = Some dlg ->
  _filterCallback d query s
  = (Ok (FROut (search (provider entry) query
                  (matcherFor (_matchers dlg) (nextMatcher s) (provider entry)))),
     with_currentPlugin (Some (provider entry))
       (dispatched d (provider entry) query dlg s)).
Proof.
  intros (Hg & Hq & pre & post & Hps & Hpre & Hm) Hd.
  unfold _filterCallback. rewrite Hg.
  assert (String.eqb query ":" = false) as -> by now apply String.eqb_neq.
  rewrite providersOf_eq in Hps. cbn [fst] in Hps. injection Hps as Hps.
  cbv beta iota zeta delta [mbind M_bind modify].
  rewrite providersOf_eq.
  assert (providersOf (with_currentPlugin None s) = (pre ++ entry :: post)%list) as ->
      by exact Hps.
  rewrite (pluginLoop_first d query pre entry post _ dlg Hpre Hm) by exact Hd.
  unfold dispatched. cbn [nextMatcher with_currentPlugin].
  destruct (matchers_get (_matchers dlg) (name (provider entry))); reflexivity.
Qed.

Lemma currentPlugin_searchFileList query matcher s :
  currentPlugin (snd (searchFileList query matcher s)) = currentPlugin s.
Proof.
  unfold searchFileList, run_searchFileList. mred.
  destruct (fileList s); mred; [reflexivity|].
  destruct (fileListPromise s) as [p|]; mred; [|reflexivity].
  destruct ((promises s ++ [_])%list !! p) as [pr|]; mred; [|reflexivity].
  destruct (p_settled pr) as [[v|e]|]; mrun; reflexivity.
Qed.

(** C3: _filterCallback first sets currentPlugin to null (what it was
    before does not matter).  For a query that is neither a bare go-to-line
    query nor ":" it then goes through the providers of the current
    context in order: at the first whose match(query) is true it sets
    currentPlugin to that plug-in and returns plugin.search(query,
    matcher); when there is none it returns
    searchFileList(query, _filenameMatcher), and currentPlugin stays
    null. *)
Theorem filterCallback_dispatch d query s dlg :
  goToLine query = None ->
  query <> ":" ->
  dialogs s !! d = Some dlg ->
  (forall previous,
      _filterCallback d query (with_currentPlugin previous s) = _filterCallback d query s)
  /\ (forall pre entry post,
        providersOf s = (pre ++ entry :: post)%list ->
        Forall (fun e => match_ (provider e) query = false) pre ->
        match_ (provider entry) query = true ->
        fst (_filterCallback d query s)
        = Ok (FROut (search (provider entry) query
                       (matcherFor (_matchers dlg) (nextMatcher s) (provider entry))))
        /\ currentPlugin (snd (_filterCallback d query s)) = Some (provider entry))
  /\ (Forall (fun e => match_ (provider e) query = false) (providersOf s) ->
      let s0 := with_calls (calls s ++ [SetDialogLabel d (dialogLabel None query)])
                           (with_currentPlugin None s) in
      fst (_filterCallback d query s)
      = match fst (searchFileList query (_filenameMatcher dlg) s0) with
        | Ok out => Ok (FROut out)
        | Throw e => Throw e
        end
      /\ snd (_filterCallback d query s)
         = snd (searchFileList query (_filenameMatcher dlg) s0)
      /\ currentPlugin (snd (_filterCallback d query s)) = None).
Proof.
  intros Hg Hq Hd. split; [|split].
  - intros previous. reflexivity.
  - intros pre entry post Hps Hpre Hm.
    rewrite (filterCallback_dispatched d query entry s dlg); [| |exact Hd].
    + split; reflexivity.
    + split; [exact Hg|]. split; [exact Hq|]. exists pre, post.
      rewrite providersOf_eq. cbn [fst]. rewrite Hps. auto.
  - intros Hnone s0.
    assert (_filterCallback d query s
            = match searchFileList query (_filenameMatcher dlg) s0 with
              | (Ok out, s') => (Ok (FROut out), s')
              | (Throw e, s') => (Throw e, s')
              end) as ->.
    { unfold _filterCallback. rewrite Hg.
      assert (String.eqb query ":" = false) as -> by now apply String.eqb_neq.
      cbv beta iota zeta delta [mbind M_bind modify].
      rewrite providersOf_eq.
      rewrite pluginLoop_none by exact Hnone.
      unfold _updateDialogLabel. mred. rewrite Hd. mred.
      match goal with
      | |- context [searchFileList query (_filenameMatcher dlg) ?X] => change X with s0
      end.
      destruct (searchFileList query (_filenameMatcher dlg) s0) as [[out|e] s'];
        reflexivity. }
    pose proof (currentPlugin_searchFileList query (_filenameMatcher dlg) s0) as Hcp.
    destruct (searchFileList query (_filenameMatcher dlg) s0) as [[out|e] s'];
      cbn [fst snd] in *; auto.
Qed.

End Dispatch.

(** ** The matcher cache of a dialog *)

Section MatcherCache.

Context `{Env}.

Lemma constructed_app cs cs' :
  constructed (cs ++ cs')%list = (constructed cs ++ constructed cs')%list.
Proof. apply omap_app. Qed.

Lemma QuickNavigateDialog_new s :
  QuickNavigateDialog s
  = (Ok (length (dialogs s)),
     with_dialogs
       (dialogs s ++
        [ {| isOpen := false; closePromise := None; _origDocPath := None;
             _origSelections := None; _origScrollPos := None;
             _filenameMatcher :=
               {| sm_ref := nextMatcher s;
                  sm_options := Some {| preferPrefixMatches := false;
                                        segmentedSearch := true |} |};
             _matchers := ∅; searchField := false |} ])
       (with_calls
          (calls s ++
           [NewStringMatcher
              {| sm_ref := nextMatcher s;
                 sm_options := Some {| preferPrefixMatches := false;
                                       segmentedSearch := true |} |}])
          (with_nextMatcher (S (nextMatcher s)) s))).
Proof. reflexivity. Qed.

(** After a dispatch the cache holds the matcher that was handed over. *)
Lemma dispatched_cached d plugin query dlg s :
  dialogs s !! d = Some dlg ->
  exists dlg1,
    dialogs (dispatched d plugin query dlg s) !! d = Some dlg1
    /\ matchers_get (_matchers dlg1) (name plugin)
       = Some (matcherFor (_matchers dlg) (nextMatcher s) plugin).
Proof.
  intros Hd. unfold dispatched, matcherFor.
  destruct (matchers_get (_matchers dlg) (name plugin)) as [m|] eqn:Hm.
  - exists dlg. split; [exact Hd | exact Hm].
  - eexists. cbn [dialogs with_calls with_dialogs].
    rewrite list_lookup_alter_eq, Hd. split; [reflexivity|].
    cbn [_matchers set_matchers]. unfold matchers_get.
    now rewrite lookup_insert_eq.
Qed.

(** C4: a new dialog starts with an empty matcher cache.  A dispatch to a
    plug-in constructs a StringMatcher, with the plug-in's matcherOptions,
    exactly when the cache has nothing under the plug-in's name, and stores
    it there; whatever the module does afterwards, every later dispatch in
    that dialog to a plug-in of the same name is handed the very same
    matcher and constructs none. *)
Theorem matcher_cache_once d s dlg query entry :
  dialogs s !! d = Some dlg ->
  dispatches s query entry ->
  let plugin := provider entry in
  let fresh := {| sm_ref := nextMatcher s; sm_options := matcherOptions plugin |} in
  let passed := matcherFor (_matchers dlg) (nextMatcher s) plugin in
  let s1 := snd (_filterCallback d query s) in
  (forall s0,
      exists g,
        fst (QuickNavigateDialog s0) = Ok (length (dialogs s0))
        /\ dialogs (snd (QuickNavigateDialog s0)) !! length (dialogs s0) = Some g
        /\ _matchers g = ∅)
  /\ fst (_filterCallback d query s) = Ok (FROut (search plugin query passed))
  /\ (forall m, matchers_get (_matchers dlg) (name plugin) = Some m ->
                passed = m /\ constructed (calls s1) = constructed (calls s))
  /\ (matchers_get (_matchers dlg) (name plugin) = None ->
      passed = MStringMatcher fresh
      /\ constructed (calls s1) = (constructed (calls s) ++ [fresh])%list)
  /\ forall es query' entry',
      let s2 := run s1 es in
      dispatches s2 query' entry' ->
      name (provider entry') = name plugin ->
      fst (_filterCallback d query' s2)
      = Ok (FROut (search (provider entry') query' passed))
      /\ constructed (calls (snd (_filterCallback d query' s2))) = constructed (calls s2).
Proof.
  intros Hd Hdisp plugin fresh passed s1.
  assert (_filterCallback d query s
          = (Ok (FROut (search plugin query passed)),
             with_currentPlugin (Some plugin) (dispatched d plugin query dlg s))) as Hrun
      by now apply filterCallback_dispatched.
  subst s1. rewrite Hrun. cbn [fst snd].
  split; [|split; [|split; [|split]]].
  - intros s0. rewrite QuickNavigateDialog_new. eexists. cbn [fst snd dialogs with_dialogs].
    split; [reflexivity|]. split; [apply lookup_snoc | reflexivity].
  - reflexivity.
  - intros m Hm. unfold passed, matcherFor, dispatched. rewrite Hm.
    split; [reflexivity|]. cbn [calls with_currentPlugin with_calls].
    rewrite constructed_app. cbn. now rewrite app_nil_r.
  - intros Hm. unfold passed, matcherFor, dispatched. rewrite Hm.
    split; [reflexivity|]. cbn [calls with_currentPlugin with_calls].
    rewrite constructed_app. reflexivity.
  - intros es query' entry'.
    set (s2 := run (with_currentPlugin (Some plugin) (dispatched d plugin query dlg s)) es).
    intros Hdisp' Hname.
    destruct (dispatched_cached d plugin query dlg s Hd) as (dlg1 & Hd1 & Hc1).
    destruct (keepsDialog_run d es
                (with_currentPlugin (Some plugin) (dispatched d plugin query dlg s))
                dlg1 Hd1) as (dlg2 & Hd2 & _ & _ & _ & _ & Hkeep & _).
    specialize (Hkeep _ _ Hc1). fold s2 in Hd2.
    rewrite (filterCallback_dispatched d query' entry' s2 dlg2 Hdisp' Hd2).
    cbn [fst snd]. unfold matcherFor, dispatched. rewrite Hname, Hkeep.
    split; [reflexivity|]. cbn [calls with_currentPlugin with_calls].
    rewrite constructed_app. cbn. now rewrite app_nil_r.
Qed.

End MatcherCache.

(** ** Opening and closing a dialog *)

Section OpenClose.

Context `{Env}.

Lemma bind_ok {A B} (m : M A) (k : A -> M B) s a s' :
  m s = (Ok a, s') -> (m ≫= k) s = k a s'.
Proof. intros Hm. unfold mbind, M_bind. now rewrite Hm. Qed.

Lemma host_eta s : with_host (with_view (view (host s)) (host s)) s = s.
Proof. destruct s as [? ? ? ? ? ? ? [[] ? ? ? ?] ?]. reflexivity. Qed.

Lemma doneLoop_run plugins s :
  doneLoop plugins s
  = (Ok tt, with_host (with_view (doneViews plugins (view (host s))) (host s)) s).
Proof.
  revert s. induction plugins as [|entry rest IH]; intros s; cbn [doneLoop doneViews].
  - unfold mret, M_ret. now rewrite host_eta.
  - destruct (done (provider entry)) as [pluginDone|].
    + erewrite bind_ok by reflexivity. rewrite IH. reflexivity.
    + erewrite bind_ok by reflexivity. rewrite IH. reflexivity.
Qed.

(** The view _handleCloseBar leaves. *)
Lemma handleCloseBar_view d reason p s dlg :
  dialogs s !! d = Some dlg ->
  view (host (snd (_handleCloseBar d reason p s)))
  = let v := doneViews (providersOf s) (view (host s)) in
    if String.eqb reason CLOSE_ESCAPE
    then restoreView (_origSelections dlg) (_origScrollPos dlg) v
    else v.
Proof.
  intros Hd. unfold _handleCloseBar.
  rewrite (bind_ok (getDialog d) _ s dlg s) by (unfold getDialog; now rewrite Hd).
  set (s1 := snd ((match closePromise dlg with
                   | Some _ => call ConsoleAssert
                   | None => mret tt
                   end) s)).
  assert (host s1 = host s) as Hh1 by (unfold s1; now destruct (closePromise dlg)).
  rewrite (bind_ok _ _ s tt s1) by (unfold s1; now destruct (closePromise dlg)).
  erewrite bind_ok by reflexivity.
  erewrite bind_ok by reflexivity.
  erewrite bind_ok by apply providersOf_eq.
  erewrite bind_ok by apply doneLoop_run. mred. unfold providersOf. mred. rewrite !Hh1.
  set (v := doneViews _ (view (host s))).
  destruct (String.eqb reason CLOSE_ESCAPE); mred; [|reflexivity].
  unfold restoreView, onEditor. mred.
  destruct (currentFullEditor v) as [e|] eqn:He; mred.
  - destruct (_origSelections dlg) as [sels|]; mred;
      destruct (_origScrollPos dlg) as [[x y]|]; mred; rewrite ?He; reflexivity.
  - destruct (_origSelections dlg) as [sels|]; mred;
      destruct (_origScrollPos dlg) as [[x y]|]; mred; reflexivity.
Qed.

(** What showDialog records of a closed dialog. *)
Lemma showDialog_records d prefix initialString s dlg doc ed :
  dialogs s !! d = Some dlg ->
  isOpen dlg = false ->
  currentDocument (view (host s)) = Some doc ->
  currentFullEditor (view (host s)) = Some ed ->
  exists dlg1,
    dialogs (snd (showDialog d prefix initialString s)) !! d = Some dlg1
    /\ _origDocPath dlg1 = Some (doc_fullPath doc)
    /\ _origSelections dlg1 = Some (ed_selections ed)
    /\ _origScrollPos dlg1 = Some (ed_scrollPos ed).
Proof.
  intros Hd Hclosed Hdoc Hed. unfold showDialog.
  rewrite (bind_ok (getDialog d) _ s dlg s) by (unfold getDialog; now rewrite Hd).
  rewrite Hclosed.
  erewrite bind_ok by reflexivity.
  erewrite bind_ok by reflexivity.
  cbn [host with_dialogs]. rewrite Hdoc.
  erewrite bind_ok by reflexivity.
  erewrite (bind_ok (_ ≫= _)).
  2:{ erewrite bind_ok by reflexivity. cbn [host with_dialogs]. rewrite Hed.
      erewrite bind_ok by reflexivity. reflexivity. }
  match goal with
  | |- context [snd (?tail ?S)] =>
      assert (keepsDialog d S (snd (tail S))) as Hkeep
  end.
  { match goal with |- keepsDialog d ?S (snd (?tail ?S)) => generalize S end.
    match goal with
    | |- forall s, keepsDialog d s (snd (?tail s)) =>
        change (preserves (keepsDialog d) tail)
    end.
    pose proof (keepsDialog_frame d).
    pose proof (preserves_getAllFiles (keepsDialog d)).
    pose proof (preserves_subscribe (keepsDialog d)).
    pose proof (preserves_run_filesLoaded d).
    pose proof (preserves_setSearchFieldValue (keepsDialog d)).
    pose proof (preserves_set_searchField d).
    frame. }
  edestruct Hkeep as (dlg1 & Hd1 & H1 & H2 & H3 & _).
  { cbn [dialogs with_dialogs]. rewrite !list_lookup_alter_eq, Hd. reflexivity. }
  exists dlg1. split; [exact Hd1|]. rewrite H1, H2, H3. repeat split.
Qed.

(** C8: when a document is open, showDialog records the selections and
    the scroll position of the current full editor in the dialog, and
    nothing the module does afterwards changes the record.  When the bar
    then closes, _handleCloseBar runs the done callbacks of the plug-ins;
    on CLOSE_ESCAPE it then gives the current full editor exactly the
    recorded selections and scroll position, and on any other reason it
    does nothing more to the view. *)
Theorem escape_restores_selection d prefix initialString s dlg doc ed :
  dialogs s !! d = Some dlg ->
  isOpen dlg = false ->
  currentDocument (view (host s)) = Some doc ->
  currentFullEditor (view (host s)) = Some ed ->
  let s1 := snd (showDialog d prefix initialString s) in
  (exists dlg1,
      dialogs s1 !! d = Some dlg1
      /\ _origSelections dlg1 = Some (ed_selections ed)
      /\ _origScrollPos dlg1 = Some (ed_scrollPos ed))
  /\ forall es reason p,
      let s2 := run s1 es in
      let s3 := snd (_handleCloseBar d reason p s2) in
      let v := doneViews (providersOf s2) (view (host s2)) in
      (reason = CLOSE_ESCAPE ->
       forall e,
         currentFullEditor v = Some e ->
         currentFullEditor (view (host s3))
         = Some (setScrollPos (ed_scrollPos ed).1 (ed_scrollPos ed).2
                   (setSelections (ed_selections ed) e))
         /\ currentDocument (view (host s3)) = currentDocument v)
      /\ (reason <> CLOSE_ESCAPE -> view (host s3) = v).
Proof.
  intros Hd Hclosed Hdoc Hed s1.
  destruct (showDialog_records d prefix initialString s dlg doc ed Hd Hclosed Hdoc Hed)
    as (dlg1 & Hd1 & _ & Hsel & Hpos).
  fold s1 in Hd1. split.
  { exists dlg1. auto. }
  intros es reason p s2 s3 v.
  destruct (keepsDialog_run d es s1 dlg1 Hd1) as (dlg2 & Hd2 & _ & Hsel2 & Hpos2 & _).
  fold s2 in Hd2.
  pose proof (handleCloseBar_view d reason p s2 dlg2 Hd2) as Hview.
  fold s3 in Hview. cbv zeta in Hview. fold v in Hview.
  rewrite Hsel2, Hsel, Hpos2, Hpos in Hview. split.
  - intros -> e He. rewrite String.eqb_refl in Hview. rewrite Hview.
    unfold restoreView. rewrite He. destruct (ed_scrollPos ed) as [x y].
    cbn [with_editor currentFullEditor currentDocument fst snd]. auto.
  - intros Hne. apply String.eqb_neq in Hne. now rewrite Hne in Hview.
Qed.

End OpenClose.

(** ** Closing twice *)

Section CloseTwice.

Context `{Env}.

Lemma close_closed d s dlg :
  dialogs s !! d = Some dlg -> isOpen dlg = false ->
  close d s = (Ok (closePromise dlg), s).
Proof.
  intros Hd Hc. unfold close.
  rewrite (bind_ok (getDialog d) _ s dlg s) by (unfold getDialog; now rewrite Hd).
  now rewrite Hc.
Qed.

(** When its bar closes, a dialog is marked closed and keeps the promise of
    the closing bar. *)
Lemma handleCloseBar_closes d reason p s dlg :
  dialogs s !! d = Some dlg ->
  exists dlg1,
    dialogs (snd (_handleCloseBar d reason p s)) !! d = Some dlg1
    /\ isOpen dlg1 = false
    /\ closePromise dlg1 = Some p.
Proof.
  intros Hd. unfold _handleCloseBar.
  rewrite (bind_ok (getDialog d) _ s dlg s) by (unfold getDialog; now rewrite Hd).
  set (s1 := snd ((match closePromise dlg with
                   | Some _ => call ConsoleAssert
                   | None => mret tt
                   end) s)).
  assert (dialogs s1 = dialogs s) as Hd1 by (unfold s1; now destruct (closePromise dlg)).
  rewrite (bind_ok _ _ s tt s1) by (unfold s1; now destruct (closePromise dlg)).
  erewrite bind_ok by reflexivity.
  erewrite bind_ok by reflexivity.
  match goal with
  | |- context [snd (?tail ?S)] =>
      assert (keepsDialog d S (snd (tail S))) as Hkeep
  end.
  { match goal with |- keepsDialog d ?S (snd (?tail ?S)) => generalize S end.
    match goal with
    | |- forall s, keepsDialog d s (snd (?tail s)) =>
        change (preserves (keepsDialog d) tail)
    end.
    pose proof (keepsDialog_frame d).
    pose proof (preserves_getPluginsForCurrentContext (keepsDialog d)).
    pose proof (preserves_doneLoop (keepsDialog d)).
    pose proof (preserves_onEditor (keepsDialog d)).
    frame. }
  edestruct Hkeep as (dlg1 & Hl1 & _ & _ & _ & _ & _ & Hclosed).
  { cbn [dialogs with_dialogs]. rewrite !list_lookup_alter_eq, Hd1, Hd. reflexivity. }
  exists dlg1. split; [exact Hl1|]. now apply Hclosed.
Qed.

Lemma alter_settled_callback st k cb p (ps : list Promise) :
  alter (set_settled st) p (alter (add_callback k cb) p ps) = alter (set_settled st) p ps.
Proof.
  revert p. induction ps as [|pr ps IH]; intros [|p]; cbn; try reflexivity.
  now rewrite IH.
Qed.

(** C10: close() on a dialog that is not open returns the stored
    closePromise and does nothing else, in particular it does not call
    modalBar.close().  Once the bar of an open dialog has started to close,
    with the promise p, the dialog stays closed with that promise whatever
    happens next, so every later close() returns p.  beginSearch on such a
    dialog attaches createDialog to that same promise: while p is pending
    nothing is created, and when the host resolves p the new dialog is
    created and shown; if p is already resolved this happens at once. *)
Theorem close_is_idempotent d s dlg :
  dialogs s !! d = Some dlg ->
  (isOpen dlg = false -> close d s = (Ok (closePromise dlg), s))
  /\ (forall reason p es,
        isOpen dlg = true ->
        let s1 := snd (_handleCloseBar d reason p s) in
        let s2 := run s1 es in
        close d s2 = (Ok (Some p), s2)
        /\ close d (snd (close d s2)) = (Ok (Some p), s2))
  /\ (forall p pr prefix initialString,
        _curDialog s = Some d ->
        isOpen dlg = false ->
        closePromise dlg = Some p ->
        promises s !! p = Some pr ->
        (p_settled pr = None ->
         beginSearch prefix initialString s
         = (Ok tt,
            with_promises
              (alter (add_callback OnDone (CbCreateDialog prefix initialString)) p
                     (promises s)) s))
        /\ (p_settled pr = None -> p_owner pr = ByHost -> p_callbacks pr = [] ->
            forall v,
              settle p (Resolved v) (snd (beginSearch prefix initialString s))
              = createDialog prefix initialString
                  (with_promises (alter (set_settled (Resolved v)) p (promises s)) s))
        /\ (forall v,
              p_settled pr = Some (Resolved v) ->
              beginSearch prefix initialString s = createDialog prefix initialString s)).
Proof.
  intros Hd. split; [|split].
  - intros Hc. now apply close_closed.
  - intros reason p es Ho s1 s2.
    destruct (handleCloseBar_closes d reason p s dlg Hd) as (dlg1 & Hd1 & Hc1 & Hp1).
    fold s1 in Hd1.
    destruct (keepsDialog_run d es s1 dlg1 Hd1) as (dlg2 & Hd2 & _ & _ & _ & _ & _ & Hk).
    fold s2 in Hd2. destruct (Hk Hc1) as [Hc2 Hp2].
    assert (close d s2 = (Ok (Some p), s2)) as Hclose.
    { rewrite (close_closed d s2 dlg2 Hd2 Hc2). now rewrite Hp2, Hp1. }
    rewrite Hclose. split; [reflexivity | exact Hclose].
  - intros p pr prefix initialString Hcur Hc Hp Hpr.
    assert (beginSearch prefix initialString s
            = subscribe OnDone p (CbCreateDialog prefix initialString)
                        (fun _ => createDialog prefix initialString) s) as Hbs.
    { unfold beginSearch.
      erewrite bind_ok by (unfold gets; now rewrite Hcur). cbv beta iota.
      rewrite (bind_ok (getDialog d) _ s dlg s) by (unfold getDialog; now rewrite Hd).
      rewrite Hc.
      erewrite bind_ok by (rewrite (close_closed d s dlg Hd Hc), Hp; reflexivity).
      reflexivity. }
    rewrite Hbs. split; [|split].
    + intros Hs. unfold subscribe. mred. rewrite Hpr, Hs. reflexivity.
    + intros Hs Ho Hcb v. unfold subscribe at 1. mred. rewrite Hpr, Hs. mred.
      unfold settle. mred. rewrite list_lookup_alter_eq, Hpr.
      cbn [fmap option_fmap option_map]. destruct pr as [o st cbs].
      cbn [p_owner p_settled p_callbacks] in *. subst o st cbs. mred.
      rewrite alter_settled_callback.
      cbn [app fire fires run_callback].
      unfold mbind, M_bind, mret, M_ret.
      now destruct (createDialog prefix initialString _) as [[[]|e] s'].
    + intros v Hs. unfold subscribe. mred. rewrite Hpr, Hs. reflexivity.
Qed.

End CloseTwice.

(** ** The file list across project switches *)

(** What keeps a relation that no update of the dialogs breaks. *)
Section FrameWithDialogs.

Context `{Env} (R : State -> State -> Prop) `{!Frame R} `{!FrameDialogs R}.







End FrameWithDialogs.

Section StaysUnloaded.

Context `{Env}.

#[local] Instance staysUnloaded_frame : Frame staysUnloaded.
Proof.
  split; try (intros; intros [? ?]; split; assumption).
  intros a b c Hab Hbc Ha. apply Hbc, Hab, Ha.
Qed.

#[local] Instance staysUnloaded_dialogs : FrameDialogs staysUnloaded.
Proof. split. intros s ds [? ?]. split; assumption. Qed.






End StaysUnloaded.

(** ** Queries with and without a position *)

Section CursorPosMore.

Context `{Env}.

Lemma startsWithColon_after_file file s :
  file <> "" -> allb notColon file = true -> startsWithColon (file ++ s) = false.
Proof.
  destruct file as [|c file]; [congruence|]. intros _ Hf. simpl in Hf.
  apply andb_true_iff in Hf as [Hc _]. rewrite app_String. cbn [startsWithColon].
  now apply negb_true_iff in Hc.
Qed.

Lemma extractCursorPos_no_colon query :
  allb notColon query = true -> extractCursorPos query = None.
Proof.
  intros Hq. unfold extractCursorPos, String_match. now rewrite exec_from_none.
Qed.

Lemma extractCursorPos_short query : len query <= 1 -> extractCursorPos query = None.
Proof.
  intros Hq. unfold extractCursorPos.
  destruct (String_match query CURSOR_POS_EXP); [|reflexivity].
  now rewrite (proj2 (Z.leb_le _ _) Hq).
Qed.

Lemma strippedQuery_no_position query :
  extractCursorPos query = None -> strippedQuery query = query.
Proof. intros He. unfold strippedQuery. now rewrite He. Qed.

(** X1: a query that holds no ':' or is shorter than two characters has no
    cursor position: extractCursorPos returns null, the query is no
    go-to-line query, and _doSearchFileList matches the files against the
    query as it was typed. *)
Theorem query_without_position query :
  allb notColon query = true \/ len query <= 1 ->
  extractCursorPos query = None
  /\ goToLine query = None
  /\ strippedQuery query = query
  /\ forall s matcher,
      _doSearchFileList s query matcher
      = multiFieldSort
          (jQuery_map (fileList s) (fun fileInfo =>
             withFileInfo fileInfo <$>
               StringMatcher_match matcher
                 (makeProjectRelativeIfPossible (host s) (f_fullPath fileInfo)) query))
          fieldSpec.
Proof.
  intros Hq.
  assert (extractCursorPos query = None) as He.
  { destruct Hq; [now apply extractCursorPos_no_colon | now apply extractCursorPos_short]. }
  pose proof (strippedQuery_no_position query He) as Hs.
  split; [exact He|]. split; [unfold goToLine; now rewrite He|]. split; [exact Hs|].
  intros s matcher. unfold _doSearchFileList. cbv zeta. rewrite Hs.
  reflexivity.
Qed.

(** A position behind a file name is read like a bare one. *)
Lemma extractCursorPos_after_file file body :
  file <> "" -> allb notColon file = true -> body <> "" ->
  extractCursorPos (file ++ String ":" body)
  = nonLocal <$> extractCursorPos (String ":" body).
Proof.
  intros Hne Hf Hb. unfold extractCursorPos, String_match.
  rewrite exec_from_skip by assumption. rewrite !exec_from_colon.
  rewrite startsWithColon_after_file by assumption.
  assert ((len (String ":" body) <=? 1) = false) as ->.
  { apply Z.leb_gt. rewrite len_String.
    destruct body; [congruence|]. rewrite len_String.
    pose proof (len_nonneg body). lia. }
  assert ((len (file ++ String ":" body) <=? 1) = false) as ->.
  { apply Z.leb_gt. rewrite len_app, len_String.
    pose proof (len_nonneg body).
    destruct file; [congruence|]. rewrite len_String. pose proof (len_nonneg file). lia. }
  cbn [orb group mr_groups mr_text startsWithColon].
  change (isCode 58 ":") with true.
  now destruct (_ && _ || _ && _).
Qed.

(** X2: on "file:N", "file:N,M" or "file:N:M" (the file part non-empty
    and free of ':', N and M decimal numerals) extractCursorPos returns the
    position with local = false and query = the part from the ':' on; line
    and ch are ToNumber of the numerals less 1, which is N - 1 and M - 1
    for numerals up to 2^53 (larger ones are rounded to doubles first).
    The query is no go-to-line query, and _doSearchFileList searches for
    the file part alone, so the results are those of the query "file". *)
Theorem query_with_position file lineTxt col :
  file <> "" ->
  allb notColon file = true ->
  isNumeral lineTxt = true ->
  isColumn col = true ->
  extractCursorPos (file ++ gotoQuery lineTxt col)
  = Some {| cp_query := gotoQuery lineTxt col;
            cp_local := false;
            cp_line := or0 (jsub (StringToNumber lineTxt) (of_Z 1));
            cp_ch := match col with
                     | Some (_, colTxt) => or0 (jsub (StringToNumber colTxt) (of_Z 1))
                     | None => of_Z 0
                     end |}
  /\ (numeralValue lineTxt <= 2 ^ 53 ->
      columnIndex col < 2 ^ 53 ->
      extractCursorPos (file ++ gotoQuery lineTxt col)
      = Some {| cp_query := gotoQuery lineTxt col;
                cp_local := false;
                cp_line := of_Z (numeralValue lineTxt - 1);
                cp_ch := of_Z (columnIndex col) |})
  /\ goToLine (file ++ gotoQuery lineTxt col) = None
  /\ strippedQuery (file ++ gotoQuery lineTxt col) = file
  /\ forall s matcher,
      _doSearchFileList s (file ++ gotoQuery lineTxt col) matcher
      = _doSearchFileList s file matcher.
Proof.
  intros Hne Hf Hl Hc.
  assert (extractCursorPos (file ++ gotoQuery lineTxt col)
          = nonLocal <$> extractCursorPos (gotoQuery lineTxt col)) as Hafter.
  { unfold gotoQuery. apply extractCursorPos_after_file; try assumption.
    destruct lineTxt; [discriminate|]. now rewrite app_String. }
  pose proof (extractCursorPos_goto_numbers lineTxt col Hl Hc) as Hg.
  assert (extractCursorPos (file ++ gotoQuery lineTxt col)
          = Some {| cp_query := gotoQuery lineTxt col;
                    cp_local := false;
                    cp_line := or0 (jsub (StringToNumber lineTxt) (of_Z 1));
                    cp_ch := match col with
                             | Some (_, colTxt) =>
                                 or0 (jsub (StringToNumber colTxt) (of_Z 1))
                             | None => of_Z 0
                             end |}) as He.
  { rewrite Hafter, Hg. reflexivity. }
  assert (strippedQuery (file ++ gotoQuery lineTxt col) = file) as Hs.
  { unfold strippedQuery. rewrite He. cbn [cp_local cp_query negb andb gotoQuery String.eqb].
    unfold gotoQuery. cbn [String.eqb].
    now apply String_replace_suffix. }
  split; [exact He|]. split.
  { intros Hlb Hcb. rewrite Hafter.
    now rewrite (extractCursorPos_goto lineTxt col Hl Hc Hlb Hcb). }
  split; [unfold goToLine; now rewrite He|]. split; [exact Hs|].
  intros s matcher. unfold _doSearchFileList. cbv zeta. rewrite Hs.
  now rewrite (strippedQuery_no_position file (extractCursorPos_no_colon file Hf)).
Qed.

Lemma afterColon_line txt :
  txt <> "" -> allb nonSep txt = true -> afterColon txt = ("", {[1%nat := txt]}).
Proof.
  intros Hne Hns. unfold afterColon. cbv zeta.
  rewrite takeWhile_all, dropWhile_all by assumption.
  destruct txt; [congruence|]. reflexivity.
Qed.

(** X3: the text between the ':' and the end of a query (non-empty, free
    of ',' and ':') is converted the way isNaN and the subtraction convert
    a string: extractCursorPos returns null exactly when ToNumber of the
    text is NaN, and otherwise line = ToNumber(text) - 1 (0 when that is 0)
    and ch = 0.  So ":0x10" means line 16, and ":abc" is no position. *)
Theorem line_text_is_converted_by_ToNumber txt :
  txt <> "" ->
  allb nonSep txt = true ->
  extractCursorPos (String ":" txt)
  = if isNaN (Some txt) then None
    else Some {| cp_query := String ":" txt;
                 cp_local := true;
                 cp_line := or0 (jsub (StringToNumber txt) (of_Z 1));
                 cp_ch := of_Z 0 |}.
Proof.
  intros Hne Hns. unfold extractCursorPos, String_match.
  rewrite exec_from_colon, afterColon_line by assumption.
  cbn [fst snd]. rewrite consumed_all.
  assert ((len (String ":" txt) <=? 1) = false) as ->.
  { apply Z.leb_gt. rewrite len_String. destruct txt; [congruence|].
    rewrite len_String. pose proof (len_nonneg txt). lia. }
  unfold group. cbn [mr_groups mr_text].
  assert (({[1%nat := txt]} : captures) !! 1%nat = Some txt) as -> by (by simplify_map_eq).
  assert (({[1%nat := txt]} : captures) !! 3%nat = None) as -> by (by simplify_map_eq).
  assert (truthyStr (Some txt) = true) as -> by (destruct txt; [congruence|reflexivity]).
  cbn [truthyStr andb orb]. rewrite orb_false_r.
  destruct (isNaN (Some txt)); [reflexivity|].
  reflexivity.
Qed.

(** X8: the query ":" alone is answered with { error: null } and a
    go-to-line query typed while no full editor is open with the empty
    list; in both cases nothing but currentPlugin (set to null) changes: no
    plug-in is asked, no label is set and no search is started. *)
Theorem filterCallback_colon_queries d s :
  _filterCallback d ":" s = (Ok FRNoError, with_currentPlugin None s)
  /\ forall lineTxt col,
      isNumeral lineTxt = true ->
      isColumn col = true ->
      currentFullEditor (view (host s)) = None ->
      _filterCallback d (gotoQuery lineTxt col) s
      = (Ok (FROut (OutArray [])), with_currentPlugin None s).
Proof.
  split; [reflexivity|].
  intros lineTxt col Hl Hc He. unfold _filterCallback, goToLine.
  rewrite extractCursorPos_goto_numbers by assumption. cbn [cp_local]. mred.
  now rewrite He.
Qed.

End CursorPosMore.

(** ** File names: the extension and the name line *)

Section FilenameMore.

Lemma slice_middle a b c : slice (a ++ b ++ c) (len a) (len a + len b) = b.
Proof.
  unfold slice, clamp. rewrite !len_app.
  pose proof (len_nonneg a). pose proof (len_nonneg b). pose proof (len_nonneg c).
  rewrite (proj2 (Z.ltb_ge _ _)) by lia. rewrite (proj2 (Z.ltb_ge _ _)) by lia.
  rewrite !Z.min_l by lia. rewrite Z.max_l by lia.
  replace (len a + len b - len a) with (len b) by lia.
  unfold len. rewrite !Nat2Z.id.
  rewrite substring_skip_app. apply substring_prefix.
Qed.

Lemma app_String_last a c t : a ++ String c t = (a ++ String c "") ++ t.
Proof. induction a as [|x a IH]; [reflexivity|]. now rewrite !app_String, IH. Qed.

Lemma String_app_assoc a b c : (a ++ b) ++ c = a ++ b ++ c.
Proof. induction a as [|x a IH]; [now rewrite !app_empty|]. now rewrite !app_String, IH. Qed.

(** X4: for a file name "base.ext" (no '/' in it, no '.' in ext), alone
    or behind a directory path, _filenameFromPath(path, false) is base: the
    last extension only is dropped ("jquery.min.js" gives "jquery.min"),
    and a name that starts with its only '.' gives the empty string
    (".gitignore"). *)
Theorem filenameFromPath_drops_last_extension base ext :
  has "/" base = false ->
  has "/" ext = false ->
  has "." ext = false ->
  _filenameFromPath (base ++ String "." ext) false = base
  /\ forall dir,
      _filenameFromPath (dir ++ String "/" (base ++ String "." ext)) false = base.
Proof.
  intros Hb He Hd. split.
  - assert (lastIndexOf (base ++ String "." ext) "." = len base) as Hdot
      by apply (lastIndexOf_present "." base ext Hd).
    assert (lastIndexOf (base ++ String "." ext) "/" = -1) as Hslash.
    { apply (lastIndexOf_absent "/"). rewrite has_app, Hb. simpl. exact He. }
    unfold _filenameFromPath. cbv zeta. rewrite Hdot, Hslash.
    pose proof (len_nonneg base).
    rewrite (proj2 (Z.eqb_neq (len base) (-1))) by lia.
    apply slice_prefix.
  - intros dir.
    set (path := dir ++ String "/" (base ++ String "." ext)).
    assert (lastIndexOf path "/" = len dir) as Hslash.
    { apply (lastIndexOf_present "/" dir). rewrite has_app, Hb. simpl. exact He. }
    assert (path = (dir ++ String "/" base) ++ String "." ext) as Hp.
    { unfold path. now rewrite String_app_assoc, app_String. }
    assert (lastIndexOf path "." = len dir + (len base + 1)) as Hdot.
    { rewrite Hp, (lastIndexOf_present "." _ ext Hd). now rewrite len_app, len_String. }
    pose proof (len_nonneg dir). pose proof (len_nonneg base).
    unfold _filenameFromPath. cbv zeta. rewrite Hdot, Hslash.
    rewrite (proj2 (Z.eqb_neq _ (-1))) by lia.
    assert (path = (dir ++ String "/" "") ++ base ++ String "." ext) as ->.
    { unfold path. apply app_String_last. }
    replace (len dir + 1) with (len (dir ++ String "/" "")) by (now rewrite len_app).
    replace (len dir + (len base + 1)) with (len (dir ++ String "/" "") + len base)
      by (rewrite len_app; change (len (String "/" "")) with 1; lia).
    apply slice_middle.
Qed.

Lemma lastIndexOf_from_bounds c s i acc :
  -1 <= acc -> 0 <= i ->
  -1 <= lastIndexOf_from (char c) s i acc
  /\ lastIndexOf_from (char c) s i acc <= Z.max acc (i + len s - 1).
Proof.
  revert i acc. induction s as [|a s IH]; intros i acc Hacc Hi.
  - cbn. change (len "") with 0. lia.
  - cbn [lastIndexOf_from]. rewrite prefix_char_String, len_String.
    pose proof (len_nonneg s).
    destruct (Ascii.eqb a c).
    + destruct (IH (i + 1) i ltac:(lia) ltac:(lia)). lia.
    + destruct (IH (i + 1) acc ltac:(lia) ltac:(lia)). lia.
Qed.

Lemma lastIndexOf_bounds c s : -1 <= lastIndexOf s (char c) < len s.
Proof.
  unfold lastIndexOf.
  destruct (lastIndexOf_from_bounds c s 0 (-1) ltac:(lia) ltac:(lia)).
  pose proof (len_nonneg s). lia.
Qed.

Lemma slice_to_end s a : 0 <= a <= len s -> slice s a (len s) = substringFrom s a.
Proof.
  intros Ha. unfold slice, substringFrom, clamp.
  pose proof (len_nonneg s).
  rewrite (proj2 (Z.ltb_ge _ _)) by lia. rewrite (proj2 (Z.ltb_ge _ _)) by lia.
  rewrite Z.min_id, Z.min_l, !Z.max_l by lia. rewrite Z.min_l by lia.
  f_equal. unfold len in *. lia.
Qed.

(** On a range of the last segment fileNameFilter does what
    _filenameFromPath does with the extension kept. *)
Lemma fileNameFilter_last_segment text :
  fileNameFilter true text = _filenameFromPath text true.
Proof.
  unfold fileNameFilter, _filenameFromPath. cbv zeta.
  pose proof (lastIndexOf_bounds "/" text). change (char "/") with "/" in *.
  symmetry. apply slice_to_end. lia.
Qed.

Lemma split_last_slash path :
  has "/" path = true ->
  exists dir file, path = dir ++ String "/" file /\ has "/" file = false.
Proof.
  induction path as [|c path IH]; [discriminate|]. cbn [has]. intros Hp.
  destruct (has "/" path) eqn:Hrest.
  - destruct (IH eq_refl) as (dir & file & -> & Hf).
    exists (String c dir), file. now rewrite app_String.
  - rewrite orb_false_r in Hp. apply Ascii.eqb_eq in Hp as ->.
    exists "", path. now rewrite app_empty.
Qed.

Lemma filenameFromPath_app_slash a b :
  has "/" b = true -> _filenameFromPath (a ++ b) true = _filenameFromPath b true.
Proof.
  intros (dir & file & -> & Hf)%split_last_slash.
  rewrite <- String_app_assoc.
  now rewrite !filenameFromPath_with_extension_slash.
Qed.

Lemma filenameFromPath_app_flat a b :
  has "/" b = false -> _filenameFromPath (a ++ b) true = _filenameFromPath a true ++ b.
Proof.
  intros Hb. destruct (has "/" a) eqn:Ha.
  - apply split_last_slash in Ha as (dir & file & -> & Hf).
    rewrite String_app_assoc, app_String.
    rewrite !filenameFromPath_with_extension_slash; [reflexivity|assumption|].
    now rewrite has_app, Hf, Hb.
  - rewrite !filenameFromPath_with_extension_flat; [reflexivity|assumption|].
    now rewrite has_app, Ha, Hb.
Qed.

(** X5: when the ranges of a search result carry includesLastSegment the
    way StringMatch sets it, the texts fileNameFilter lets through, taken
    in order, spell the file name of the path the ranges spell: what
    follows its last '/'. *)
Theorem name_line_shows_file_name ranges :
  lastSegmentMarked ranges ->
  nameText ranges = _filenameFromPath (rangesText ranges) true.
Proof.
  induction ranges as [|[[text matched] incl] rest IH]; intros Hm; [reflexivity|].
  cbn [lastSegmentMarked nameText rangesText] in *. destruct Hm as [Hflag Hm].
  rewrite (IH Hm). destruct incl.
  - rewrite fileNameFilter_last_segment.
    rewrite (filenameFromPath_with_extension_flat (rangesText rest) Hflag).
    symmetry. now apply filenameFromPath_app_flat.
  - cbn [fileNameFilter]. rewrite app_empty. destruct Hflag as [Hs|He].
    + symmetry. now apply filenameFromPath_app_slash.
    + destruct (has "/" (rangesText rest)) eqn:Hs.
      * symmetry. now apply filenameFromPath_app_slash.
      * rewrite (filenameFromPath_app_flat text _ Hs), He, app_empty.
        now rewrite filenameFromPath_with_extension_flat.
Qed.

End FilenameMore.

(** ** Committing an item *)

Section CloseBar.

Context `{Env}.

(** _handleCloseBar never throws; the state it leaves. *)
Lemma handleCloseBar_run d reason p s dlg :
  dialogs s !! d = Some dlg ->
  _handleCloseBar d reason p s = (Ok tt, closedBar d reason p dlg s).
Proof.
  intros Hd. unfold _handleCloseBar, closedBar.
  rewrite (bind_ok (getDialog d) _ s dlg s) by (unfold getDialog; now rewrite Hd).
  set (s1 := snd ((match closePromise dlg with
                   | Some _ => call ConsoleAssert
                   | None => mret tt
                   end) s)).
  rewrite (bind_ok _ _ s tt s1) by (unfold s1; now destruct (closePromise dlg)).
  erewrite bind_ok by reflexivity.
  erewrite bind_ok by reflexivity.
  erewrite bind_ok by apply providersOf_eq.
  erewrite bind_ok by apply doneLoop_run.
  assert (s1 = with_calls (calls s ++ match closePromise dlg with
                                      | Some _ => [ConsoleAssert]
                                      | None => []
                                      end) s) as ->.
  { unfold s1. destruct (closePromise dlg); mred; [reflexivity|].
    rewrite app_nil_r. now destruct s. }
  mred. unfold providersOf. mred. rewrite <- app_assoc.
  set (v := doneViews _ (view (host s))).
  destruct (String.eqb reason CLOSE_ESCAPE); mred; [|reflexivity].
  unfold restoreView, onEditor. mred.
  destruct (currentFullEditor v) as [e|] eqn:He; mred.
  - destruct (_origSelections dlg) as [sels|]; mred;
      destruct (_origScrollPos dlg) as [[x y]|]; mred; rewrite ?He; reflexivity.
  - destruct (_origSelections dlg) as [sels|]; mred;
      destruct (_origScrollPos dlg) as [[x y]|]; mred; reflexivity.
Qed.

(** close() on an open dialog: the bar is told to close and reports it at
    once. *)
Lemma close_open d s dlg :
  dialogs s !! d = Some dlg -> isOpen dlg = true ->
  close d s
  = (Ok (Some (length (promises s))),
     closedBar d CLOSE_API (length (promises s)) dlg
       (with_promises
          (promises s ++ [ {| p_owner := ByHost; p_settled := None; p_callbacks := [] |} ])
          (with_calls (calls s ++ [ModalBarClose d]) s))).
Proof.
  intros Hd Ho. unfold close.
  rewrite (bind_ok (getDialog d) _ s dlg s) by (unfold getDialog; now rewrite Hd).
  rewrite Ho. cbn [negb]. unfold modalBar_close.
  erewrite bind_ok.
  2:{ erewrite bind_ok by reflexivity. erewrite bind_ok by reflexivity.
      apply handleCloseBar_run. exact Hd. }
  unfold closedBar, getDialog. mred.
  rewrite !list_lookup_alter_eq, Hd. reflexivity.
Qed.

Lemma closedBar_dialog d reason p dlg s :
  dialogs s !! d = Some dlg ->
  dialogs (closedBar d reason p dlg s) !! d
  = Some (set_isOpen false (set_closePromise (Some p) dlg)).
Proof.
  intros Hd. unfold closedBar. mred. now rewrite !list_lookup_alter_eq, Hd.
Qed.

Lemma closedBar_view d reason p dlg s :
  reason <> CLOSE_ESCAPE ->
  view (host (closedBar d reason p dlg s)) = doneViews (providersOf s) (view (host s)).
Proof.
  intros Hr. unfold closedBar. mred.
  now rewrite (proj2 (String.eqb_neq _ _) Hr).
Qed.

Lemma closedBar_calls d reason p dlg s :
  closePromise dlg = None ->
  calls (closedBar d reason p dlg s) = (calls s ++ [SearchFieldDestroy d])%list.
Proof. intros Hp. unfold closedBar. mred. now rewrite Hp. Qed.

(** The end of _handleItemSelect when doClose is still true. *)
Lemma close_and_focus d s dlg :
  dialogs s !! d = Some dlg -> isOpen dlg = true -> closePromise dlg = None ->
  CLOSE_API <> CLOSE_ESCAPE ->
  let s1 := snd ((close d;; call FocusActivePane) s) in
  fst ((close d;; call FocusActivePane) s) = Ok tt
  /\ view (host s1) = doneViews (providersOf s) (view (host s))
  /\ dialogs s1 !! d
     = Some (set_isOpen false (set_closePromise (Some (length (promises s))) dlg))
  /\ calls s1 = (calls s ++ [ModalBarClose d; SearchFieldDestroy d; FocusActivePane])%list.
Proof.
  intros Hd Ho Hp Hr s1. subst s1.
  erewrite bind_ok by (apply close_open; eassumption).
  mred. split; [reflexivity|].
  rewrite closedBar_view, closedBar_dialog, closedBar_calls by assumption.
  split; [reflexivity|]. split; [reflexivity|].
  mred. now rewrite <- !app_assoc.
Qed.

(** X9: committing while a plug-in is current hands the item and the
    query to the plug-in's itemSelect and then closes the dialog through
    modalBar.close(): the plug-ins' done callbacks run on the view
    itemSelect left (the selection recorded by showDialog is not put
    back), the dialog is marked closed with the promise of the closing
    bar, the search field is destroyed and the active pane gets the
    focus. *)
Theorem commit_with_plugin d dlg s plugin item query :
  dialogs s !! d = Some dlg ->
  isOpen dlg = true ->
  closePromise dlg = None ->
  currentPlugin s = Some plugin ->
  CLOSE_API <> CLOSE_ESCAPE ->
  let v := itemSelect plugin item query (view (host s)) in
  let s1 := snd (_handleItemSelect d item query s) in
  fst (_handleItemSelect d item query s) = Ok tt
  /\ view (host s1) = doneViews (providersOf (with_host (with_view v (host s)) s)) v
  /\ dialogs s1 !! d
     = Some (set_isOpen false (set_closePromise (Some (length (promises s))) dlg))
  /\ calls s1 = (calls s ++ [ModalBarClose d; SearchFieldDestroy d; FocusActivePane])%list.
Proof.
  intros Hd Ho Hp Hcp Hr v s1. subst s1. unfold _handleItemSelect.
  erewrite bind_ok by (unfold gets; now rewrite Hcp). cbv beta iota.
  erewrite bind_ok by (erewrite bind_ok by reflexivity; reflexivity).
  cbv beta iota.
  apply (close_and_focus d (with_host (with_view v (host s)) s) dlg); assumption.
Qed.

(** X10: committing with no current plug-in and no file to open (no item,
    or an item without fullPath).  If the query holds a position and a
    full editor is open, the cursor is put there; then the dialog closes
    as above and the cursor stays where it was put.  If the query holds
    a position and no full editor is open, the handler throws a TypeError
    before anything is changed, and the dialog stays open. *)
Theorem commit_position d dlg s item query :
  dialogs s !! d = Some dlg ->
  isOpen dlg = true ->
  closePromise dlg = None ->
  currentPlugin s = None ->
  nonEmpty (item ≫= sr_fullPath) = false ->
  CLOSE_API <> CLOSE_ESCAPE ->
  let s1 := snd (_handleItemSelect d item query s) in
  match extractCursorPos query, currentFullEditor (view (host s)) with
  | Some cursorPos, None => _handleItemSelect d item query s = (Throw TypeError, s)
  | cursorPos, editor =>
      let v := match cursorPos, editor with
               | Some c, Some ed =>
                   with_editor (setCursorPos (cp_line c) (cp_ch c) ed) (view (host s))
               | _, _ => view (host s)
               end in
      fst (_handleItemSelect d item query s) = Ok tt
      /\ view (host s1) = doneViews (providersOf s) v
      /\ dialogs s1 !! d
         = Some (set_isOpen false (set_closePromise (Some (length (promises s))) dlg))
      /\ calls s1
         = (calls s ++ [ModalBarClose d; SearchFieldDestroy d; FocusActivePane])%list
  end.
Proof.
  intros Hd Ho Hp Hcp Hpath Hr s1. subst s1. unfold _handleItemSelect.
  erewrite bind_ok by (unfold gets; now rewrite Hcp). cbv beta iota zeta.
  rewrite Hpath.
  destruct (extractCursorPos query) as [c|].
  - destruct (currentFullEditor (view (host s))) as [ed|] eqn:He.
    + erewrite bind_ok.
      2:{ erewrite bind_ok; [reflexivity|]. unfold onEditor.
          erewrite bind_ok by reflexivity. cbv beta. rewrite He. reflexivity. }
      cbv beta iota.
      pose proof (close_and_focus d
                    (with_host (with_view (with_editor (setCursorPos (cp_line c) (cp_ch c) ed)
                                             (view (host s))) (host s)) s)
                    dlg Hd Ho Hp Hr) as Hc.
      exact Hc.
    + unfold onEditor. mred. rewrite He. reflexivity.
  - erewrite bind_ok by reflexivity. cbv beta iota.
    destruct (currentFullEditor (view (host s)));
      apply (close_and_focus d s dlg); assumption.
Qed.

(** X11: committing a file item with no current plug-in.  The bar is
    prepared for closing and the command that opens the file is executed;
    the handler itself neither closes the dialog (doClose is false) nor
    moves the focus.  Two closures go on the promise of the command.  If
    that promise is pending when execute returns, the dialog stays open
    until the host settles it; then, and at once if the promise was already
    settled when execute returned (as when the file is the current one),
    the closures run: the dialog is closed through modalBar.close()
    whether the file opened or not, and the cursor is set to the position
    of the query only if it opened.  If it opened, the query holds a
    position and there is no full editor, the first closure throws a
    TypeError and the dialog is left open. *)
Theorem commit_file_item d dlg s item path query :
  dialogs s !! d = Some dlg ->
  isOpen dlg = true ->
  closePromise dlg = None ->
  currentPlugin s = None ->
  sr_fullPath item = Some path ->
  path <> "" ->
  CLOSE_API <> CLOSE_ESCAPE ->
  let p := length (promises s) in
  let answer := executeOpen (host s) path (view (host s)) in
  let r := _handleItemSelect d (Some item) query s in
  let executed := [ModalBarPrepareClose d;
                   CommandExecute CMD_ADD_TO_WORKINGSET_AND_OPEN path p] in
  match answer.2 with
  | None =>
      fst r = Ok tt
      /\ calls (snd r) = (calls s ++ executed)%list
      /\ dialogs (snd r) = dialogs s
      /\ host (snd r) = with_view answer.1 (host s)
      /\ forall h st,
          closesAfterCommand d dlg query (S p) st s h
            (settle p st (with_host h (snd r)))
  | Some st =>
      closesAfterCommand d dlg query (S p) st s (with_view answer.1 (host s)) r
      /\ (fst r = Ok tt ->
          calls (snd r)
          = (calls s ++ executed ++ [ModalBarClose d; SearchFieldDestroy d])%list)
  end.
Proof.
  intros Hd Ho Hp Hcp Hpath Hne Hr p answer r.
  assert (nonEmpty (Some path) = true) as Hpne by (destruct path; [congruence|reflexivity]).
  subst answer r.
  destruct (executeOpen (host s) path (view (host s))) as [v [st|]] eqn:Hans;
    cbn [fst snd];
    unfold _handleItemSelect, execute_addToWorkingSetAndOpen;
    (erewrite bind_ok by (unfold gets; now rewrite Hcp)); cbv beta iota zeta;
    cbn [mbind option_bind]; rewrite Hpath, Hpne; unfold default; cbn [from_option id].
  - unfold closesAfterCommand. mrun. rewrite Hans. mrun.
    unfold run_setCursorPos, run_close, onEditor.
    destruct st as [val|err], (extractCursorPos query) as [c|],
             (currentFullEditor v) as [ed|] eqn:He;
      mrun; rewrite ?He; mrun; try (split; [split; reflexivity | discriminate]);
      (match goal with
       | |- context [close d ?X] =>
           rewrite (close_open d X dlg) by (mred; assumption)
       end;
       mrun;
       rewrite closedBar_view, closedBar_dialog, closedBar_calls by (mred; assumption);
       mrun; rewrite ?length_snoc, <- ?app_assoc; repeat split; reflexivity).
  - mrun. rewrite Hans. mrun. rewrite <- !app_assoc.
    split; [reflexivity|]. split; [reflexivity|]. split; [reflexivity|].
    split; [reflexivity|].
    intros h st. unfold closesAfterCommand, settle, p. mrun.
    cbn [app fire run_callback]. unfold run_setCursorPos, run_close, onEditor.
    destruct st as [val|err], (extractCursorPos query) as [c|],
             (currentFullEditor (view h)) as [ed|] eqn:He;
      mrun; rewrite ?He; mrun; try (split; reflexivity);
      (match goal with
       | |- context [close d ?X] =>
           rewrite (close_open d X dlg) by (mred; assumption)
       end;
       mrun;
       rewrite closedBar_view, closedBar_dialog by (mred; assumption);
       mrun; rewrite length_snoc; repeat split; reflexivity).
Qed.

End CloseBar.

(** ** Highlighting, the menu and the commands *)

Section Highlight.

Context `{Env}.

Lemma currentPlugin_filterCallback_none d query s :
  Forall (fun e => match_ (provider e) query = false) (providersOf s) ->
  currentPlugin (snd (_filterCallback d query s)) = None.
Proof.
  intros Hno. unfold _filterCallback.
  erewrite bind_ok by reflexivity.
  destruct (goToLine query) as [c|].
  - mred. destruct (currentFullEditor (view (host s))) as [ed|]; [|reflexivity].
    destruct (lineVisible c ed); reflexivity.
  - destruct (String.eqb query ":"); [reflexivity|].
    erewrite bind_ok by apply providersOf_eq.
    erewrite bind_ok by (apply pluginLoop_none; exact Hno).
    cbv beta iota. unfold _updateDialogLabel.
    erewrite bind_ok by reflexivity.
    unfold getDialog at 1. mred.
    destruct (dialogs s !! d) as [dlg|]; [|reflexivity].
    match goal with
    | |- context [searchFileList ?q ?m ?X] =>
        pose proof (currentPlugin_searchFileList q m X) as Hk;
        destruct (searchFileList q m X) as [[out|e] s']
    end; exact Hk.
Qed.

(** X12: after a query that no provider of the current context accepts
    (a file search, a go-to-line query), highlighting an item of the list
    does nothing at all: _handleItemHighlight returns with the state
    untouched; in particular it opens no file. *)
Theorem highlight_without_plugin d query s :
  Forall (fun e => match_ (provider e) query = false) (providersOf s) ->
  let s1 := snd (_filterCallback d query s) in
  forall selectedItem query' explicit,
    _handleItemHighlight selectedItem query' explicit s1 = (Ok tt, s1).
Proof.
  intros Hno s1 selectedItem query' explicit. unfold _handleItemHighlight.
  erewrite bind_ok by reflexivity.
  unfold s1. now rewrite currentPlugin_filterCallback_none.
Qed.

(** X13: the "currentFileChange" handler and the two Go to Definition
    commands.  Without a new file, or with a binary one, both commands are
    disabled and nothing else happens (no document is asked for).
    Otherwise each command is enabled exactly when some provider
    registered for the language of the new file accepts its trigger ("@",
    "#"), the document of the new file is asked for next, and whatever
    follows sets no command state. *)
Theorem currentFileChange_menu_state s newFile oldFile :
  match newFile with
  | Some f =>
      if isBinaryPath (f_fullPath f)
      then onCurrentFileChange newFile oldFile s
           = (Ok tt,
              with_calls (calls s ++ [SetEnabled NAVIGATE_GOTO_DEFINITION false;
                                      SetEnabled NAVIGATE_GOTO_DEFINITION_PROJECT false]) s)
      else
        let plugins :=
          getProvidersForLanguageId (host s) (Some (languageIdForPath (f_fullPath f))) in
        exists rest,
          calls (snd (onCurrentFileChange newFile oldFile s))
          = (calls s
             ++ [SetEnabled NAVIGATE_GOTO_DEFINITION
                   (existsb (fun e => match_ (provider e) "@") plugins);
                 SetEnabled NAVIGATE_GOTO_DEFINITION_PROJECT
                   (existsb (fun e => match_ (provider e) "#") plugins);
                 GetDocumentForPath (f_fullPath f) (length (promises s))]
             ++ rest)%list
          /\ Forall (fun c => forall cmd b, c <> SetEnabled cmd b) rest
  | None =>
      onCurrentFileChange newFile oldFile s
      = (Ok tt,
         with_calls (calls s ++ [SetEnabled NAVIGATE_GOTO_DEFINITION false;
                                 SetEnabled NAVIGATE_GOTO_DEFINITION_PROJECT false]) s)
  end.
Proof.
  destruct newFile as [f|]; cbn [onCurrentFileChange].
  2:{ unfold disableGotoDefinition. mrun. now rewrite <- app_assoc. }
  destruct (isBinaryPath (f_fullPath f)).
  { unfold disableGotoDefinition. mrun. now rewrite <- app_assoc. }
  cbv zeta. unfold _setMenuItemStateForLanguage, getDocumentForPath, _canHandleTrigger.
  unfold run_newDoc, run_logError, run_oldDoc, run_logErrorUnlessEncoding.
  mrun.
  destruct (documentNow (host s) (f_fullPath f)) as [[[| | |doc]|err]|];
    mrun;
    (destruct oldFile as [o|]; mrun;
     [destruct (documentNow (host s) (f_fullPath o)) as [[[| | |doc']|err']|];
      mrun; try (destruct (String.eqb err' UNSUPPORTED_ENCODING); cbn [negb]; mrun)|]);
    rewrite <- ?app_assoc; cbn [app];
    (eexists; split; [reflexivity|repeat constructor; intros; discriminate]).
Qed.

Lemma beginSearch_open d dlg prefix initialString s :
  _curDialog s = Some d ->
  dialogs s !! d = Some dlg ->
  isOpen dlg = true ->
  searchField dlg = true ->
  beginSearch prefix initialString s
  = (Ok tt,
     with_calls
       (calls s ++ [SearchFieldSetText d (default "" prefix ++ default "" initialString);
                    SetSelectionRange d (len (default "" prefix))
                      (len (default "" prefix ++ default "" initialString))]) s).
Proof.
  intros Hcur Hd Ho Hf. unfold beginSearch.
  erewrite bind_ok by (unfold gets; now rewrite Hcur). cbv beta iota.
  rewrite (bind_ok (getDialog d) _ s dlg s) by (unfold getDialog; now rewrite Hd).
  rewrite Ho. unfold setSearchFieldValue. cbv zeta.
  rewrite (bind_ok (getDialog d) _ s dlg s) by (unfold getDialog; now rewrite Hd).
  rewrite Hf.
  destruct prefix as [[|c pre]|], initialString as [[|c' ini]|];
    cbn [nonEmpty truthyStr default]; mred; now rewrite <- ?app_assoc.
Qed.

(** An open dialog whose showDialog threw before it created the search
    field: setSearchFieldValue reads a property of [undefined]. *)
Lemma beginSearch_no_field d dlg prefix initialString s :
  _curDialog s = Some d ->
  dialogs s !! d = Some dlg ->
  isOpen dlg = true ->
  searchField dlg = false ->
  beginSearch prefix initialString s = (Throw TypeError, s).
Proof.
  intros Hcur Hd Ho Hf. unfold beginSearch.
  erewrite bind_ok by (unfold gets; now rewrite Hcur). cbv beta iota.
  rewrite (bind_ok (getDialog d) _ s dlg s) by (unfold getDialog; now rewrite Hd).
  rewrite Ho. unfold setSearchFieldValue. cbv zeta.
  rewrite (bind_ok (getDialog d) _ s dlg s) by (unfold getDialog; now rewrite Hd).
  now rewrite Hf.
Qed.

(** X6: beginSearch while the current dialog is open creates nothing (no
    dialog, no promise, no modal bar).  If showDialog has created the
    search field of that dialog, beginSearch puts prefix + initialString
    in it, null and undefined counting as the empty string, and selects
    the range behind the prefix, which is initialString.  If it has not
    (showDialog threw at line 692, after it had set isOpen), beginSearch
    throws a TypeError and changes nothing. *)
Theorem beginSearch_reuses_open_dialog d dlg prefix initialString s :
  _curDialog s = Some d ->
  dialogs s !! d = Some dlg ->
  isOpen dlg = true ->
  let pre := default "" prefix in
  let text := pre ++ default "" initialString in
  beginSearch prefix initialString s
  = (if searchField dlg
     then (Ok tt,
           with_calls (calls s ++ [SearchFieldSetText d text;
                                   SetSelectionRange d (len pre) (len text)]) s)
     else (Throw TypeError, s))
  /\ slice text (len pre) (len text) = default "" initialString.
Proof.
  intros Hcur Hd Ho pre text. split; [|apply slice_suffix].
  destruct (searchField dlg) eqn:Hf.
  - now apply (beginSearch_open d dlg).
  - now apply (beginSearch_no_field d dlg).
Qed.

(** X7: the four commands, run while the current dialog is open and has
    its search field.  doFileSearch fills the field with the selected text
    of the active editor (nothing if there is none), whether a document is
    open or not.  doGotoLine, doDefinitionSearch and
    doDefinitionSearchInProject do nothing at all without a current
    document; with one they fill the field with ":", "@" + selection and
    "#" + selection, selecting what follows the prefix.  On an open
    dialog without search field each command that gets as far as
    beginSearch throws a TypeError. *)
Theorem commands_prefill_the_field d dlg s activeEditor :
  _curDialog s = Some d ->
  dialogs s !! d = Some dlg ->
  isOpen dlg = true ->
  let selected := getCurrentEditorSelectedText activeEditor in
  let filled prefix :=
    if searchField dlg
    then (Ok tt,
          with_calls (calls s ++ [SearchFieldSetText d (prefix ++ selected);
                                  SetSelectionRange d (len prefix)
                                    (len (prefix ++ selected))]) s)
    else (Throw TypeError, s) in
  doFileSearch activeEditor s = filled ""
  /\ match currentDocument (view (host s)) with
     | Some _ =>
         doGotoLine s
         = (if searchField dlg
            then (Ok tt, with_calls (calls s ++ [SearchFieldSetText d ":";
                                                 SetSelectionRange d 1 1]) s)
            else (Throw TypeError, s))
         /\ doDefinitionSearch activeEditor s = filled "@"
         /\ doDefinitionSearchInProject activeEditor s = filled "#"
     | None =>
         doGotoLine s = (Ok tt, s)
         /\ doDefinitionSearch activeEditor s = (Ok tt, s)
         /\ doDefinitionSearchInProject activeEditor s = (Ok tt, s)
     end.
Proof.
  intros Hcur Hd Ho selected filled. subst filled. cbv beta.
  unfold doFileSearch, doGotoLine, doDefinitionSearch, doDefinitionSearchInProject.
  rewrite !(bind_ok (gets _) _ s (currentDocument (view (host s))) s) by reflexivity.
  destruct (searchField dlg) eqn:Hf, (currentDocument (view (host s)));
    rewrite ?(beginSearch_open d dlg), ?(beginSearch_no_field d dlg) by assumption;
    repeat split; reflexivity.
Qed.

End Highlight.

(** ** The file list: a failed load, and an index that is ready *)

Section FailedLoad.

Context `{Env}.

Lemma fire_nothing st cbs s :
  Forall (fun kc => fires kc.1 st = false) cbs -> fire st cbs s = (Ok tt, s).
Proof.
  induction cbs as [|[k cb] cbs IH]; intros Hall; cbn [fire]; [reflexivity|].
  apply Forall_cons in Hall as [Hk Hall]. cbn [fst] in Hk. rewrite Hk.
  erewrite bind_ok by reflexivity. now apply IH.
Qed.

(** X14: when the promise of getAllFiles is rejected while searches wait
    on it, nothing happens: the closures on it are done-closures, so no
    error is logged, the spinner is not hidden, fileList stays null,
    fileListPromise keeps pointing at the rejected promise and the waiting
    deferreds stay pending.  Every later searchFileList again returns a
    fresh pending deferred, and attaches nothing to any promise, so that
    deferred has nothing that resolves it. *)
Theorem search_after_failed_load s p d searches err :
  fileList s = None ->
  fileListPromise s = Some p ->
  promises s !! p
  = Some {| p_owner := ByHost; p_settled := None;
            p_callbacks := (OnDone, CbFilesLoaded d) :: searches |} ->
  Forall (fun kc => kc.1 = OnDone) searches ->
  let s1 := with_promises (alter (set_settled (Rejected err)) p (promises s)) s in
  settle p (Rejected err) s = (Ok tt, s1)
  /\ forall query matcher,
      searchFileList query matcher s1
      = (Ok (OutDeferred (length (promises s))),
         with_promises
           (promises s1 ++ [ {| p_owner := ByModule; p_settled := None;
                                p_callbacks := [] |} ])
           s1).
Proof.
  intros Hfl Hflp Hp Hs s1. split.
  - unfold settle. erewrite bind_ok by (unfold gets; rewrite Hp; reflexivity).
    cbv beta iota. erewrite bind_ok by reflexivity.
    apply fire_nothing. constructor; [reflexivity|].
    eapply Forall_impl; [exact Hs|]. intros [k cb] Hk. cbn [fst] in *. now subst k.
  - intros query matcher. unfold searchFileList, s1. mred. rewrite Hfl, Hflp. mred.
    rewrite lookup_app_l by (rewrite length_alter; eapply lookup_lt_Some, Hp).
    rewrite list_lookup_alter_eq, Hp. mred.
    now rewrite length_alter.
Qed.

(** X15: when getAllFiles answers with a promise that is already
    resolved, the closure of showDialog runs inside showDialog: the
    dialog that beginSearch creates comes up with fileList set, and
    fileListPromise ends up pointing at the resolved promise (the
    assignment of line 735 comes after the closure has set it to null).
    File searches are then answered synchronously. *)
Theorem prefetch_with_index_ready prefix initialString s files :
  allFilesNow (host s) = Some (Resolved (VFiles files)) ->
  (is_Some (currentDocument (view (host s))) ->
   is_Some (currentFullEditor (view (host s)))) ->
  let p := length (promises s) in
  let s1 := snd (createDialog prefix initialString s) in
  fst (createDialog prefix initialString s) = Ok tt
  /\ fileList s1 = Some files
  /\ fileListPromise s1 = Some p
  /\ promises s1
     = (promises s ++ [ {| p_owner := ByHost; p_settled := Some (Resolved (VFiles files));
                          p_callbacks := [] |} ])%list
  /\ (forall query matcher,
        searchFileList query matcher s1
        = (Ok (OutArray (_doSearchFileList s1 query matcher)), s1)).
Proof.
  intros Hnow Hed p s1.
  assert (exists dlgs hs cs,
             createDialog prefix initialString s
             = (Ok tt,
                {| currentPlugin := currentPlugin s; fileList := Some files;
                   fileListPromise := Some p; _curDialog := Some (length (dialogs s));
                   dialogs := dlgs;
                   promises := promises s ++
                     [ {| p_owner := ByHost; p_settled := Some (Resolved (VFiles files));
                          p_callbacks := [] |} ];
                   nextMatcher := S (nextMatcher s); host := hs; calls := cs |})) as Hrun.
  { unfold createDialog.
    erewrite bind_ok by apply QuickNavigateDialog_new.
    erewrite bind_ok by reflexivity.
    unfold showDialog, getAllFiles, setSearchFieldValue. mrun.
    destruct (currentDocument (view (host s))) as [doc|] eqn:Hdoc; mrun.
    - destruct (Hed ltac:(eauto)) as [ed Hed']. rewrite Hed'. mrun.
      rewrite Hnow. mrun. unfold run_filesLoaded. mrun.
      do 3 eexists. reflexivity.
    - rewrite Hnow. mrun. unfold run_filesLoaded. mrun.
      do 3 eexists. reflexivity. }
  destruct Hrun as (dlgs & hs & cs & Hrun).
  subst s1. rewrite Hrun. cbn [fst snd].
  split; [reflexivity|]. split; [reflexivity|]. split; [reflexivity|].
  split; [reflexivity|].
  intros query matcher. unfold searchFileList. mred. reflexivity.
Qed.

End FailedLoad.

(** ** Open dialogs and close promises *)

Section Consistent.

Context `{Env}.

Lemma staysConsistent_same s s' : dialogs s' = dialogs s -> staysConsistent s s'.
Proof. intros Hd Hs. now rewrite Hd. Qed.

#[local] Instance staysConsistent_frame : Frame staysConsistent.
Proof.
  split; try (intros; now apply staysConsistent_same).
  intros a b c Hab Hbc Ha. auto.
Qed.

#[local] Instance staysConsistent_files : FrameFiles staysConsistent.
Proof. split. intros. now apply staysConsistent_same. Qed.

(** An update that leaves isOpen and closePromise alone. *)
Lemma staysConsistent_updDialog d f :
  (forall g, isOpen (f g) = isOpen g /\ closePromise (f g) = closePromise g) ->
  preserves staysConsistent (updDialog d f).
Proof.
  intros Hf s Hs. unfold updDialog, modify. cbn [snd dialogs with_dialogs].
  apply Forall_alter; [exact Hs|]. intros g _ Hg. unfold consistent in *.
  destruct (Hf g) as [-> ->]. exact Hg.
Qed.

Lemma staysConsistent_pluginLoop d query plugins :
  preserves staysConsistent (pluginLoop d query plugins).
Proof.
  induction plugins as [|entry rest IH]; cbn [pluginLoop].
  - apply preserves_ret. apply _.
  - pose proof (preserves_updateDialogLabel staysConsistent).
    assert (forall m : StringMatcher,
               preserves staysConsistent
                 (updDialog d (fun g =>
                    set_matchers (<[name (provider entry) := MStringMatcher m]> (_matchers g)) g)))
      by (intros m; apply staysConsistent_updDialog; intros g; split; reflexivity).
    frame.
Qed.

Lemma Forall_alter_twice {A} (P : A -> Prop) (f g : A -> A) d (l : list A) :
  Forall P l -> (forall x, P (f (g x))) -> Forall P (alter f d (alter g d l)).
Proof.
  intros Hl Hfg. revert d. induction Hl as [|x l Hx Hl IH]; intros [|d]; cbn;
    constructor; auto.
Qed.

Lemma staysConsistent_handleCloseBar d reason p :
  preserves staysConsistent (_handleCloseBar d reason p).
Proof.
  intros s Hs. destruct (dialogs s !! d) as [dlg|] eqn:Hd.
  - rewrite (handleCloseBar_run d reason p s dlg Hd). unfold closedBar. mred.
    apply Forall_alter_twice; [exact Hs|]. intros g. unfold consistent. cbn. congruence.
  - unfold _handleCloseBar, getDialog. mred. now rewrite Hd.
Qed.

Lemma staysConsistent_close d : preserves staysConsistent (close d).
Proof.
  unfold close, modalBar_close.
  pose proof staysConsistent_handleCloseBar. frame.
Qed.

Lemma staysConsistent_run_filesLoaded d st :
  preserves staysConsistent (run_filesLoaded d st).
Proof.
  unfold run_filesLoaded.
  assert (forall v, preserves staysConsistent (modify (with_fileList v)))
    by (intros v s; apply frame_fileList).
  frame.
Qed.

(** A new dialog is open, and has no closePromise, from the first step of
    showDialog on. *)
Lemma staysConsistent_createDialog prefix initialString :
  preserves staysConsistent (createDialog prefix initialString).
Proof.
  intros s. unfold createDialog.
  erewrite bind_ok by apply QuickNavigateDialog_new.
  erewrite bind_ok by reflexivity.
  unfold showDialog.
  erewrite bind_ok by (unfold getDialog; mred; rewrite lookup_snoc; reflexivity).
  cbn [isOpen]. erewrite bind_ok by reflexivity.
  match goal with
  | |- staysConsistent s (snd (?tail ?S)) =>
      apply (frame_trans _ S); [|generalize S; change (preserves staysConsistent tail)]
  end.
  - intros Hs. mred. rewrite alter_snoc. apply Forall_app. split; [exact Hs|].
    constructor; [reflexivity|constructor].
  - pose proof (fun v => staysConsistent_updDialog (length (dialogs s)) (set_origDocPath v)
                           ltac:(intros g; split; reflexivity)).
    pose proof (fun v => staysConsistent_updDialog (length (dialogs s)) (set_origSelections v)
                           ltac:(intros g; split; reflexivity)).
    pose proof (fun v => staysConsistent_updDialog (length (dialogs s)) (set_origScrollPos v)
                           ltac:(intros g; split; reflexivity)).
    pose proof (fun v => staysConsistent_updDialog (length (dialogs s)) (set_searchField v)
                           ltac:(intros g; split; reflexivity)).
    pose proof (preserves_getAllFiles staysConsistent).
    pose proof (preserves_subscribe staysConsistent).
    pose proof staysConsistent_run_filesLoaded.
    pose proof (preserves_setSearchFieldValue staysConsistent).
    frame.
Qed.

Lemma staysConsistent_step s e : staysConsistent s (step s e).
Proof.
  unfold step.
  pose proof staysConsistent_close as Hclose.
  pose proof staysConsistent_createDialog as Hcreate.
  pose proof staysConsistent_pluginLoop as Hloop.
  destruct e as [prefix initialString|d' query|d' item query|d' item query explicit
                 |d' reason|p st| |newFile oldFile|path|pluginDef prio|h];
    cbn [handle].
  - apply (preserves_beginSearch staysConsistent Hclose Hcreate).
  - apply (preserves_whenOpen staysConsistent).
    pose proof (preserves_filterCallback staysConsistent Hloop). frame.
  - apply (preserves_whenOpen staysConsistent).
    apply (preserves_handleItemSelect staysConsistent Hclose).
  - apply (preserves_whenOpen staysConsistent).
    apply (preserves_handleItemHighlight staysConsistent).
  - apply (preserves_whenOpen staysConsistent).
    pose proof staysConsistent_handleCloseBar. frame.
  - apply (preserves_settle_all staysConsistent Hclose Hcreate
             staysConsistent_run_filesLoaded).
  - apply frame_fileList.
  - apply (preserves_onCurrentFileChange staysConsistent).
  - apply (preserves_onLanguageChanged staysConsistent).
  - apply (preserves_addQuickOpenPlugin staysConsistent).
  - now apply staysConsistent_same.
Qed.

Lemma consistent_run h es : Forall consistent (dialogs (run (init h) es)).
Proof.
  assert (forall s, staysConsistent s (run s es)) as Hrun.
  { induction es as [|e es IH]; intros s.
    - apply frame_refl.
    - cbn [run fold_left]. eapply frame_trans; [apply staysConsistent_step | apply IH]. }
  apply Hrun. constructor.
Qed.

(** X16: in every state the module reaches from its initial state,
    whatever the events, a dialog that is open has no closePromise, so the
    assertion of line 401 holds when its bar closes (the only call
    _handleCloseBar then makes is the one that destroys the search
    field), and a dialog that is not open has a closePromise, which is
    what close() returns without doing anything: the promise beginSearch
    waits on is never null. *)
Theorem dialogs_stay_consistent h es d dlg :
  let s := run (init h) es in
  dialogs s !! d = Some dlg ->
  if isOpen dlg
  then closePromise dlg = None
       /\ forall reason p,
           calls (snd (_handleCloseBar d reason p s))
           = (calls s ++ [SearchFieldDestroy d])%list
  else exists p, closePromise dlg = Some p /\ close d s = (Ok (Some p), s).
Proof.
  intros s Hd.
  pose proof (consistent_run h es) as Hall.
  pose proof (proj1 (Forall_lookup _ _) Hall d dlg Hd) as Hc.
  unfold consistent in Hc. destruct (isOpen dlg) eqn:Ho.
  - split; [exact Hc|]. intros reason p.
    rewrite (handleCloseBar_run d reason p _ dlg Hd). cbn [snd].
    now apply closedBar_calls.
  - destruct (closePromise dlg) as [p|] eqn:Hp; [|congruence].
    exists p. split; [reflexivity|].
    rewrite (close_closed d _ dlg Hd Ho). now rewrite Hp.
Qed.

End Consistent.

(** ** The formatters *)

Section FormatterFacts.

Context `{Env} (breakableUrl : string -> string) (Number_toString : jsnum -> string).

Lemma occurrences_app c s t :
  occurrences c (s ++ t) = (occurrences c s + occurrences c t)%nat.
Proof.
  induction s as [|a s IH]; [now rewrite app_empty|].
  rewrite app_String. cbn [occurrences]. rewrite IH. lia.
Qed.

Lemma appendRange_occurrences cls rangeFilter acc range :
  occurrences "<" (breakableUrl (filteredText rangeFilter range)) = O ->
  occurrences "<" cls = O ->
  occurrences "<" (appendRange breakableUrl cls rangeFilter acc range)
  = (occurrences "<" acc + if range.1.2 then 2 else 0)%nat.
Proof.
  intros Hesc Hcls. destruct range as [[text matched] incl].
  destruct rangeFilter as [f|]; cbn [appendRange filteredText fst snd] in *;
    destruct matched; rewrite !occurrences_app, ?Hesc, ?Hcls; cbn; lia.
Qed.

Lemma fold_appendRange_occurrences cls rangeFilter ranges :
  Forall (fun range => occurrences "<" (breakableUrl (filteredText rangeFilter range)) = O)
         ranges ->
  occurrences "<" cls = O ->
  forall acc,
    occurrences "<" (fold_left (appendRange breakableUrl cls rangeFilter) ranges acc)
    = (occurrences "<" acc
       + 2 * length (filter (fun range => range.1.2 = true) ranges))%nat.
Proof.
  intros Hesc Hcls. induction Hesc as [|range ranges Hr Hesc IH]; intros acc.
  - cbn. lia.
  - cbn [fold_left]. rewrite IH, appendRange_occurrences by assumption.
    rewrite filter_cons. destruct range as [[text []] incl]; cbn [fst snd].
    + rewrite decide_True by reflexivity. cbn [length]. lia.
    + rewrite decide_False by discriminate. lia.
Qed.

(** X17: an item that is a plain string is shown without highlighting:
    highlightMatch returns the breakable form of the string, the default
    formatter wraps that in <li>, whatever the query, and the file name
    formatter shows the part behind the last '/' on the name line and the
    whole string on the path line.  An object that has a non-empty label
    and no stringRanges is rendered like its label. *)
Theorem plain_items_are_shown_unhighlighted text :
  (forall matchClass,
      highlightMatch breakableUrl Number_toString (ItemString text) matchClass None
      = Some (breakableUrl text))
  /\ (forall matchGoodness matchClass rangeFilter,
        text <> "" ->
        highlightMatch breakableUrl Number_toString
          (ItemObject (Some text) None None matchGoodness) matchClass rangeFilter
        = highlightMatch breakableUrl Number_toString (ItemString text) matchClass rangeFilter)
  /\ (forall query,
        defaultResultsFormatter breakableUrl Number_toString (ItemString text) query
        = Some ("<li>" ++ breakableUrl text ++ "</li>"))
  /\ (forall query,
        _filenameResultsFormatter breakableUrl Number_toString (ItemString text) query
        = Some ("<li>" ++ breakableUrl (_filenameFromPath text true)
                ++ "<br /><span class='quick-open-path'>" ++ breakableUrl text
                ++ "</span></li>")).
Proof.
  split; [|split; [|split]].
  - intros matchClass. unfold highlightMatch. cbn. now rewrite app_empty.
  - intros matchGoodness matchClass rangeFilter Hne. unfold highlightMatch.
    cbn [itemRanges itemLabel scoreDebugHtml].
    destruct text; [congruence|]. reflexivity.
  - intros query. unfold defaultResultsFormatter, highlightMatch. cbn.
    now rewrite app_empty.
  - intros query. unfold _filenameResultsFormatter, highlightMatch.
    cbn [itemRanges itemLabel scoreDebugHtml mbind option_bind fold_left appendRange].
    rewrite !app_empty. now rewrite fileNameFilter_last_segment.
Qed.

(** X18: highlightMatch adds no markup but one span pair around each
    matched range: for an item with stringRanges and without scoreDebug,
    if the texts breakableUrl returns for the ranges hold no '<' (it
    escapes them) and the class holds none, the number of '<' in the
    result is twice the number of matched ranges. *)
Theorem highlightMatch_wraps_matched_ranges label ranges matchGoodness matchClass rangeFilter :
  Forall (fun range => occurrences "<" (breakableUrl (filteredText rangeFilter range)) = O)
         ranges ->
  occurrences "<" (default "" matchClass) = O ->
  exists html,
    highlightMatch breakableUrl Number_toString
      (ItemObject label (Some ranges) None matchGoodness) matchClass rangeFilter
    = Some html
    /\ occurrences "<" html
       = (2 * length (filter (fun range => range.1.2 = true) ranges))%nat.
Proof.
  intros Hesc Hcls. eexists. split; [reflexivity|].
  cbn [scoreDebugHtml]. rewrite fold_appendRange_occurrences; [reflexivity|assumption|].
  destruct matchClass as [[|c cls]|]; cbn [nonEmpty truthyStr default] in *;
    [reflexivity|assumption|reflexivity].
Qed.

(** X19: the rows of the list are formatted for the mode the latest query
    put the dialog in: after a query no provider accepted, by the file
    name formatter; after a query dispatched to a plug-in, by that
    plug-in's resultsFormatter if it has one and by the default formatter
    otherwise. *)
Theorem rows_are_formatted_for_the_current_mode d query s dlg item query' :
  dialogs s !! d = Some dlg ->
  let s1 := snd (_filterCallback d query s) in
  (Forall (fun e => match_ (provider e) query = false) (providersOf s) ->
   _resultsFormatterCallback breakableUrl Number_toString item query' s1
   = (Ok (_filenameResultsFormatter breakableUrl Number_toString (itemOfResult item) query'),
      s1))
  /\ (forall entry,
        dispatches s query entry ->
        _resultsFormatterCallback breakableUrl Number_toString item query' s1
        = (Ok (match resultsFormatter (provider entry) with
               | Some formatter => Some (formatter item query')
               | None => defaultResultsFormatter breakableUrl Number_toString
                           (itemOfResult item) query'
               end), s1)).
Proof.
  intros Hd s1. split.
  - intros Hno. unfold _resultsFormatterCallback.
    erewrite bind_ok by reflexivity.
    unfold s1. now rewrite currentPlugin_filterCallback_none.
  - intros entry Hdisp. unfold _resultsFormatterCallback.
    erewrite bind_ok by reflexivity.
    unfold s1. rewrite (filterCallback_dispatched d query entry s dlg Hdisp Hd).
    cbn [snd]. mred. now destruct (resultsFormatter (provider entry)).
Qed.

End FormatterFacts.

(** ** Missing numbers, and the searches that wait for the file list *)

Section MissingNumbers.

Lemma afterColon_column sep colTxt :
  isSep sep = true -> isNumeral colTxt = true ->
  afterColon (String sep colTxt)
  = ("", <[2%nat := String sep colTxt]> (<[3%nat := colTxt]> ∅)).
Proof.
  intros Hs Hc. pose proof Hc as [Hne Hd]%andb_true_iff.
  unfold afterColon. cbv zeta. cbn [takeWhile dropWhile]. unfold nonSep. rewrite Hs.
  cbn [negb isEmpty columnPart]. rewrite Hs.
  pose proof (allb_impl _ _ _ digit_dot Hd) as Hdot.
  rewrite takeWhile_all, dropWhile_all by assumption.
  apply negb_true_iff in Hne. now rewrite Hne.
Qed.

(** X20: a number that is missing counts as the first line or column.
    ":" alone is no position, but a file query that ends with ':' holds
    the position line 0, column 0 with query ":", and is searched without
    that ':'; a go-to-line query that holds only a column, ":,M" or "::M",
    means line 0 and column ToNumber(M) - 1, which is M - 1 for a numeral
    up to 2^53. *)
Theorem missing_numbers_count_as_first file sep colTxt :
  file <> "" ->
  allb notColon file = true ->
  isSep sep = true ->
  isNumeral colTxt = true ->
  extractCursorPos ":" = None
  /\ extractCursorPos (file ++ ":")
     = Some {| cp_query := ":"; cp_local := false; cp_line := of_Z 0; cp_ch := of_Z 0 |}
  /\ strippedQuery (file ++ ":") = file
  /\ extractCursorPos (String ":" (String sep colTxt))
     = Some {| cp_query := String ":" (String sep colTxt); cp_local := true;
               cp_line := of_Z 0;
               cp_ch := or0 (jsub (StringToNumber colTxt) (of_Z 1)) |}
  /\ (numeralValue colTxt <= 2 ^ 53 ->
      extractCursorPos (String ":" (String sep colTxt))
      = Some {| cp_query := String ":" (String sep colTxt); cp_local := true;
                cp_line := of_Z 0; cp_ch := of_Z (numeralValue colTxt - 1) |}).
Proof.
  intros Hne Hf Hs Hc.
  assert (extractCursorPos (file ++ ":")
          = Some {| cp_query := ":"; cp_local := false;
                    cp_line := of_Z 0; cp_ch := of_Z 0 |}) as He.
  { unfold extractCursorPos, String_match.
    rewrite exec_from_skip by assumption. rewrite exec_from_colon.
    rewrite startsWithColon_after_file by assumption.
    assert ((len (file ++ ":") <=? 1) = false) as ->.
    { apply Z.leb_gt. rewrite len_app. change (len ":") with 1.
      destruct file; [congruence|]. rewrite len_String. pose proof (len_nonneg file). lia. }
    reflexivity. }
  assert (extractCursorPos (String ":" (String sep colTxt))
          = Some {| cp_query := String ":" (String sep colTxt); cp_local := true;
                    cp_line := of_Z 0;
                    cp_ch := or0 (jsub (StringToNumber colTxt) (of_Z 1)) |}) as Hcol.
  { unfold extractCursorPos, String_match.
    rewrite exec_from_colon, afterColon_column by assumption.
    cbn [fst snd]. rewrite consumed_all.
    assert ((len (String ":" (String sep colTxt)) <=? 1) = false) as ->.
    { apply Z.leb_gt. rewrite !len_String. pose proof (len_nonneg colTxt). lia. }
    unfold group. cbn [mr_groups mr_text].
    assert ((<[2%nat := String sep colTxt]> (<[3%nat := colTxt]> ∅) : captures) !! 1%nat
            = None) as -> by (by simplify_map_eq).
    assert ((<[2%nat := String sep colTxt]> (<[3%nat := colTxt]> ∅) : captures) !! 3%nat
            = Some colTxt) as -> by (by simplify_map_eq).
    rewrite truthyStr_numeral, isNaN_numeral by assumption.
    reflexivity. }
  split; [reflexivity|]. split; [exact He|]. split; [|split].
  - unfold strippedQuery. rewrite He. cbn [cp_local cp_query negb andb String.eqb].
    now apply (String_replace_suffix file "").
  - exact Hcol.
  - intros Hb. rewrite Hcol. pose proof (numeralValue_nonneg colTxt Hc).
    rewrite StringToNumber_small, or0_sub1 by (assumption || lia). reflexivity.
Qed.

End MissingNumbers.

Section Queue.

Context `{Env}.

Lemma fire_queued v searches :
  forall s,
    NoDup (searches.*1.*1) ->
    Forall (fun x => exists pr, promises s !! x.1.1 = Some pr /\ p_settled pr = None)
           searches ->
    exists ps,
      fire (Resolved v) (queued searches) s = (Ok tt, with_promises ps s)
      /\ Forall (fun x =>
                   p_settled <$> ps !! x.1.1
                   = Some (Some (Resolved (VResults (_doSearchFileList s x.1.2 x.2)))))
                searches
      /\ forall i, i ∉ searches.*1.*1 -> ps !! i = promises s !! i.
Proof.
  induction searches as [|[[a q] m] rest IH]; intros s Hnd Hpend.
  - exists (promises s). cbn. split; [now destruct s|]. split; [constructor|reflexivity].
  - cbn [fmap list_fmap fst] in Hnd. apply NoDup_cons in Hnd as [Ha Hnd].
    apply Forall_cons in Hpend as [(pr & Hpr & Hnone) Hpend]. cbn [fst snd] in *.
    set (r := _doSearchFileList s q m).
    set (s' := with_promises (alter (set_settled (Resolved (VResults r))) a (promises s)) s).
    assert (run_searchFileList a q m (Resolved v) s = (Ok tt, s')) as Hrun.
    { unfold run_searchFileList, resolve. mred. rewrite Hpr. mred. rewrite Hnone.
      reflexivity. }
    destruct (IH s' Hnd) as (ps & Hfire & Hres & Hframe).
    { apply Forall_forall. intros x Hx.
      destruct (proj1 (Forall_forall _ _) Hpend x Hx) as (pr' & Hpr' & Hn').
      exists pr'. split; [|exact Hn']. unfold s'. mred.
      rewrite list_lookup_alter_ne; [exact Hpr'|].
      intros ->. apply Ha. now do 2 apply list_elem_of_fmap_2. }
    exists ps. split; [|split].
    + cbn [queued fmap list_fmap fire fires run_callback fst snd].
      erewrite bind_ok by exact Hrun. exact Hfire.
    + constructor; [|exact Hres]. cbn [fst snd].
      rewrite (Hframe a Ha). unfold s'. mred.
      now rewrite list_lookup_alter_eq, Hpr.
    + intros i Hi. cbn [fmap list_fmap fst] in Hi.
      apply not_elem_of_cons in Hi as [Hia Hi].
      rewrite (Hframe i Hi). unfold s'. mred.
      now rewrite list_lookup_alter_ne by congruence.
Qed.

(** X21: when the file list arrives, every search that was waiting for
    it is answered, each with the result of _doSearchFileList for its own
    query and matcher on the list that arrived: the closure of showDialog
    runs first (it hides the spinner, stores the list, clears
    fileListPromise and resets the file name matcher of its dialog; these
    two are the only calls made), then the closures of the searches in the
    order of the calls, which resolve their deferreds and touch nothing
    else. *)
Theorem queued_searches_are_all_answered s p d dlg searches files :
  promises s !! p
  = Some {| p_owner := ByHost; p_settled := None;
            p_callbacks := (OnDone, CbFilesLoaded d) :: queued searches |} ->
  dialogs s !! d = Some dlg ->
  NoDup (searches.*1.*1) ->
  Forall (fun x => x.1.1 <> p
                   /\ exists pr, promises s !! x.1.1 = Some pr /\ p_settled pr = None)
         searches ->
  let s1 := snd (settle p (Resolved (VFiles files)) s) in
  fst (settle p (Resolved (VFiles files)) s) = Ok tt
  /\ fileList s1 = Some files
  /\ fileListPromise s1 = None
  /\ calls s1
     = (calls s ++ [HideIndexingSpinner d; MatcherReset (_filenameMatcher dlg)])%list
  /\ dialogs s1 = dialogs s
  /\ Forall (fun x =>
               p_settled <$> promises s1 !! x.1.1
               = Some (Some (Resolved (VResults (_doSearchFileList s1 x.1.2 x.2)))))
            searches.
Proof.
  intros Hp Hd Hnd Hpend s1.
  set (s0 := with_calls (calls s ++ [HideIndexingSpinner d; MatcherReset (_filenameMatcher dlg)])
               (with_fileListPromise None
                  (with_fileList (Some files)
                     (with_promises
                        (alter (set_settled (Resolved (VFiles files))) p (promises s)) s)))).
  destruct (fire_queued (VFiles files) searches s0 Hnd) as (ps & Hfire & Hres & _).
  { apply Forall_forall. intros x Hx.
    destruct (proj1 (Forall_forall _ _) Hpend x Hx) as (Hne & pr & Hpr & Hn).
    exists pr. split; [|exact Hn]. unfold s0. mred.
    now rewrite list_lookup_alter_ne by congruence. }
  assert (settle p (Resolved (VFiles files)) s = (Ok tt, with_promises ps s0)) as Hsettle.
  { unfold settle. erewrite bind_ok by (unfold gets; rewrite Hp; reflexivity).
    cbv beta iota. erewrite bind_ok by reflexivity.
    cbn [fire fires run_callback fst snd].
    erewrite bind_ok; [exact Hfire|].
    unfold run_filesLoaded. mred. rewrite Hd. mred.
    unfold s0. mred. now rewrite <- app_assoc. }
  subst s1. rewrite Hsettle. cbn [fst snd].
  split; [reflexivity|]. split; [reflexivity|]. split; [reflexivity|].
  split; [reflexivity|]. split; [reflexivity|]. exact Hres.
Qed.

End Queue.

(** ** The theorems on the sample project *)

#[local] Existing Instance Fixture.env.

(** Both loads pending, then rejected by the host; and the same for the
    new file when there is no old file. *)
Lemma currentFileChange_logs_failures_witness :
  (let r := onCurrentFileChange (Some Fixture.newFile) (Some Fixture.oldFile)
              (init Fixture.host) in
   consoleErrors (calls (snd (settle 0 (Rejected "NotFound") (snd r)))) = ["NotFound"]
   /\ consoleErrors (calls (snd (settle 1 (Rejected "NotFound") (snd r)))) = ["NotFound"]
   /\ consoleErrors (calls (snd (settle 1 (Rejected "UnsupportedEncoding") (snd r)))) = [])
  /\ (let r := onCurrentFileChange (Some Fixture.newFile) None (init Fixture.host) in
      fst r = Ok tt
      /\ consoleErrors (calls (snd (settle 0 (Rejected "NotFound") (snd r))))
         = ["NotFound"]).
Proof.
  split.
  - destruct (currentFileChange_logs_failures (H := Fixture.env) (init Fixture.host)
                Fixture.newFile (Some Fixture.oldFile) eq_refl I
                ltac:(intros answer [= <-]; exact I)) as (_ & _ & Hnew & Hold).
    split; [exact (proj2 (Hnew eq_refl "NotFound"))|].
    split; [exact (proj2 (Hold eq_refl "NotFound"))
           | exact (proj2 (Hold eq_refl "UnsupportedEncoding"))].
  - destruct (currentFileChange_logs_failures (H := Fixture.env) (init Fixture.host)
                Fixture.newFile None eq_refl I
                ltac:(intros answer [=])) as (Hok & _ & Hnew & _).
    split; [exact Hok | exact (proj2 (Hnew eq_refl "NotFound"))].
Defined.

Lemma filterCallback_dispatch_witness :
  fst (_filterCallback 0 "@foo" Fixture.opened)
  = Ok (FROut (search Fixture.symbols "@foo"
                 (MStringMatcher {| sm_ref := 1; sm_options := None |})))
  /\ currentPlugin (snd (_filterCallback 0 "@foo" Fixture.opened))
     = Some Fixture.symbols
  /\ currentPlugin (snd (_filterCallback 0 "main" Fixture.opened))
     = None.
Proof.
  destruct (filterCallback_dispatch (H := Fixture.env) 0 "@foo" Fixture.opened
              Fixture.dialog0 eq_refl ltac:(discriminate) eq_refl) as (_ & Hfirst & _).
  destruct (Hfirst [] Fixture.entry [] eq_refl (List.Forall_nil _) eq_refl) as [Hres Hcur].
  destruct (filterCallback_dispatch (H := Fixture.env) 0 "main" Fixture.opened
              Fixture.dialog0 eq_refl ltac:(discriminate) eq_refl) as (_ & _ & Hnone).
  destruct (Hnone ltac:(repeat constructor)) as (_ & _ & Hcur').
  split; [exact Hres|]. split; [exact Hcur | exact Hcur'].
Defined.

Lemma matcher_cache_once_witness :
  fst (_filterCallback 0 "@bar"
         (run (snd (_filterCallback 0 "@foo" Fixture.opened))
              [EvQuery 0 "main"; EvProjectOpen]))
  = Ok (FROut (search Fixture.symbols "@bar"
                 (MStringMatcher {| sm_ref := 1; sm_options := None |})))
  /\ constructed
       (calls (snd (_filterCallback 0 "@bar"
                      (run (snd (_filterCallback 0 "@foo" Fixture.opened))
                           [EvQuery 0 "main"; EvProjectOpen]))))
     = constructed
         (calls (run (snd (_filterCallback 0 "@foo" Fixture.opened))
                     [EvQuery 0 "main"; EvProjectOpen])).
Proof.
  assert (forall s query,
             goToLine query = None -> query <> ":" ->
             providersOf s = [Fixture.entry] ->
             match_ Fixture.symbols query = true ->
             dispatches (H := Fixture.env) s query Fixture.entry) as Hdisp.
  { intros s query Hg Hq Hps Hm. split; [exact Hg|]. split; [exact Hq|].
    exists [], []. split; [|split; [constructor | exact Hm]].
    rewrite providersOf_eq. cbn [fst]. now rewrite Hps. }
  destruct (matcher_cache_once (H := Fixture.env) 0 Fixture.opened Fixture.dialog0
              "@foo" Fixture.entry eq_refl
              (Hdisp Fixture.opened "@foo" eq_refl ltac:(discriminate) eq_refl eq_refl))
    as (_ & _ & _ & _ & Hlater).
  exact (Hlater [EvQuery 0 "main"; EvProjectOpen] "@bar" Fixture.entry
           (Hdisp (run (snd (_filterCallback 0 "@foo" Fixture.opened))
                       [EvQuery 0 "main"; EvProjectOpen])
                  "@bar" eq_refl ltac:(discriminate) eq_refl eq_refl)
           eq_refl).
Defined.

Lemma doSearchFileList_behaviour_witness :
  "src:12" = strippedQuery "src:12" ++ ":12".
Proof.
  destruct (doSearchFileList_behaviour (H := Fixture.env) Fixture.loaded "src:12"
              (_filenameMatcher Fixture.dialog0)) as (Hstrip & _ & _).
  destruct (Hstrip {| cp_query := ":12"; cp_local := false;
                      cp_line := of_Z 11; cp_ch := of_Z 0 |} eq_refl) as [_ Hsuffix].
  exact (Hsuffix eq_refl eq_refl).
Defined.





Lemma escape_restores_selection_witness :
  currentFullEditor
    (view (host (snd (_handleCloseBar 0 "escape" 1
                        (run (snd (showDialog 0 (Some ":") None
                                     Fixture.constructedOnly))
                             [EvQuery 0 ":5"])))))
  = Some Fixture.editor.
Proof.
  destruct (escape_restores_selection (H := Fixture.env) 0 (Some ":") None
              Fixture.constructedOnly Fixture.dialogNew Fixture.document Fixture.editor
              eq_refl eq_refl eq_refl eq_refl) as [_ Hclose].
  destruct (Hclose [EvQuery 0 ":5"] "escape" 1%nat) as [Hescape _].
  exact (proj1 (Hescape eq_refl
                  (setSelection {| pos_line := of_Z 4; pos_ch := Some (of_Z 0) |}
                                {| pos_line := of_Z 4; pos_ch := None |} Fixture.editor)
                  ltac:(vm_compute; reflexivity))).
Defined.

Lemma close_is_idempotent_witness :
  close 0 Fixture.closing = (Ok (Some 1%nat), Fixture.closing)
  /\ beginSearch None None Fixture.closing
     = (Ok tt,
        with_promises
          (alter (add_callback OnDone (CbCreateDialog None None)) 1%nat
                 (promises Fixture.closing))
          Fixture.closing).
Proof.
  destruct (close_is_idempotent (H := Fixture.env) 0 Fixture.closing Fixture.dialogClosing
              eq_refl) as (Hclosed & _ & Hbegin).
  destruct (Hbegin 1%nat {| p_owner := ByHost; p_settled := None; p_callbacks := [] |}
              None None eq_refl eq_refl eq_refl eq_refl) as (Hqueued & _).
  split; [exact (Hclosed eq_refl) | exact (Hqueued eq_refl)].
Defined.

Lemma query_without_position_witness :
  extractCursorPos "main.js" = None
  /\ goToLine "main.js" = None
  /\ strippedQuery "main.js" = "main.js".
Proof.
  destruct (query_without_position (H := Fixture.env) "main.js" (or_introl eq_refl))
    as (H1 & H2 & H3 & _).
  exact (conj H1 (conj H2 H3)).
Defined.

Lemma query_with_position_witness :
  extractCursorPos "main.js:12:3"
  = Some {| cp_query := ":12:3"; cp_local := false; cp_line := of_Z 11; cp_ch := of_Z 2 |}
  /\ strippedQuery "main.js:12:3" = "main.js".
Proof.
  destruct (query_with_position (H := Fixture.env) "main.js" "12" (Some (":"%char, "3"))
              ltac:(discriminate) eq_refl eq_refl eq_refl) as (_ & H1 & _ & H3 & _).
  exact (conj (H1 ltac:(vm_compute; discriminate) eq_refl) H3).
Defined.

(** Hexadecimal text is a number, letters are not; beyond 2^53 the text is
    rounded to a double before 1 is subtracted, and beyond the largest
    double it is Infinity. *)
Lemma line_text_is_converted_by_ToNumber_witness :
  extractCursorPos ":0x10"
  = Some {| cp_query := ":0x10"; cp_local := true; cp_line := of_Z 15; cp_ch := of_Z 0 |}
  /\ extractCursorPos ":abc" = None
  /\ extractCursorPos ":9007199254740993"
     = Some {| cp_query := ":9007199254740993"; cp_local := true;
               cp_line := of_Z 9007199254740991; cp_ch := of_Z 0 |}
  /\ extractCursorPos ":1e400"
     = Some {| cp_query := ":1e400"; cp_local := true;
               cp_line := JInf false; cp_ch := of_Z 0 |}.
Proof.
  split; [|split; [|split]].
  - exact (line_text_is_converted_by_ToNumber "0x10" ltac:(discriminate) eq_refl).
  - exact (line_text_is_converted_by_ToNumber "abc" ltac:(discriminate) eq_refl).
  - exact (line_text_is_converted_by_ToNumber "9007199254740993"
             ltac:(discriminate) eq_refl).
  - exact (line_text_is_converted_by_ToNumber "1e400" ltac:(discriminate) eq_refl).
Defined.

Lemma filenameFromPath_drops_last_extension_witness :
  _filenameFromPath "jquery.min.js" false = "jquery.min"
  /\ _filenameFromPath ".gitignore" false = ""
  /\ _filenameFromPath "src/search/QuickOpen.js" false = "QuickOpen".
Proof.
  split; [|split].
  - exact (proj1 (filenameFromPath_drops_last_extension "jquery.min" "js"
                    eq_refl eq_refl eq_refl)).
  - exact (proj1 (filenameFromPath_drops_last_extension "" "gitignore"
                    eq_refl eq_refl eq_refl)).
  - exact (proj2 (filenameFromPath_drops_last_extension "QuickOpen" "js"
                    eq_refl eq_refl eq_refl) "src/search").
Defined.

Lemma name_line_shows_file_name_witness :
  nameText [("src/se", true, false); ("arch/", false, false);
            ("Quick", true, true); ("Open.js", false, true)]
  = "QuickOpen.js".
Proof.
  exact (name_line_shows_file_name
           [("src/se", true, false); ("arch/", false, false);
            ("Quick", true, true); ("Open.js", false, true)]
           (conj (or_introl eq_refl)
              (conj (or_intror eq_refl) (conj eq_refl (conj eq_refl I))))).
Defined.

(** On the dialog of a Quick Open that is open; and on the dialog that is
    left when beginSearch has thrown because the document shown had no
    full editor. *)
Lemma beginSearch_reuses_open_dialog_witness :
  (beginSearch (Some "@") (Some "foo") Fixture.opened
   = (Ok tt,
      with_calls (calls Fixture.opened
                  ++ [SearchFieldSetText 0 "@foo"; SetSelectionRange 0 1 4])
                 Fixture.opened)
   /\ slice "@foo" 1 4 = "foo")
  /\ (let s := run (init Unedited.host) [EvBeginSearch None None] in
      beginSearch (Some "@") (Some "foo") s = (Throw TypeError, s)).
Proof.
  split.
  - exact (beginSearch_reuses_open_dialog (H := Fixture.env) 0 Fixture.dialog0
             (Some "@") (Some "foo") Fixture.opened eq_refl eq_refl eq_refl).
  - exact (proj1 (beginSearch_reuses_open_dialog (H := Fixture.env) 0 Unedited.dialog0
                    (Some "@") (Some "foo")
                    (run (init Unedited.host) [EvBeginSearch None None])
                    eq_refl eq_refl eq_refl)).
Defined.

Lemma commands_prefill_the_field_witness :
  doDefinitionSearch (Some "foo") Fixture.opened
  = (Ok tt,
     with_calls (calls Fixture.opened ++ [SearchFieldSetText 0 "@foo"; SetSelectionRange 0 1 4])
                Fixture.opened)
  /\ doGotoLine (with_host (with_view {| currentDocument := None; currentFullEditor := None |}
                              Fixture.host) Fixture.opened)
     = (Ok tt, with_host (with_view {| currentDocument := None; currentFullEditor := None |}
                            Fixture.host) Fixture.opened)
  /\ (let s := run (init Unedited.host) [EvBeginSearch None None] in
      doFileSearch None s = (Throw TypeError, s)).
Proof.
  split; [|split].
  - exact (proj1 (proj2 (proj2 (commands_prefill_the_field (H := Fixture.env) 0 Fixture.dialog0
                                   Fixture.opened (Some "foo") eq_refl eq_refl eq_refl)))).
  - exact (proj1 (proj2 (commands_prefill_the_field (H := Fixture.env) 0 Fixture.dialog0
                           (with_host (with_view {| currentDocument := None;
                                                    currentFullEditor := None |}
                                         Fixture.host) Fixture.opened)
                           None eq_refl eq_refl eq_refl))).
  - exact (proj1 (commands_prefill_the_field (H := Fixture.env) 0 Unedited.dialog0
                    (run (init Unedited.host) [EvBeginSearch None None])
                    None eq_refl eq_refl eq_refl)).
Defined.

Lemma commit_with_plugin_witness :
  fst (_handleItemSelect 0 None "@foo" (with_currentPlugin (Some Fixture.symbols) Fixture.opened))
  = Ok tt
  /\ dialogs (snd (_handleItemSelect 0 None "@foo"
                     (with_currentPlugin (Some Fixture.symbols) Fixture.opened))) !! 0%nat
     = Some Fixture.dialogClosing.
Proof.
  destruct (commit_with_plugin (H := Fixture.env) 0 Fixture.dialog0
              (with_currentPlugin (Some Fixture.symbols) Fixture.opened)
              Fixture.symbols None "@foo" eq_refl eq_refl eq_refl eq_refl
              ltac:(discriminate)) as (H1 & _ & H3 & _).
  exact (conj H1 H3).
Defined.

Lemma commit_position_witness :
  fst (_handleItemSelect 0 None ":5,3" Fixture.opened) = Ok tt
  /\ currentFullEditor (view (host (snd (_handleItemSelect 0 None ":5,3" Fixture.opened))))
     = Some (setCursorPos (of_Z 4) (of_Z 2) Fixture.editor).
Proof.
  destruct (commit_position (H := Fixture.env) 0 Fixture.dialog0 Fixture.opened None ":5,3"
              eq_refl eq_refl eq_refl eq_refl eq_refl ltac:(discriminate))
    as (H1 & H2 & _).
  split; [exact H1|]. exact (f_equal currentFullEditor H2).
Defined.

(** The command still runs when the handler returns, then fails; and the
    command has finished when execute returns. *)
Lemma commit_file_item_witness :
  let item := {| sr_label := "main.js"; sr_matchGoodness := 0; sr_stringRanges := [];
                 sr_fullPath := Some "src/main.js";
                 sr_filenameWithoutExtension := Some "main" |} in
  (let s1 := snd (_handleItemSelect 0 (Some item) "main:5" Fixture.opened) in
   dialogs s1 = dialogs Fixture.opened
   /\ isOpen <$> dialogs (snd (settle 1 (Rejected "NotFound") (with_host Fixture.host s1)))
                 !! 0%nat
      = Some false)
  /\ (let s := run (init Shown.host) [EvBeginSearch None None] in
      isOpen <$> dialogs (snd (_handleItemSelect 0 (Some item) "main:5" s)) !! 0%nat
      = Some false).
Proof.
  intros item. split.
  - intros s1.
    destruct (commit_file_item (H := Fixture.env) 0 Fixture.dialog0 Fixture.opened item
                "src/main.js" "main:5" eq_refl eq_refl eq_refl eq_refl eq_refl
                ltac:(discriminate) ltac:(discriminate)) as (_ & _ & H3 & _ & H5).
    split; [exact H3|].
    destruct (H5 Fixture.host (Rejected "NotFound")) as (_ & _ & H6).
    exact (f_equal (fmap isOpen) H6).
  - destruct (commit_file_item (H := Fixture.env) 0 Fixture.dialog0
                (run (init Shown.host) [EvBeginSearch None None]) item
                "src/main.js" "main:5" eq_refl eq_refl eq_refl eq_refl eq_refl
                ltac:(discriminate) ltac:(discriminate)) as [(_ & _ & H6) _].
    exact (f_equal (fmap isOpen) H6).
Defined.

Lemma highlight_without_plugin_witness :
  _handleItemHighlight None "main" true (snd (_filterCallback 0 "main" Fixture.opened))
  = (Ok tt, snd (_filterCallback 0 "main" Fixture.opened)).
Proof.
  exact (highlight_without_plugin (H := Fixture.env) 0 "main" Fixture.opened
           ltac:(repeat constructor) None "main" true).
Defined.

Lemma search_after_failed_load_witness :
  fst (searchFileList "main" (_filenameMatcher Fixture.dialog0)
         (snd (settle 0 (Rejected "NotFound") Fixture.opened)))
  = Ok (OutDeferred 1).
Proof.
  destruct (search_after_failed_load (H := Fixture.env) Fixture.opened 0 0 [] "NotFound"
              eq_refl eq_refl eq_refl ltac:(constructor)) as [H1 H2].
  rewrite H1. cbn [snd]. rewrite H2. reflexivity.
Defined.

Lemma prefetch_with_index_ready_witness :
  fileList (snd (createDialog None None (init Indexed.host))) = Some Fixture.files
  /\ fileListPromise (snd (createDialog None None (init Indexed.host))) = Some 0%nat.
Proof.
  destruct (prefetch_with_index_ready (H := Fixture.env) None None (init Indexed.host)
              Fixture.files eq_refl ltac:(intros _; eexists; reflexivity))
    as (_ & H2 & H3 & _).
  exact (conj H2 H3).
Defined.

Lemma dialogs_stay_consistent_witness :
  let s := run (init Fixture.host) [EvBeginSearch None None; EvBarClose 0 "blur"] in
  exists p,
    closePromise Fixture.dialogClosing = Some p
    /\ close 0 s = (Ok (Some p), s).
Proof.
  exact (dialogs_stay_consistent (H := Fixture.env) Fixture.host
           [EvBeginSearch None None; EvBarClose 0 "blur"] 0 Fixture.dialogClosing eq_refl).
Defined.

Lemma highlightMatch_wraps_matched_ranges_witness :
  exists html,
    highlightMatch (fun t => t) (fun _ => "")
      (ItemObject (Some "main.js") (Some [("src/", false, false); ("main", true, true);
                                          (".js", false, true)])
                  None (of_Z 0))
      None None
    = Some html
    /\ occurrences "<" html = 2%nat.
Proof.
  exact (highlightMatch_wraps_matched_ranges (fun t => t) (fun _ => "") (Some "main.js")
           [("src/", false, false); ("main", true, true); (".js", false, true)]
           (of_Z 0) None None ltac:(repeat constructor) eq_refl).
Defined.

Lemma rows_are_formatted_for_the_current_mode_witness :
  let item := {| sr_label := "main.js"; sr_matchGoodness := 0;
                 sr_stringRanges := [("src/", false, false); ("main", true, true);
                                     (".js", false, true)];
                 sr_fullPath := Some "src/main.js";
                 sr_filenameWithoutExtension := Some "main" |} in
  let s1 := snd (_filterCallback 0 "main" Fixture.opened) in
  _resultsFormatterCallback (fun t => t) (fun _ => "") item "main" s1
  = (Ok (_filenameResultsFormatter (fun t => t) (fun _ => "") (itemOfResult item) "main"), s1).
Proof.
  intros item s1.
  exact (proj1 (rows_are_formatted_for_the_current_mode (H := Fixture.env) (fun t => t)
                  (fun _ => "") 0 "main" Fixture.opened Fixture.dialog0 item "main" eq_refl)
               ltac:(repeat constructor)).
Defined.

Lemma missing_numbers_count_as_first_witness :
  extractCursorPos "main.js:"
  = Some {| cp_query := ":"; cp_local := false; cp_line := of_Z 0; cp_ch := of_Z 0 |}
  /\ extractCursorPos ":,5"
     = Some {| cp_query := ":,5"; cp_local := true; cp_line := of_Z 0; cp_ch := of_Z 4 |}.
Proof.
  destruct (missing_numbers_count_as_first "main.js" ","%char "5"
              ltac:(discriminate) eq_refl eq_refl eq_refl) as (_ & H1 & _ & _ & H3).
  exact (conj H1 (H3 ltac:(vm_compute; discriminate))).
Defined.

Lemma queued_searches_are_all_answered_witness :
  let m := _filenameMatcher Fixture.dialog0 in
  let s := run Fixture.opened [EvQuery 0 "src"; EvQuery 0 "dir"] in
  let s1 := snd (settle 0 (Resolved (VFiles Fixture.files)) s) in
  Forall (fun x =>
            p_settled <$> promises s1 !! x.1.1
            = Some (Some (Resolved (VResults (_doSearchFileList s1 x.1.2 x.2)))))
         [(1%nat, "src", m); (2%nat, "dir", m)].
Proof.
  intros m s s1.
  destruct (queued_searches_are_all_answered (H := Fixture.env) s 0 0 Fixture.dialog0
              [(1%nat, "src", m); (2%nat, "dir", m)] Fixture.files
              eq_refl eq_refl ltac:(apply (bool_decide_unpack _); exact I)
              ltac:(repeat constructor; try discriminate; eexists; split; reflexivity))
    as (_ & _ & _ & _ & _ & Hall).
  exact Hall.
Defined.
